(** * nonebot-plugin-vrpspdouchong: formatters, run splitting, truncation
      and pagination of the table renderer

    A shallow embedding of the pure parts of [toolkit.py],
    [commands/douchong.py], [commands/live_list.py] and [commands/query.py],
    followed by the properties the specification states about them.

    Python values are embedded as follows: a [str] is the list of its code
    points, an [int] is a [Z], a [float] is a binary64 value of [SpecFloat]
    (precision 53, [emax] 1024), a JSON object is a [gmap] from its keys to
    values, and a raised exception is [None] in an [option]. *)

From Stdlib Require Import ZArith List Bool Lia String Ascii.
From Stdlib Require Import SpecFloat DecimalPos DecimalN.
From Stdlib Require DecimalFacts.
From stdpp Require Import gmap strings list.

Local Open Scope Z_scope.

(** ** Python strings *)

Module PyStr.

(** A [str] is the sequence of its Unicode code points. *)
Definition pystr := list Z.

(** Decoder of UTF-8 byte sequences, used to write literals. *)
Fixpoint utf8_go (bs : list Z) (pending : nat) (acc : Z) : pystr :=
  match bs with
  | [] => []
  | b :: rest =>
      match pending with
      | O =>
          if b <? 128 then b :: utf8_go rest 0 0
          else if b <? 224 then utf8_go rest 1 (b - 192)
          else if b <? 240 then utf8_go rest 2 (b - 224)
          else utf8_go rest 3 (b - 240)
      | S p =>
          let acc' := acc * 64 + (b - 128) in
          match p with
          | O => acc' :: utf8_go rest 0 0
          | S _ => utf8_go rest p acc'
          end
      end
  end.

Definition byte_codes (s : string) : list Z :=
  map (fun a => Z.of_N (N_of_ascii a)) (list_ascii_of_string s).

(** [u "text"] is the Python string written [text]. *)
Definition u (s : string) : pystr := utf8_go (byte_codes s) 0 0.

(** [str.isspace]: the code points removed by [str.strip()]. *)
Definition is_space (c : Z) : bool :=
  ((9 <=? c) && (c <=? 13)) || ((28 <=? c) && (c <=? 32))
  || (c =? 133) || (c =? 160) || (c =? 5760)
  || ((8192 <=? c) && (c <=? 8202))
  || (c =? 8232) || (c =? 8233) || (c =? 8239) || (c =? 8287)
  || (c =? 12288).

Fixpoint lstrip_with (p : Z -> bool) (s : pystr) : pystr :=
  match s with
  | [] => []
  | c :: rest => if p c then lstrip_with p rest else s
  end.

Definition strip_with (p : Z -> bool) (s : pystr) : pystr :=
  rev (lstrip_with p (rev (lstrip_with p s))).

(** [s.strip()] *)
Definition strip (s : pystr) : pystr := strip_with is_space s.

(** [s.split(sep)] for a one-character separator: never an empty list. *)
Fixpoint split_on (sep : Z) (s : pystr) : list pystr :=
  match s with
  | [] => [[]]
  | c :: rest =>
      if c =? sep then [] :: split_on sep rest
      else match split_on sep rest with
           | [] => [[c]]
           | p :: ps => (c :: p) :: ps
           end
  end.

(** Decimal digits of a natural number, most significant first. *)
Fixpoint uint_codes (d : Decimal.uint) : pystr :=
  match d with
  | Decimal.Nil => []
  | Decimal.D0 r => 48 :: uint_codes r
  | Decimal.D1 r => 49 :: uint_codes r
  | Decimal.D2 r => 50 :: uint_codes r
  | Decimal.D3 r => 51 :: uint_codes r
  | Decimal.D4 r => 52 :: uint_codes r
  | Decimal.D5 r => 53 :: uint_codes r
  | Decimal.D6 r => 54 :: uint_codes r
  | Decimal.D7 r => 55 :: uint_codes r
  | Decimal.D8 r => 56 :: uint_codes r
  | Decimal.D9 r => 57 :: uint_codes r
  end.

Definition nat_digits (n : Z) : pystr := uint_codes (N.to_uint (Z.to_N n)).

End PyStr.
Export PyStr.

(** ** Python floats *)

Module PyFloat.

(** A [float] is an IEEE 754 binary64 number. *)
Definition float := spec_float.
Definition prec : Z := 53.
Definition emax : Z := 1024.

Definition fzero : float := S754_zero false.
Definition fone : float := S754_finite false 4503599627370496 (-52).

(** [x + y] on floats. *)
Definition fadd (x y : float) : float := SFadd prec emax x y.

(** An operation that overflows raises [OverflowError] where the integer
    operand is converted or divided. *)
Definition finite_or_raise (f : float) : option float :=
  match f with
  | S754_infinity _ => None
  | _ => Some f
  end.

(** [float(z)] for an [int]: rounded to nearest, ties to even. *)
Definition float_of_int (z : Z) : option float :=
  finite_or_raise (binary_normalize prec emax z 0 false).

(** [a / b] for two [int]s: the correctly rounded quotient;
    [ZeroDivisionError] and [OverflowError] are [None]. *)
Definition int_truediv (a b : Z) : option float :=
  if b =? 0 then None
  else
    let sgn := xorb (a <? 0) (b <? 0) in
    if a =? 0 then Some (S754_zero sgn)
    else
      let '(q, e, l) := SFdiv_core_binary prec emax (Z.abs a) 0 (Z.abs b) 0 in
      finite_or_raise (binary_round_aux prec emax sgn q e l).

(** [int(f)]: truncation toward zero; [nan] and the infinities raise. *)
Definition int_of_float (f : float) : option Z :=
  match f with
  | S754_zero _ => Some 0
  | S754_infinity _ | S754_nan => None
  | S754_finite s m e =>
      let a := if 0 <=? e then Zpos m * 2 ^ e else Zpos m / 2 ^ (- e) in
      Some (if s then - a else a)
  end.

(** [n / d] rounded to the nearest integer, ties to even, for [0 < d]. *)
Definition div_half_even (n d : Z) : Z :=
  let q := n / d in
  let r := n mod d in
  match 2 * r ?= d with
  | Lt => q
  | Gt => q + 1
  | Eq => if Z.even q then q else q + 1
  end.

(** The digits of [n], padded on the left with zeros to [w] digits. *)
Definition zero_pad (w : nat) (n : Z) : pystr :=
  let ds := nat_digits n in
  replicate (w - length ds) 48 ++ ds.

(** [f"{x:.{nd}f}"] for [1 <= nd]: the exact binary value rounded to [nd]
    decimals, ties to even. *)
Definition format_fixed (nd : nat) (x : float) : pystr :=
  let sign (s : bool) : pystr := if s then [45] else [] in
  let scale := 10 ^ Z.of_nat nd in
  match x with
  | S754_nan => u "nan"
  | S754_infinity s => sign s ++ u "inf"
  | S754_zero s => sign s ++ u "0." ++ zero_pad nd 0
  | S754_finite s m e =>
      let n := Zpos m * scale in
      let r := if 0 <=? e then n * 2 ^ e else div_half_even n (2 ^ (- e)) in
      sign s ++ nat_digits (r / scale) ++ [46] ++ zero_pad nd (r mod scale)
  end.

End PyFloat.
Export PyFloat.

(** ** Python values and built-in conversions *)

Module Py.

#[local] Set Warnings "-register-all".

(** The values a decoded JSON document or a rendered row can hold. *)
Inductive pyval :=
| PNone
| PBool (b : bool)
| PInt (z : Z)
| PFloat (f : float)
| PStr (s : pystr)
| PList (l : list pyval)
| PDict (kvs : list (string * pyval)).

(** A JSON object ([Dict[str, Any]]); keys are the UTF-8 bytes of the
    Python key. *)
Abbreviation pydict := (gmap string pyval).

(** What the interpreter and its Unicode database supply: the decimal
    value of the non-ASCII code points of category [Nd], the non-ASCII
    code points of category [So] (no ASCII code point has it), the limit
    on the digits of an [int] converted from or to [str] ([None]: no
    limit; the interpreter never enforces one below 640 digits), the
    parser behind [float(str)], and [str()] of floats and containers.
    A decimal digit has a value from 0 to 9 and is not white space. *)
Class PyEnv := {
  nd_value : Z -> option Z;
  cat_So : Z -> bool;
  max_str_digits : option nat;
  float_of_str : pystr -> option float;
  str_other : pyval -> pystr;
  nd_value_digit : forall c v, nd_value c = Some v -> 0 <= v <= 9;
  nd_value_not_space : forall c v, nd_value c = Some v -> is_space c = false;
}.

(** [bool(v)] *)
Definition truthy (v : pyval) : bool :=
  match v with
  | PNone => false
  | PBool b => b
  | PInt z => negb (z =? 0)
  | PFloat (S754_zero _) => false
  | PFloat _ => true
  | PStr [] => false
  | PStr _ => true
  | PList [] => false
  | PList _ => true
  | PDict [] => false
  | PDict _ => true
  end.

(** [v or d] *)
Definition py_or (v d : pyval) : pyval := if truthy v then v else d.

(** [d.get(k)] and [d.get(k, default)] *)
Definition dict_get (d : pydict) (k : string) : pyval := default PNone (d !! k).
Definition dict_get_or (d : pydict) (k : string) (dflt : pyval) : pyval :=
  default dflt (d !! k).

Section Builtins.
Context `{PyEnv}.

(** The value of a decimal digit: what [\d] matches in a [str] pattern
    and what [int()] accepts. *)
Definition decimal_value (c : Z) : option Z :=
  if (48 <=? c) && (c <=? 57) then Some (c - 48)
  else if c <? 128 then None
  else nd_value c.

Definition is_decimal (c : Z) : bool := bool_decide (is_Some (decimal_value c)).

Definition within_digit_limit (n : nat) : bool :=
  match max_str_digits with
  | Some lim => bool_decide (n <= Nat.max lim 640)%nat
  | None => true
  end.

(** The white space [int()] skips on both sides of the literal. *)
Definition is_int_space (c : Z) : bool :=
  if c <? 128 then ((9 <=? c) && (c <=? 13)) || (c =? 32) else is_space c.

(** Digits separated by single underscores; the value read so far and
    the number of digits. *)
Fixpoint int_digits (s : pystr) (after_digit : bool) (acc : Z) (n : nat)
  : option (Z * nat) :=
  match s with
  | [] => if after_digit then Some (acc, n) else None
  | c :: rest =>
      if c =? 95 then
        if after_digit then int_digits rest false acc n else None
      else
        match decimal_value c with
        | Some d => int_digits rest true (10 * acc + d) (S n)
        | None => None
        end
  end.

(** [int(s)] for a [str], base 10; [ValueError] is [None]. *)
Definition int_of_str (s : pystr) : option Z :=
  let body := strip_with is_int_space s in
  let '(neg, ds) :=
    match body with
    | c :: r =>
        if c =? 45 then (true, r)
        else if c =? 43 then (false, r)
        else (false, body)
    | [] => (false, body)
    end in
  match int_digits ds false 0 0 with
  | Some (v, n) =>
      if within_digit_limit n then Some (if neg then - v else v) else None
  | None => None
  end.

(** [int(v)] *)
Definition py_int (v : pyval) : option Z :=
  match v with
  | PNone => None
  | PBool b => Some (if b then 1 else 0)
  | PInt z => Some z
  | PFloat f => int_of_float f
  | PStr s => int_of_str s
  | PList _ | PDict _ => None
  end.

(** [float(v)] *)
Definition py_float (v : pyval) : option float :=
  match v with
  | PNone => None
  | PBool b => Some (if b then fone else fzero)
  | PInt z => float_of_int z
  | PFloat f => Some f
  | PStr s => float_of_str s
  | PList _ | PDict _ => None
  end.

(** [str(z)] for an [int]; [ValueError] past the digit limit. *)
Definition str_of_int (z : Z) : option pystr :=
  let ds := nat_digits (Z.abs z) in
  if within_digit_limit (length ds)
  then Some (if z <? 0 then 45 :: ds else ds)
  else None.

(** [str(v)] *)
Definition py_str (v : pyval) : option pystr :=
  match v with
  | PNone => Some (u "None")
  | PBool b => Some (if b then u "True" else u "False")
  | PInt z => str_of_int z
  | PStr s => Some s
  | PFloat _ | PList _ | PDict _ => Some (str_other v)
  end.

(** [f"{z:02d}"]: the decimal digits of [z], padded with zeros to a width
    of two characters, a minus sign counting as one of them. *)
Definition format_02d (z : Z) : option pystr :=
  if within_digit_limit (length (nat_digits (Z.abs z)))
  then Some (if z <? 0
             then 45 :: zero_pad 1 (Z.abs z)
             else zero_pad 2 z)
  else None.

End Builtins.

(** An interpreter whose decimal digits are the ASCII ones and which has
    the default limit of 4300 digits, for running the definitions. *)
Definition ascii_env : PyEnv := {|
  nd_value := fun _ => None;
  cat_So := fun _ => false;
  max_str_digits := Some 4300%nat;
  float_of_str := fun s => None;
  str_other := fun _ => u "?";
  nd_value_digit := fun c v (E : None = Some v) => ltac:(discriminate E);
  nd_value_not_space := fun c v (E : None = Some v) => ltac:(discriminate E);
|}.

End Py.
Export Py.

(** ** toolkit.py *)

Module Toolkit.

Section Toolkit.
Context `{PyEnv}.

(** The code points [0xFE0F] (variation selector 16) and [0x200D]
    (zero width joiner). *)
Definition is_attaching (o : Z) : bool := (o =? 65039) || (o =? 8205).

Definition _is_emoji_char (o : Z) : bool :=
  if is_attaching o then true
  else if (127744 <=? o) && (o <=? 129791) then true
  else if (9728 <=? o) && (o <=? 10175) then true
  else if (127462 <=? o) && (o <=? 127487) then true
  else (128 <=? o) && cat_So o.

(** The inner generator [flush]: yields the buffer when it is not
    empty. *)
Definition flush (buf : pystr) (buf_is_emoji : bool) : list (pystr * bool) :=
  match buf with
  | [] => []
  | _ => [(buf, buf_is_emoji)]
  end.

(** The [while] loop of [_split_runs_by_emoji] over the characters
    still to read, with the buffer and its class as state; the result
    is the sequence of yielded runs. *)
Fixpoint split_runs_loop (s : pystr) (buf : pystr) (buf_is_emoji : bool)
  : list (pystr * bool) :=
  match s with
  | [] => flush buf buf_is_emoji
  | ch :: rest =>
      let is_e := _is_emoji_char ch in
      if is_attaching ch then
        match buf with
        | [] => split_runs_loop rest [ch] true
        | _ => split_runs_loop rest (buf ++ [ch]) buf_is_emoji
        end
      else
        match buf with
        | [] => split_runs_loop rest [ch] is_e
        | _ =>
            if Bool.eqb is_e buf_is_emoji
            then split_runs_loop rest (buf ++ [ch]) buf_is_emoji
            else flush buf buf_is_emoji ++ split_runs_loop rest [ch] is_e
        end
  end.

Definition _split_runs_by_emoji (s : pystr) : list (pystr * bool) :=
  match s with
  | [] => []
  | _ => split_runs_loop s [] false
  end.

(** The drawing backend: each way of measuring a run with the emoji
    font ([true]) or the text font ([false]) gives the width already
    truncated by [int()], or raises ([None]). *)
Record Backend := {
  draw_textlength : bool -> pystr -> option Z;
  font_getlength : bool -> pystr -> option Z;
  draw_textbbox_width : bool -> pystr -> option Z;
}.

Definition _text_length (b : Backend) (font : bool) (text : pystr) : Z :=
  match draw_textlength b font text with
  | Some w => w
  | None =>
      match font_getlength b font text with
      | Some w => w
      | None =>
          match draw_textbbox_width b font text with
          | Some w => w
          | None => Z.of_nat (length text) * 10
          end
      end
  end.

(** [PicGenerator._measure_with_fallback] *)
Definition _measure_with_fallback (b : Backend) (text : pystr) : Z :=
  fold_left (fun total run => total + _text_length b (snd run) (fst run))
            (_split_runs_by_emoji text) 0.

(** A backend on which every exact measurement is unavailable. *)
Definition no_metrics : Backend := {|
  draw_textlength := fun _ _ => None;
  font_getlength := fun _ _ => None;
  draw_textbbox_width := fun _ _ => None;
|}.

(** ** The drawer *)

Definition rgb : Type := (Z * Z * Z)%type.

Inductive Color := BLACK | WHITE | GRAY | LIGHTGRAY | DEEPSKYBLUE.

Definition Color_value (c : Color) : rgb :=
  match c with
  | BLACK => (0, 0, 0)
  | WHITE => (255, 255, 255)
  | GRAY => (169, 169, 169)
  | LIGHTGRAY => (244, 244, 244)
  | DEEPSKYBLUE => (0, 191, 255)
  end.

(** A colour argument: a member of [Color] or a tuple. *)
Inductive color_arg :=
| AColor (c : Color)
| ATuple (t : rgb).

Definition _to_rgb (color : color_arg) : rgb :=
  match color with
  | AColor c => Color_value c
  | ATuple t => t
  end.

(** The [texts] argument of the text methods: a [str] or a list. *)
Inductive texts_arg :=
| AText (s : pystr)
| ATexts (l : list pystr).

(** Their [colors] argument: [None], one colour or a list. *)
Inductive colors_arg :=
| NoColors
| OneColor (c : color_arg)
| ManyColors (l : list color_arg).

(** The calls made on the [ImageDraw] of the canvas: [text] with its
    position, fill and font (emoji font or text font), and
    [rounded_rectangle] with its two corners, radius and fill. *)
Inductive draw_op :=
| DrawText (at_xy : Z * Z) (text : pystr) (fill : rgb) (emoji_font : bool)
| DrawRoundedRectangle (x0 y0 x1 y1 radius : Z) (fill : rgb).

(** The state of a [PicGenerator]: its attributes, the height of the
    canvas image, which cropping changes, the height of the saved
    bottom image, and the calls drawn so far. *)
Record PicGenerator := {
  pic_width : Z;
  pic_height : Z;
  pic_canvas_height : Z;
  pic_xy : Z * Z;
  pic_row_space : Z;
  pic_bottom_pic : option Z;
  pic_auto_size_margin : Z;
  pic_drawn : list draw_op;
}.

(** The size of the text font. *)
Definition text_font_size : Z := 30.

(** [PicGenerator(width, height)] *)
Definition new_pic (width height : Z) : PicGenerator := {|
  pic_width := width;
  pic_height := height;
  pic_canvas_height := height;
  pic_xy := (0, 0);
  pic_row_space := 25;
  pic_bottom_pic := None;
  pic_auto_size_margin := 10;
  pic_drawn := [];
|}.

Definition with_xy (p : PicGenerator) (xy : Z * Z) : PicGenerator := {|
  pic_width := pic_width p;
  pic_height := pic_height p;
  pic_canvas_height := pic_canvas_height p;
  pic_xy := xy;
  pic_row_space := pic_row_space p;
  pic_bottom_pic := pic_bottom_pic p;
  pic_auto_size_margin := pic_auto_size_margin p;
  pic_drawn := pic_drawn p;
|}.

Definition with_drawn (p : PicGenerator) (op : draw_op) : PicGenerator := {|
  pic_width := pic_width p;
  pic_height := pic_height p;
  pic_canvas_height := pic_canvas_height p;
  pic_xy := pic_xy p;
  pic_row_space := pic_row_space p;
  pic_bottom_pic := pic_bottom_pic p;
  pic_auto_size_margin := pic_auto_size_margin p;
  pic_drawn := pic_drawn p ++ [op];
|}.

Definition set_pos (p : PicGenerator) (x y : option Z) : PicGenerator :=
  with_xy p (default (fst (pic_xy p)) x, default (snd (pic_xy p)) y).

Definition move_pos (p : PicGenerator) (x y : Z) : PicGenerator :=
  with_xy p (fst (pic_xy p) + x, snd (pic_xy p) + y).

(** [crop_and_paste_bottom]: the canvas is cropped, or extended, to the
    height of the cursor, plus that of the saved bottom image when
    there is one. Pillow rejects a box whose lower edge lies above its
    upper edge, or whose right edge lies left of its left edge. *)
Definition crop_and_paste_bottom (p : PicGenerator) : option PicGenerator :=
  let lower := snd (pic_xy p) + default 0 (pic_bottom_pic p) in
  if (lower <? 0) || (pic_width p <? 0) then None
  else Some {|
    pic_width := pic_width p;
    pic_height := pic_height p;
    pic_canvas_height := lower;
    pic_xy := pic_xy p;
    pic_row_space := pic_row_space p;
    pic_bottom_pic := None;
    pic_auto_size_margin := pic_auto_size_margin p;
    pic_drawn := pic_drawn p;
  |}.

(** [_draw_with_fallback]: the state after drawing and the width used. *)
Definition _draw_with_fallback (b : Backend) (p : PicGenerator) (x y : Z) (text : pystr)
           (fill : rgb) : PicGenerator * Z :=
  fold_left
    (fun '(p, used_width) run =>
       (with_drawn p (DrawText (x + used_width, y) (fst run) fill (snd run)),
        used_width + _text_length b (snd run) (fst run)))
    (_split_runs_by_emoji text) (p, 0).

Definition draw_rounded_rectangle (p : PicGenerator) (x y width height radius : Z)
           (color : color_arg) : PicGenerator :=
  with_drawn p (DrawRoundedRectangle x y (x + width) (y + height) radius (_to_rgb color)).

(** The two loops of [draw_text] from index [i] on: at the cursor, which
    each text moves right, and at a given position. [rgb_list[i]]
    raises when the index is out of range. *)
Fixpoint draw_texts_at_cursor (b : Backend) (rgb_list : list rgb) (i : nat)
         (texts_list : list pystr) (p : PicGenerator) : option PicGenerator :=
  match texts_list with
  | [] => Some p
  | t :: rest =>
      fill ← rgb_list !! i;
      let '(p, w) := _draw_with_fallback b p (fst (pic_xy p)) (snd (pic_xy p)) t fill in
      draw_texts_at_cursor b rgb_list (S i) rest (move_pos p w 0)
  end.

Fixpoint draw_texts_at (b : Backend) (rgb_list : list rgb) (i : nat)
         (texts_list : list pystr) (x y : Z) (p : PicGenerator) : option PicGenerator :=
  match texts_list with
  | [] => Some p
  | t :: rest =>
      fill ← rgb_list !! i;
      let '(p, w) := _draw_with_fallback b p x y t fill in
      draw_texts_at b rgb_list (S i) rest (x + w) y p
  end.

Definition draw_text (b : Backend) (p : PicGenerator) (texts : texts_arg)
           (colors : colors_arg) (xy : option (Z * Z)) : option PicGenerator :=
  let texts_list :=
    match texts with
    | AText s => [s]
    | ATexts l => l
    end in
  let colors_list :=
    match colors with
    | NoColors => []
    | OneColor c => [c]
    | ManyColors l => l
    end in
  let colors_list :=
    colors_list ++ replicate (length texts_list - length colors_list) (AColor BLACK) in
  let rgb_list := map _to_rgb (take (length texts_list) colors_list) in
  match xy with
  | None =>
      let base_x := fst (pic_xy p) in
      p ← draw_texts_at_cursor b rgb_list 0 texts_list p;
      Some (set_pos p (Some base_x) (Some (snd (pic_xy p) + text_font_size + pic_row_space p)))
  | Some (x, y) => draw_texts_at b rgb_list 0 texts_list x y p
  end.

Definition draw_text_right (b : Backend) (p : PicGenerator) (margin_right : Z)
           (texts : texts_arg) (colors : colors_arg) (xy_limit : Z * Z)
  : option PicGenerator :=
  let text_joined :=
    match texts with
    | AText s => s
    | ATexts l => concat l
    end in
  let text_len := _measure_with_fallback b text_joined in
  let x := pic_width p - margin_right - text_len in
  let limit_y := snd xy_limit + pic_auto_size_margin p in
  let y := Z.max (snd (pic_xy p)) limit_y in
  p ← draw_text b p texts colors (Some (x, y));
  Some (set_pos p (Some (fst (pic_xy p))) (Some (y + text_font_size + pic_row_space p))).

(** [for w, txt in zip(widths, texts): pic.set_pos(cur_x, y).draw_text(
    txt, [color]); cur_x += w], the loop with which the renderers draw
    the cells of a table line; the state after it and the final
    [cur_x]. *)
Fixpoint draw_cells (b : Backend) (cells : list (Z * pystr)) (cur_x y : Z) (color : Color)
         (pic : PicGenerator) : option (PicGenerator * Z) :=
  match cells with
  | [] => Some (pic, cur_x)
  | (w, txt) :: rest =>
      pic ← draw_text b (set_pos pic (Some cur_x) (Some y)) (AText txt)
                      (ManyColors [AColor color]) None;
      draw_cells b rest (cur_x + w) y color pic
  end.

End Toolkit.

End Toolkit.
Export Toolkit.

(** ** commands/douchong.py *)

Module Douchong.

Section Douchong.
Context `{PyEnv}.

(** [_MONTH_RE_1.fullmatch(text)]: the groups of [^(\d{4})(\d{2})$]. *)
Definition month_match_1 (text : pystr) : option (pystr * pystr) :=
  match text with
  | [y1; y2; y3; y4; m1; m2] =>
      if forallb is_decimal [y1; y2; y3; y4; m1; m2]
      then Some ([y1; y2; y3; y4], [m1; m2]) else None
  | _ => None
  end.

(** [_MONTH_RE_2.fullmatch(text)]: the groups of [^(\d{4})-(\d{2})$]. *)
Definition month_match_2 (text : pystr) : option (pystr * pystr) :=
  match text with
  | [y1; y2; y3; y4; sep; m1; m2] =>
      if (sep =? 45) && forallb is_decimal [y1; y2; y3; y4; m1; m2]
      then Some ([y1; y2; y3; y4], [m1; m2]) else None
  | _ => None
  end.

Definition normalize_month_arg (raw : pystr) : option pystr :=
  match raw with
  | [] => None
  | _ =>
      let text := strip raw in
      let groups :=
        match month_match_1 text with
        | Some g => Some g
        | None => month_match_2 text
        end in
      match groups with
      | None => None
      | Some (yyyy, mm) =>
          match int_of_str mm with
          | Some mm_i =>
              if (1 <=? mm_i) && (mm_i <=? 12) then Some (yyyy ++ mm) else None
          | None => None
          end
      end
  end.

(** The [try] block of the duration formatters on the [str] form of
    the argument, with [nd] decimals: [Some] when it returns, [None]
    when it falls through or raises. *)
Definition duration_hours (nd : nat) (s : pystr) : option pystr :=
  match split_on 58 s with
  | [ph; pm; ps] =>
      h ← int_of_str ph;
      m ← int_of_str pm;
      sec ← int_of_str ps;
      mq ← int_truediv m 60;
      hf ← float_of_int h;
      sq ← int_truediv sec 3600;
      Some (format_fixed nd (fadd (fadd hf mq) sq) ++ u "小时")
  | _ => None
  end.

(** [format_duration(hms)]; [None] when [str(hms)] itself raises. *)
Definition format_duration (hms : pyval) : option pystr :=
  match py_str hms ≫= duration_hours 1 with
  | Some r => Some r
  | None => py_str hms
  end.

(** [format_fans(attention)] *)
Definition format_fans (attention : Z) : option pystr :=
  let attempt :=
    if 10000 <=? attention
    then q ← int_truediv attention 10000; Some (format_fixed 1 q ++ u "万")
    else str_of_int attention in
  match attempt with
  | Some r => Some r
  | None => str_of_int attention
  end.

Definition format_count (v : pyval) : pystr :=
  match v with
  | PNone => u "-"
  | _ =>
      match py_int v ≫= str_of_int with
      | Some r => r
      | None => u "-"
      end
  end.

Definition _to_float (v : pyval) (dflt : float) : float := default dflt (py_float v).
Definition _to_int (v : pyval) (dflt : Z) : Z := default dflt (py_int v).

Definition record_total (d : pydict) : float :=
  let gift := _to_float (dict_get_or d "gift" (PInt 0)) fzero in
  let sc := _to_float (dict_get_or d "super_chat" (PInt 0)) fzero in
  let guard := _to_float (dict_get_or d "guard" (PInt 0)) fzero in
  fadd (fadd gift sc) guard.

(** The body of the first loop of [render_table_image]: the record
    after its three assignments; [None] when a formatter raises. *)
Definition preprocess_record (d : pydict) : option pydict :=
  let d1 := <["total" := PFloat (record_total d)]> d in
  dur ← format_duration (dict_get_or d1 "live_duration" (PStr (u "00:00:00")));
  let d2 := <["duration_fmt" := PStr dur]> d1 in
  fans ← format_fans (_to_int (dict_get_or d2 "attention" (PInt 0)) 0);
  Some (<["fans_fmt" := PStr fans]> d2).

Definition preprocess (data_list : list pydict) : option (list pydict) :=
  mapM preprocess_record data_list.

(** The key [data_list.sort] orders the records by, descending. *)
Definition sort_key (x : pydict) : float :=
  _to_float (dict_get_or x "total" (PInt 0)) fzero.

Definition money (d : pydict) (k : string) : pystr :=
  format_fixed 1 (_to_float (dict_get_or d k (PInt 0)) fzero).

(** The text cells of one table row, in column order. *)
Definition fields (d : pydict) : option (list pystr) :=
  let live := _to_int (dict_get_or d "status" (PInt 0)) 0 =? 1 in
  name ← py_str (dict_get_or d "anchor_name" (PStr []));
  fans ← py_str (dict_get_or d "fans_fmt" (PStr (u "0")));
  dur ← py_str (dict_get_or d "duration_fmt" (PStr []));
  days ← py_str (dict_get_or d "effective_days" (PStr []));
  Some [ name; fans;
         (if live then u "直播中" else u "未开播");
         dur; days;
         format_count (dict_get d "guard_1");
         format_count (dict_get d "guard_2");
         format_count (dict_get d "guard_3");
         format_count (dict_get d "fans_count");
         format_count (dict_get d "blind_box_count");
         money d "blind_box_profit";
         money d "gift";
         money d "super_chat";
         money d "guard";
         money d "total" ].

End Douchong.

End Douchong.

(** ** commands/live_list.py *)

Module LiveList.

Section LiveList.
Context `{PyEnv}.

Definition _safe_str (v : pyval) : option pystr :=
  match v with
  | PNone => Some []
  | _ => py_str v
  end.

(** The [for ch in text] loop: [acc] grows by one character at a time
    and the loop stops, dropping the character just added, as soon as
    the accumulated text and the suffix no longer fit. *)
Fixpoint take_fitting (measure : pystr -> Z) (suf_w max_px : Z)
         (acc text : pystr) : pystr :=
  match text with
  | [] => acc
  | ch :: rest =>
      if max_px <? measure (acc ++ [ch]) + suf_w then acc
      else take_fitting measure suf_w max_px (acc ++ [ch]) rest
  end.

(** [_limit_text_by_px(pic, text, max_px)], where [measure] is the
    attribute [_measure_with_fallback] of [pic], [None] when [pic] has
    no such callable. *)
Definition _limit_text_by_px (measure : option (pystr -> Z)) (text : pyval)
           (max_px : Z) : option pystr :=
  text ← _safe_str text;
  match text with
  | [] => Some []
  | _ =>
      match measure with
      | None => Some text
      | Some measure =>
          if measure text <=? max_px then Some text
          else
            let suffix := u "..." in
            let suf_w := measure suffix in
            Some (take_fitting measure suf_w max_px [] text ++ suffix)
      end
  end.

(** [_calc_live_duration_hms]; [delta_seconds] is
    [int(delta.total_seconds())] for the time since [live_time_str], or
    [None] when [strptime] raises. Every exception gives the fallback. *)
Definition _calc_live_duration_hms (delta_seconds : option Z) : pystr :=
  default (u "00:00:00")
    (d ← delta_seconds;
     let total_seconds := Z.max 0 d in
     let h := total_seconds / 3600 in
     let m := (total_seconds mod 3600) / 60 in
     let s := total_seconds mod 60 in
     hh ← format_02d h;
     mm ← format_02d m;
     ss ← format_02d s;
     Some (hh ++ [58] ++ mm ++ [58] ++ ss)).

Definition live_col_widths : list Z := [350; 300; 200; 600].

Definition live_headers : list pystr :=
  [u "开播时间"; u "主播名称"; u "已开播时长"; u "直播标题"].

(** The loop of [_render_live_list_image] over the rooms, from the room
    at position [idx] on; [elapsed] gives, for the position of a room
    and its start time, [int(delta.total_seconds())] at the moment its
    row is drawn, or [None] when [strptime] raises on the start
    time. *)
Fixpoint draw_live_rows (b : Backend) (elapsed : nat -> pystr -> option Z)
         (live_list : list pydict) (idx : nat) (cur_y : Z) (pic : PicGenerator) :
  option PicGenerator :=
  match live_list with
  | [] => Some pic
  | d :: rest =>
      let row_height := 60 in
      let origin_x := 20 in
      let table_width := foldr Z.add 0 live_col_widths + 40 in
      let bg := if (idx mod 2 =? 0)%nat then LIGHTGRAY else WHITE in
      let pic := draw_rounded_rectangle pic origin_x cur_y (table_width - 40) row_height 0
                                        (AColor bg) in
      live_time_val ← _safe_str (dict_get_or d "live_time" (PStr (u "0000-00-00 00:00:00")));
      anchor_name ← _safe_str (dict_get_or d "anchor_name" (PStr []));
      let duration_val := _calc_live_duration_hms (elapsed idx live_time_val) in
      live_title ← _safe_str (dict_get_or d "title" (PStr []));
      live_title ← _limit_text_by_px (Some (_measure_with_fallback b)) (PStr live_title)
                                     (600 - 20);
      let cur_x := origin_x + 10 in
      pic ← draw_text b (set_pos pic (Some cur_x) (Some (cur_y + 18))) (AText live_time_val)
                      (ManyColors [AColor BLACK]) None;
      let cur_x := cur_x + 350 in
      pic ← draw_text b (set_pos pic (Some cur_x) (Some (cur_y + 18))) (AText anchor_name)
                      (ManyColors [AColor BLACK]) None;
      let cur_x := cur_x + 300 in
      pic ← draw_text b (set_pos pic (Some cur_x) (Some (cur_y + 18))) (AText duration_val)
                      (ManyColors [AColor BLACK]) None;
      let cur_x := cur_x + 200 in
      pic ← draw_text b (set_pos pic (Some cur_x) (Some (cur_y + 18))) (AText live_title)
                      (ManyColors [AColor BLACK]) None;
      draw_live_rows b elapsed rest (S idx) (cur_y + row_height) pic
  end.

(** [_render_live_list_image], up to the cropped picture; [now_str] is
    the formatted time of the call. *)
Definition _render_live_list_image (b : Backend) (elapsed : nat -> pystr -> option Z)
           (title now_str : pystr) (live_list : list pydict) : option PicGenerator :=
  let row_height := 60 in
  let table_width := foldr Z.add 0 live_col_widths + 40 in
  let table_height := row_height * (Z.of_nat (length live_list) + 1) + 40 in
  let canvas_width := table_width in
  let canvas_height := table_height + 140 in
  let pic := new_pic canvas_width canvas_height in
  let pic := draw_rounded_rectangle (set_pos pic (Some 0) (Some 0))
                                    0 0 canvas_width canvas_height 35 (AColor WHITE) in
  let LEFT_PADDING := 20 in
  let TITLE_Y := 30 in
  let TIME_Y := 90 in
  let TIP_X_OFFSET := 300 in
  pic ← draw_text b (set_pos pic (Some LEFT_PADDING) (Some TITLE_Y)) (AText title)
                  (ManyColors [AColor BLACK]) None;
  pic ← draw_text b (set_pos pic (Some LEFT_PADDING) (Some TIME_Y)) (AText now_str)
                  (ManyColors [AColor GRAY]) None;
  pic ← draw_text b (set_pos pic (Some (LEFT_PADDING + TIP_X_OFFSET)) (Some TIME_Y))
                  (AText (u "仅列出当前正在直播的房间")) (ManyColors [AColor GRAY]) None;
  let origin_x := 20 in
  let origin_y := 140 in
  let cur_y := origin_y in
  let pic := draw_rounded_rectangle pic origin_x cur_y (table_width - 40) row_height 12
                                    (AColor DEEPSKYBLUE) in
  '(pic, _) ← draw_cells b (zip live_col_widths live_headers) (origin_x + 10) (cur_y + 18)
                          WHITE pic;
  let cur_y := cur_y + row_height in
  pic ← draw_live_rows b elapsed live_list 0 cur_y pic;
  let pic := set_pos pic (Some (canvas_width - 220)) (Some (canvas_height - 40)) in
  pic ← draw_text_right b pic 0 (AText (u "Designed by QianQiuZy")) (OneColor (AColor GRAY))
                        (0, 0);
  crop_and_paste_bottom pic.

End LiveList.

End LiveList.

(** ** commands/query.py *)

Module Query.

Section Query.
Context `{PyEnv}.

(** [re.fullmatch(r"(\d{4})(\d{2})", text)] *)
Definition month_match_1 (text : pystr) : option (pystr * pystr) :=
  match text with
  | [y1; y2; y3; y4; m1; m2] =>
      if forallb is_decimal [y1; y2; y3; y4; m1; m2]
      then Some ([y1; y2; y3; y4], [m1; m2]) else None
  | _ => None
  end.

(** [re.fullmatch(r"(\d{4})-(\d{2})", text)] *)
Definition month_match_2 (text : pystr) : option (pystr * pystr) :=
  match text with
  | [y1; y2; y3; y4; sep; m1; m2] =>
      if (sep =? 45) && forallb is_decimal [y1; y2; y3; y4; m1; m2]
      then Some ([y1; y2; y3; y4], [m1; m2]) else None
  | _ => None
  end.

Definition normalize_month_arg (raw : pystr) : option pystr :=
  match raw with
  | [] => None
  | _ =>
      let text := strip raw in
      let groups :=
        match month_match_1 text with
        | Some g => Some g
        | None => month_match_2 text
        end in
      match groups with
      | None => None
      | Some (yyyy, mm) =>
          match int_of_str mm with
          | Some mm_i =>
              if (1 <=? mm_i) && (mm_i <=? 12) then Some (yyyy ++ mm) else None
          | None => None
          end
      end
  end.

(** [_format_duration_hours(live_duration)] for a [str] argument. *)
Definition _format_duration_hours (live_duration : pystr) : pystr :=
  match Douchong.duration_hours 2 live_duration with
  | Some r => r
  | None =>
      match live_duration with
      | [] => u "00:00:00"
      | _ => live_duration
      end
  end.

(** A page: the global index of its first row and its rows. *)
Definition page : Type := nat * list pydict.

(** [int(r.get("row_height") or 0)] *)
Definition row_height_of (r : pydict) : option Z :=
  py_int (py_or (dict_get r "row_height") (PInt 0)).

(** The local variables of [_paginate_rows_by_height]. *)
Record pager := {
  pages : list page;
  cur : list pydict;
  cur_h : Z;
  start_idx : nat;
  global_idx : nat;
}.

Definition pager_init : pager :=
  {| pages := []; cur := []; cur_h := 0; start_idx := 0; global_idx := 0 |}.

(** The page break taken before a row that does not fit. *)
Definition close_page (st : pager) : pager :=
  {| pages := pages st ++ [(start_idx st, cur st)];
     cur := [];
     cur_h := 0;
     start_idx := global_idx st;
     global_idx := global_idx st |}.

(** One iteration of [for r in rows]. *)
Definition paginate_step (max_data_h : Z) (st : pager) (r : pydict)
  : option pager :=
  rh ← row_height_of r;
  let st1 :=
    match cur st with
    | [] => st
    | _ => if max_data_h <? cur_h st + rh then close_page st else st
    end in
  Some {| pages := pages st1;
          cur := cur st1 ++ [r];
          cur_h := cur_h st1 + rh;
          start_idx := start_idx st1;
          global_idx := S (global_idx st1) |}.

Fixpoint paginate_loop (max_data_h : Z) (st : pager) (rows : list pydict)
  : option pager :=
  match rows with
  | [] => Some st
  | r :: rest =>
      st' ← paginate_step max_data_h st r;
      paginate_loop max_data_h st' rest
  end.

(** The per-page budget for data rows, never below one pixel. *)
Definition data_budget (max_canvas_h header_h table_header_h table_padding_h : Z) : Z :=
  let max_data_h := max_canvas_h - header_h - table_header_h - table_padding_h in
  if max_data_h <=? 0 then 1 else max_data_h.

(** [_paginate_rows_by_height]; [None] when [int()] raises on a row. *)
Definition _paginate_rows_by_height (rows : list pydict)
           (max_canvas_h header_h table_header_h table_padding_h : Z)
  : option (list page) :=
  let max_data_h := data_budget max_canvas_h header_h table_header_h table_padding_h in
  st ← paginate_loop max_data_h pager_init rows;
  let pages :=
    match cur st with
    | [] => pages st
    | _ => pages st ++ [(start_idx st, cur st)]
    end in
  Some match pages with
       | [] => [(0%nat, [])]
       | _ => pages
       end.

(** The background [render_sc_images] gives the row at position [idx]
    of a page that starts at [global_start_idx]: [true] for light
    gray, [false] for white. *)
Definition stripe (global_start_idx idx : nat) : bool :=
  ((global_start_idx + idx) mod 2 =? 0)%nat.

(** The three amounts the handler of the revenue card reads from the
    matched record and passes on. *)
Definition liushui_args (m : pydict) : pyval * pyval * pyval :=
  (dict_get_or m "gift" (PInt 0),
   dict_get_or m "guard" (PInt 0),
   dict_get_or m "super_chat" (PInt 0)).

(** The first four lines of [render_liushui_card]: the amounts as
    floats and their total; [None] when [float()] raises. *)
Definition liushui_amounts (gift_value guard_value sc_value : pyval)
  : option (float * float * float * float) :=
  gift ← py_float (py_or gift_value (PInt 0));
  guard ← py_float (py_or guard_value (PInt 0));
  sc ← py_float (py_or sc_value (PInt 0));
  Some (gift, guard, sc, fadd (fadd gift guard) sc).

(** [_sec_to_hms(total_seconds)]; [None] when formatting the hours
    raises. *)
Definition _sec_to_hms (total_seconds : Z) : option pystr :=
  let total_seconds := if total_seconds <? 0 then 0 else total_seconds in
  let h := total_seconds / 3600 in
  let m := (total_seconds mod 3600) / 60 in
  let s := total_seconds mod 60 in
  hh ← format_02d h;
  mm ← format_02d m;
  ss ← format_02d s;
  Some (hh ++ [58] ++ mm ++ [58] ++ ss).

(** [s[a:b]] *)
Definition py_slice (s : pystr) (a b : Z) : pystr :=
  let n := Z.of_nat (length s) in
  let clamp (k : Z) := if k <? 0 then Z.max (k + n) 0 else Z.min k n in
  take (Z.to_nat (clamp b - clamp a)) (drop (Z.to_nat (clamp a)) s).

Definition SC_MAX_PAGE_HEIGHT : Z := 16000.
Definition BASE_ROW_H : Z := 60.
Definition EXTRA_PER_LINE : Z := 28.
Definition MSG_MAX_CHARS_PER_LINE : Z := 20.

(** [s.replace(a, b)] for one-character [a] and [b]. *)
Definition replace_char (a b : Z) (s : pystr) : pystr :=
  map (fun c => if c =? a then b else c) s.

(** [re.sub(r"\s+", " ", s)]: every maximal run of white space becomes one
    space; [in_ws] tells that the character before was white space. *)
Fixpoint collapse_ws (in_ws : bool) (s : pystr) : pystr :=
  match s with
  | [] => []
  | c :: rest =>
      if is_space c
      then if in_ws then collapse_ws true rest else 32 :: collapse_ws true rest
      else c :: collapse_ws false rest
  end.

(** [clean_sc_message(raw)] for a [str]. *)
Definition clean_sc_message (raw : pystr) : pystr :=
  match raw with
  | [] => []
  | _ => strip (collapse_ws false (replace_char 13 32 (replace_char 10 32 raw)))
  end.

(** The [while] loop of [wrap_sc_message], run for at most [fuel]
    iterations; [None] when they do not suffice. *)
Fixpoint wrap_loop (fuel : nat) (text : pystr) (max_chars i : Z) (lines : list pystr)
  : option (list pystr) :=
  if i <? Z.of_nat (length text) then
    match fuel with
    | O => None
    | S fuel' =>
        wrap_loop fuel' text max_chars (i + max_chars)
                  (lines ++ [py_slice text i (i + max_chars)])
    end
  else Some lines.

Definition wrap_sc_message (fuel : nat) (text : pystr) (max_chars : Z)
  : option (list pystr) :=
  match text with
  | [] => Some [[]]
  | _ =>
      lines ← wrap_loop fuel text max_chars 0 [];
      Some match lines with
           | [] => [[]]
           | _ => lines
           end
  end.

(** [n / 2 > x] for the float [x], exactly: the test [units + w >
    max_units], whose left side is a number of half units. *)
Definition halves_exceed (n : Z) (x : float) : bool :=
  match x with
  | S754_nan => false
  | S754_infinity s => s
  | S754_zero _ => 0 <? n
  | S754_finite s m e =>
      let v := if s then Z.neg m else Z.pos m in
      if 0 <=? e + 1 then v * 2 ^ (e + 1) <? n
      else v <? n * 2 ^ (- (e + 1))
  end.

(** The weight of a character in half units: [0.5] below code point 128,
    [1.0] from there on. *)
Definition uname_weight (ch : Z) : Z := if ch <? 128 then 1 else 2.

(** The [for] loop of [limit_uname_visual]: the characters kept and their
    weight, both floats of the source being counted in half units, which
    binary floats add and subtract exactly. *)
Fixpoint uname_keep (max_units : float) (units : Z) (kept uname : pystr) : pystr * Z :=
  match uname with
  | [] => (kept, units)
  | ch :: rest =>
      let w := uname_weight ch in
      if halves_exceed (units + w) max_units then (kept, units)
      else uname_keep max_units (units + w) (kept ++ [ch]) rest
  end.

(** The [while] loop of [limit_uname_visual], on the kept characters in
    reverse order: makes room for the ellipsis. *)
Fixpoint uname_pop (max_units : float) (units : Z) (rev_kept : pystr) : pystr :=
  match rev_kept with
  | [] => []
  | last :: before =>
      if halves_exceed (units + 2) max_units
      then uname_pop max_units (units - uname_weight last) before
      else rev_kept
  end.

Definition limit_uname_visual (uname : pystr) (max_units : float) : pystr :=
  let '(kept, units) := uname_keep max_units 0 [] uname in
  if (length kept =? length uname)%nat then uname
  else rev (uname_pop max_units units (rev kept)) ++ [8230].

(** [12.0] *)
Definition twelve : float := S754_finite false 6755399441055744 (-49).

(** [round(x)] for a float: the nearest [int], ties to even; [nan] and
    the infinities raise. *)
Definition round_float (x : float) : option Z :=
  match x with
  | S754_nan | S754_infinity _ => None
  | S754_zero _ => Some 0
  | S754_finite s m e =>
      let a := if 0 <=? e then Z.pos m * 2 ^ e else div_half_even (Z.pos m) (2 ^ (- e)) in
      Some (if s then - a else a)
  end.

(** [str(item.get(k, "") or "")] *)
Definition str_field (item : pydict) (k : string) : option pystr :=
  py_str (py_or (dict_get_or item k (PStr [])) (PStr [])).

(** The price [render_sc_images] reads from an entry: [0.0] when [float]
    raises. *)
Definition sc_price_val (item : pydict) : float :=
  default fzero (py_float (py_or (dict_get item "price") (PInt 0))).

(** The row [render_sc_images] builds from one super chat entry; [None]
    when a conversion outside the [try] raises. *)
Definition sc_row (item : pydict) : option pydict :=
  send_time ← str_field item "send_time";
  uname_raw ← str_field item "uname";
  let uname := limit_uname_visual uname_raw twelve in
  uid ← str_field item "uid";
  let price_val := sc_price_val item in
  price_int ← round_float price_val;
  price ← str_of_int price_int;
  message ← str_field item "message";
  let msg_clean := clean_sc_message message in
  msg_lines ← wrap_sc_message (length msg_clean) msg_clean MSG_MAX_CHARS_PER_LINE;
  let line_count := Z.max 1 (Z.of_nat (length msg_lines)) in
  let row_height := BASE_ROW_H + (line_count - 1) * EXTRA_PER_LINE in
  Some (<["row_height" := PInt row_height]>
        (<["msg_lines" := PList (map PStr msg_lines)]>
         (<["price" := PStr (take 5 price)]>
          (<["uid" := PStr (take 16 uid)]>
           (<["uname" := PStr uname]>
            (<["time" := PStr send_time]> ∅)))))).

(** The pages [render_sc_images] lays out for the entries already sorted
    by sending time. *)
Definition sc_pages (sc_sorted : list pydict) : option (list page) :=
  rows ← mapM sc_row sc_sorted;
  _paginate_rows_by_height rows SC_MAX_PAGE_HEIGHT 160 BASE_ROW_H 40.

(** [sum(int(r["row_height"]) for r in page_rows)], and the height of the
    canvas [render_sc_images] allocates for a page. *)
Fixpoint sc_rows_height (page_rows : list pydict) : option Z :=
  match page_rows with
  | [] => Some 0
  | r :: rest =>
      v ← r !! "row_height";
      h ← py_int v;
      total ← sc_rows_height rest;
      Some (h + total)
  end.

Definition sc_canvas_height (page_rows : list pydict) : option Z :=
  data_height ← match page_rows with
                | [] => Some BASE_ROW_H
                | _ => sc_rows_height page_rows
                end;
  let table_height := BASE_ROW_H + data_height + 40 in
  Some (160 + table_height).

(** [re.split(r"\s+", s)]: the texts between the maximal runs of white
    space; [cur] is the text since the last run and [in_ws] tells that
    the character before was white space. *)
Fixpoint re_split_ws_from (cur : pystr) (in_ws : bool) (s : pystr) : list pystr :=
  match s with
  | [] => [cur]
  | c :: rest =>
      if is_space c
      then if in_ws then re_split_ws_from [] true rest
           else cur :: re_split_ws_from [] true rest
      else re_split_ws_from (cur ++ [c]) false rest
  end.

Definition re_split_ws (s : pystr) : list pystr := re_split_ws_from [] false s.

(** [sep.join(parts)] for a one-character separator. *)
Fixpoint join_with (sep : Z) (parts : list pystr) : pystr :=
  match parts with
  | [] => []
  | [p] => p
  | p :: rest => p ++ sep :: join_with sep rest
  end.

(** [_parse_anchor_and_month(arg_str)]; [now] is what
    [current_month_code()] returns. *)
Definition _parse_anchor_and_month (now : pystr) (arg_str : pystr) : pystr * pystr :=
  let raw := strip arg_str in
  match raw with
  | [] => ([], now)
  | _ =>
      let parts := re_split_ws raw in
      let maybe_month :=
        match last parts with
        | Some p => normalize_month_arg p
        | None => None
        end in
      match maybe_month with
      | Some ((_ :: _) as month_code) =>
          (strip (join_with 32 (removelast parts)), month_code)
      | _ => (raw, now)
      end
  end.

(** Whether [hash(v)] returns: lists and dicts are unhashable. *)
Definition hashable (v : pyval) : bool :=
  match v with
  | PList _ | PDict _ => false
  | _ => true
  end.

(** [f == g] for two floats of a decoded document. Binary64 values are
    canonical, so that equal values have the same sign, mantissa and
    exponent; the zeros are equal whatever their sign; the decoder has
    one [nan] object, which a set finds equal to itself by identity. *)
Definition float_eq (f g : float) : bool :=
  match f, g with
  | S754_nan, S754_nan => true
  | S754_zero _, S754_zero _ => true
  | S754_infinity s, S754_infinity s' => Bool.eqb s s'
  | S754_finite s m e, S754_finite s' m' e' =>
      Bool.eqb s s' && (m =? m')%positive && (e =? e')
  | _, _ => false
  end.

(** [f == z] for a float and an [int]: the values are compared exactly. *)
Definition float_eq_int (f : float) (z : Z) : bool :=
  match f with
  | S754_zero _ => z =? 0
  | S754_finite s m e =>
      let v := if s then Z.neg m else Z.pos m in
      if 0 <=? e then z =? v * 2 ^ e else z * 2 ^ (- e) =? v
  | S754_infinity _ | S754_nan => false
  end.

(** [a == b] for two hashable values, as a set compares its elements. *)
Definition py_eq (a b : pyval) : bool :=
  let as_int (v : pyval) : option Z :=
    match v with
    | PBool b => Some (if b then 1 else 0)
    | PInt z => Some z
    | _ => None
    end in
  match a, b with
  | PNone, PNone => true
  | PStr s, PStr t => bool_decide (s = t)
  | PFloat f, PFloat g => float_eq f g
  | PFloat f, _ =>
      match as_int b with
      | Some z => float_eq_int f z
      | None => false
      end
  | _, PFloat g =>
      match as_int a with
      | Some z => float_eq_int g z
      | None => false
      end
  | _, _ =>
      match as_int a, as_int b with
      | Some x, Some y => x =? y
      | _, _ => false
      end
  end.

(** The key [_dedup_by_anchor_room] builds for an entry; [None] when
    [str()] raises or the room id is unhashable. *)
Definition dedup_key (it : pydict) : option (pystr * pyval) :=
  anchor_name ← py_str (py_or (dict_get it "anchor_name") (PStr []));
  let room_id := dict_get it "room_id" in
  if hashable room_id then Some (anchor_name, room_id) else None.

Definition key_eq (k1 k2 : pystr * pyval) : bool :=
  bool_decide (fst k1 = fst k2) && py_eq (snd k1) (snd k2).

(** The loop of [_dedup_by_anchor_room]; the set [seen] is the list of
    the keys added to it, and the entries are all dicts, as those of the
    callers are. *)
Fixpoint dedup_loop (items : list pydict) (seen : list (pystr * pyval)) (out : list pydict)
  : option (list pydict) :=
  match items with
  | [] => Some out
  | it :: rest =>
      key ← dedup_key it;
      if existsb (key_eq key) seen then dedup_loop rest seen out
      else dedup_loop rest (seen ++ [key]) (out ++ [it])
  end.

Definition _dedup_by_anchor_room (items : list pydict) : option (list pydict) :=
  dedup_loop items [] [].

(** What [fetch_all_data_by_month] returns for the lists fetched from
    the bases, in the order of the bases. *)
Definition merge_month_lists (lists : list (list pydict)) : option (list pydict) :=
  _dedup_by_anchor_room (concat lists).

(** [for line in r["msg_lines"]: pic.set_pos(msg_x, y).draw_text(line,
    [Color.BLACK]); y += EXTRA_PER_LINE], for lines that are strings, as
    those of the rows built above are; other values are left out of the
    model and give [None]. *)
Fixpoint draw_msg_lines (b : Backend) (lines : list pyval) (msg_x y : Z)
         (pic : PicGenerator) : option PicGenerator :=
  match lines with
  | [] => Some pic
  | PStr line :: rest =>
      pic ← draw_text b (set_pos pic (Some msg_x) (Some y)) (AText line)
                      (ManyColors [AColor BLACK]) None;
      draw_msg_lines b rest msg_x (y + EXTRA_PER_LINE) pic
  | _ :: _ => None
  end.

Definition sc_col_widths : list Z := [350; 350; 300; 100; 700].

Definition sc_headers : list pystr :=
  [u "发送时间"; u "发送人"; u "UID"; u "价格"; u "内容"].

(** The loop of [render_sc_images] over the rows of a page, from the
    row at position [idx] on; a missing key raises. *)
Fixpoint draw_sc_rows (b : Backend) (page_rows : list pydict) (global_start_idx idx : nat)
         (cur_y : Z) (pic : PicGenerator) : option PicGenerator :=
  match page_rows with
  | [] => Some pic
  | r :: rest =>
      let origin_x := 20 in
      let table_width := foldr Z.add 0 sc_col_widths + 40 in
      v ← r !! "row_height";
      row_h ← py_int v;
      let bg := if stripe global_start_idx idx then LIGHTGRAY else WHITE in
      let pic := draw_rounded_rectangle pic origin_x cur_y (table_width - 40) row_h 0
                                        (AColor bg) in
      let cur_x := origin_x + 10 in
      let base_y := cur_y + 18 in
      c_time ← r !! "time";
      c_uname ← r !! "uname";
      c_uid ← r !! "uid";
      c_price ← r !! "price";
      cells ← mapM py_str [c_time; c_uname; c_uid; c_price];
      '(pic, cur_x) ← draw_cells b (zip (take 4 sc_col_widths) cells) cur_x base_y BLACK pic;
      let msg_x := cur_x in
      msg_lines ← r !! "msg_lines";
      match msg_lines with
      | PList lines =>
          pic ← draw_msg_lines b lines msg_x base_y pic;
          draw_sc_rows b rest global_start_idx (S idx) (cur_y + row_h) pic
      | _ => None
      end
  end.

(** [count_str] of [render_sc_images], for [n_rows] rows in all. *)
Definition sc_count_str (n_rows : nat) : option pystr :=
  match n_rows with
  | O => Some (u "暂无记录")
  | _ => n ← str_of_int (Z.of_nat n_rows); Some (u "共 " ++ n ++ u " 条")
  end.

(** The body of the loop of [render_sc_images] over the pages, up to
    the cropped picture; [now_str] is the formatted time of the query
    and [n_rows] is [len(rows)]. *)
Definition render_sc_page (b : Backend) (anchor_name room_id month_code now_str : pystr)
           (n_rows : nat) (page_no total_pages : Z) (pg : page) : option PicGenerator :=
  let '(global_start_idx, page_rows) := pg in
  let header_h := 160 in
  let table_header_h := BASE_ROW_H in
  data_height ← match page_rows with
                | [] => Some BASE_ROW_H
                | _ => sc_rows_height page_rows
                end;
  let table_width := foldr Z.add 0 sc_col_widths + 40 in
  let table_height := table_header_h + data_height + 40 in
  let canvas_width := table_width in
  let canvas_height := header_h + table_height in
  let pic := new_pic canvas_width canvas_height in
  let pic := draw_rounded_rectangle (set_pos pic (Some 0) (Some 0))
                                    0 0 canvas_width canvas_height 35 (AColor WHITE) in
  let LEFT := 20 in
  let TITLE_Y := 30 in
  let ROOM_Y := 90 in
  let TIME_Y := 120 in
  let month_disp :=
    if (length month_code =? 6)%nat
    then take 4 month_code ++ u "-" ++ drop 4 month_code
    else month_code in
  page_no_str ← str_of_int page_no;
  total_pages_str ← str_of_int total_pages;
  let title_text :=
    anchor_name ++ u " " ++ month_disp ++ u " SC 记录（" ++ page_no_str ++ u "/"
                ++ total_pages_str ++ u "）" in
  pic ← draw_text b (set_pos pic (Some LEFT) (Some TITLE_Y)) (AText title_text)
                  (ManyColors [AColor BLACK]) None;
  pic ← draw_text b (set_pos pic (Some LEFT) (Some ROOM_Y)) (AText (u "房间号：" ++ room_id))
                  (ManyColors [AColor GRAY]) None;
  count_str ← sc_count_str n_rows;
  pic ← draw_text b (set_pos pic (Some LEFT) (Some TIME_Y))
                  (AText (u "查询时间：" ++ now_str ++ u "  |  " ++ count_str))
                  (ManyColors [AColor GRAY]) None;
  let origin_x := 20 in
  let origin_y := header_h in
  let cur_y := origin_y in
  let pic := draw_rounded_rectangle pic origin_x cur_y (table_width - 40) table_header_h 12
                                    (AColor DEEPSKYBLUE) in
  '(pic, _) ← draw_cells b (zip sc_col_widths sc_headers) (origin_x + 10) (cur_y + 18)
                          WHITE pic;
  let cur_y := cur_y + table_header_h in
  pic ← match page_rows with
        | [] =>
            let pic := draw_rounded_rectangle pic origin_x cur_y (table_width - 40) BASE_ROW_H 0
                                              (AColor WHITE) in
            draw_text b (set_pos pic (Some (origin_x + 10)) (Some (cur_y + 18)))
                      (AText (u "（本月暂无 SC 记录）")) (ManyColors [AColor BLACK]) None
        | _ => draw_sc_rows b page_rows global_start_idx 0 cur_y pic
        end;
  let pic := set_pos pic (Some (canvas_width - 220)) (Some (canvas_height - 40)) in
  pic ← draw_text_right b pic 0 (AText (u "Designed by QianQiuZy")) (OneColor (AColor GRAY))
                        (0, 0);
  crop_and_paste_bottom pic.

End Query.

End Query.

(** ** Vocabulary of the pagination properties *)

Module PageSpec.

Section PageSpec.
Context `{PyEnv}.

(** The height pagination reads from a row. *)
Definition row_h (r : pydict) : Z := default 0 (Query.row_height_of r).

(** The content height of a list of rows. *)
Definition height_sum (rs : list pydict) : Z :=
  foldr (fun r acc => row_h r + acc) 0 rs.

(** The rows of all pages, in page order. *)
Definition page_rows (pgs : list Query.page) : list pydict := concat (map snd pgs).

(** The content heights of all pages, added up. *)
Definition pages_height (pgs : list Query.page) : Z :=
  foldr (fun pg acc => height_sum (snd pg) + acc) 0 pgs.

(** Every page starts at the number of rows before it, counting from [n]. *)
Fixpoint starts_from (n : nat) (pgs : list Query.page) : Prop :=
  match pgs with
  | [] => True
  | pg :: rest => fst pg = n /\ starts_from (n + length (snd pg)) rest
  end.

(** A page of two or more rows is within the budget. *)
Definition page_within (budget : Z) (rs : list pydict) : Prop :=
  (2 <= length rs)%nat -> height_sum rs <= budget.

(** A row higher than the budget is the only row of its page. *)
Definition page_alone (budget : Z) (rs : list pydict) : Prop :=
  forall r, r ∈ rs -> budget < row_h r -> rs = [r].

(** A row that holds only its height. *)
Definition row_of_height (h : Z) : pydict := {["row_height" := PInt h]}.

(** The height of a row is a non-negative [int]. *)
Definition nonneg_int_height (r : pydict) : Prop :=
  exists h, r !! "row_height" = Some (PInt h) /\ 0 <= h.

(** What holds of the local variables of [_paginate_rows_by_height]
    once the rows [seen] have been read. *)
Record pager_inv (budget : Z) (st : Query.pager) (seen : list pydict) : Prop := {
  inv_rows : page_rows (Query.pages st) ++ Query.cur st = seen;
  inv_global : Query.global_idx st = length seen;
  inv_start : Query.start_idx st = length (page_rows (Query.pages st));
  inv_starts : starts_from 0 (Query.pages st);
  inv_nonempty : Forall (fun pg => snd pg <> []) (Query.pages st);
  inv_cur_h : Query.cur_h st = height_sum (Query.cur st);
  inv_heights : Forall (fun r => is_Some (Query.row_height_of r)) seen;
  inv_cur_within : page_within budget (Query.cur st);
  inv_pages_within : Forall (fun pg => page_within budget (snd pg)) (Query.pages st);
  inv_alone :
    Forall (fun r => 0 <= row_h r) seen ->
    page_alone budget (Query.cur st)
    /\ Forall (fun pg => page_alone budget (snd pg)) (Query.pages st);
}.

(** What holds of the returned pages. *)
Record pages_ok (budget : Z) (rows : list pydict) (pgs : list Query.page) : Prop := {
  ok_rows : page_rows pgs = rows;
  ok_starts : starts_from 0 pgs;
  ok_some : pgs <> [];
  ok_heights : Forall (fun r => is_Some (Query.row_height_of r)) rows;
  ok_within : Forall (fun pg => page_within budget (snd pg)) pgs;
  ok_alone :
    Forall (fun r => 0 <= row_h r) rows ->
    Forall (fun pg => page_alone budget (snd pg)) pgs;
}.

End PageSpec.

End PageSpec.
Import PageSpec.

(** ** Vocabulary of the formatter properties *)

Module FormatSpec.

Section FormatSpec.
Context `{PyEnv}.

(** [text] is four digits and two digits, or four digits, a hyphen and
    two digits; [yyyy] and [mm] are the two groups of digits. *)
Definition month_shape (text yyyy mm : pystr) : Prop :=
  exists y1 y2 y3 y4 m1 m2,
    (text = [y1; y2; y3; y4; m1; m2] \/ text = [y1; y2; y3; y4; 45; m1; m2])
    /\ Forall (fun c => is_Some (decimal_value c)) [y1; y2; y3; y4; m1; m2]
    /\ yyyy = [y1; y2; y3; y4]
    /\ mm = [m1; m2].

(** The number a two-digit field denotes. *)
Definition two_digit_value (mm : pystr) : option Z :=
  match mm with
  | [m1; m2] =>
      v1 ← decimal_value m1;
      v2 ← decimal_value m2;
      Some (10 * v1 + v2)
  | _ => None
  end.

(** [s] splits at its colons into exactly three fields that [int()]
    accepts. *)
Definition three_int_fields (s : pystr) : Prop :=
  exists ph pm ps h m sec,
    split_on 58 s = [ph; pm; ps]
    /\ int_of_str ph = Some h
    /\ int_of_str pm = Some m
    /\ int_of_str ps = Some sec.

End FormatSpec.

End FormatSpec.
Import FormatSpec.

(** ** Vocabulary of the measurement properties *)

Module MeasureSpec.

Section MeasureSpec.
Context `{PyEnv}.

(** The width of a sequence of runs: the sum [_measure_with_fallback]
    forms. *)
Definition runs_width (b : Backend) (runs : list (pystr * bool)) : Z :=
  fold_left (fun total run => total + _text_length b (snd run) (fst run)) runs 0.

(** A character that is neither an emoji nor an attaching mark. *)
Definition plain_char (c : Z) : Prop :=
  is_attaching c = false /\ _is_emoji_char c = false.

(** The width, in tenths of a pixel, of a character in a font whose
    advance widths are not whole pixels: 0.6 px for the full stop and
    7.3 px for any other character. *)
Definition advance_tenths (c : Z) : Z := if c =? 46 then 6 else 73.

(** A backend with that font: [draw.textlength] gives the sum of the
    advance widths, which [int()] truncates. *)
Definition subpixel_metrics : Backend := {|
  draw_textlength := fun _ text => Some (foldr (fun c acc => advance_tenths c + acc) 0 text / 10);
  font_getlength := fun _ _ => None;
  draw_textbbox_width := fun _ _ => None;
|}.

End MeasureSpec.

End MeasureSpec.
Import MeasureSpec.

(** ** Vocabulary of the further properties *)

Module MoreSpec.

Section MoreSpec.
Context `{PyEnv}.

(** Consecutive runs differ in class. *)
Fixpoint alternating (runs : list (pystr * bool)) : Prop :=
  match runs with
  | r1 :: rest =>
      match rest with
      | r2 :: _ => snd r1 <> snd r2
      | [] => True
      end /\ alternating rest
  | [] => True
  end.

(** The characters a run of the given class can hold: an emoji run only
    emoji characters; a text run only characters that are no emoji or are
    attaching marks, the first of them no attaching mark. *)
Definition run_chars_ok (run : pystr * bool) : Prop :=
  if snd run
  then Forall (fun c => _is_emoji_char c = true) (fst run)
  else Forall (fun c => _is_emoji_char c = false \/ is_attaching c = true) (fst run)
       /\ (forall c, head (fst run) = Some c -> is_attaching c = false).

(** A page is closed only when the row that opens the next page did not
    fit on it. *)
Fixpoint greedy_pages (budget : Z) (pgs : list Query.page) : Prop :=
  match pgs with
  | p1 :: rest =>
      (forall p2 r,
          head rest = Some p2 -> head (snd p2) = Some r ->
          budget < height_sum (snd p1) + row_h r)
      /\ greedy_pages budget rest
  | [] => True
  end.

(** What holds in addition of the local variables of
    [_paginate_rows_by_height]: the current page is empty only before the
    first row, and the closed pages with the current one are greedy. *)
Definition pager_greedy (budget : Z) (st : Query.pager) : Prop :=
  (Query.cur st = [] -> Query.pages st = [])
  /\ greedy_pages budget (Query.pages st ++ [(Query.start_idx st, Query.cur st)]).

(** The number of seconds a text of three colon-separated integer fields
    denotes. *)
Definition hms_seconds (text : pystr) : option Z :=
  match split_on 58 text with
  | [ph; pm; ps] =>
      h ← int_of_str ph;
      m ← int_of_str pm;
      s ← int_of_str ps;
      Some (3600 * h + 60 * m + s)
  | _ => None
  end.

(** The value of a sequence of ASCII digits read after the value [acc]. *)
Definition digits_value (acc : Z) (ds : pystr) : Z :=
  fold_left (fun a c => 10 * a + (c - 48)) ds acc.

Definition ascii_digit (c : Z) : Prop := 48 <= c <= 57.

(** The number of lines of [n] characters a text of [len] characters
    fills, the last one possibly in part. *)
Definition lines_needed (len n : Z) : Z := (len + n - 1) / n.

(** Every white-space character is a space that does not follow another
    one; [after_space] tells that the text follows a space. *)
Fixpoint single_spaced (after_space : bool) (s : pystr) : Prop :=
  match s with
  | [] => True
  | c :: rest =>
      if is_space c
      then c = 32 /\ after_space = false /\ single_spaced true rest
      else single_spaced false rest
  end.

(** Words separated by single spaces, with no space at either end. *)
Definition tidy (s : pystr) : Prop :=
  single_spaced true s /\ (forall c, last s = Some c -> is_space c = false).

(** The maximal runs of characters that are no white space, in order
    ([s.split()]); [cur] is the run being read. *)
Fixpoint words_from (cur : pystr) (s : pystr) : list pystr :=
  match s with
  | [] => match cur with [] => [] | _ => [cur] end
  | c :: rest =>
      if is_space c
      then match cur with [] => [] | _ => [cur] end ++ words_from [] rest
      else words_from (cur ++ [c]) rest
  end.

Definition words (s : pystr) : list pystr := words_from [] s.

(** The visual width of a name in half units. *)
Definition uname_units (s : pystr) : Z := fold_right Z.add 0 (map Query.uname_weight s).

(** A float that is not [nan] and not infinite. *)
Definition is_finite (x : float) : bool :=
  match x with
  | S754_zero _ | S754_finite _ _ _ => true
  | S754_infinity _ | S754_nan => false
  end.

(** A text without white space. *)
Definition no_space (s : pystr) : Prop := Forall (fun c => is_space c = false) s.

(** Two entries have equal keys for [_dedup_by_anchor_room]. *)
Definition same_key (a b : pydict) : Prop :=
  exists ka kb,
    Query.dedup_key a = Some ka /\ Query.dedup_key b = Some kb
    /\ Query.key_eq ka kb = true.

(** No two entries of the list have equal keys. *)
Definition distinct_keys (l : list pydict) : Prop :=
  forall i j a b,
    (i < j)%nat -> l !! i = Some a -> l !! j = Some b -> ~ same_key a b.

(** Every entry of [items] has an entry with an equal key that is kept
    in [out] and occurs in [items] no later than it. *)
Definition first_kept (items out : list pydict) : Prop :=
  forall i it,
    items !! i = Some it ->
    exists j it',
      (j <= i)%nat /\ items !! j = Some it' /\ it' ∈ out /\ same_key it' it.

(** What holds of the local variables of [_dedup_by_anchor_room] once
    the entries [before] have been read. *)
Record dedup_inv (before : list pydict) (seen : list (pystr * pyval)) (out : list pydict)
  : Prop := {
  dinv_keys : Forall2 (fun it k => Query.dedup_key it = Some k) out seen;
  dinv_sub : sublist out before;
  dinv_distinct : distinct_keys out;
  dinv_first : first_kept before out;
}.

(** The text calls [ops] draw a row from [x] on at height [y]: each
    call starts where the text of the call before it ends. *)
Fixpoint text_row (b : Backend) (x y : Z) (ops : list draw_op) : Prop :=
  match ops with
  | [] => True
  | DrawText at_xy text _ emoji_font :: rest =>
      at_xy = (x, y) /\ text_row b (x + _text_length b emoji_font text) y rest
  | DrawRoundedRectangle _ _ _ _ _ _ :: _ => False
  end.

(** The text, the width and the fill of a text call. *)
Definition op_text (op : draw_op) : pystr :=
  match op with
  | DrawText _ text _ _ => text
  | DrawRoundedRectangle _ _ _ _ _ _ => []
  end.

Definition op_width (b : Backend) (op : draw_op) : Z :=
  match op with
  | DrawText _ text _ emoji_font => _text_length b emoji_font text
  | DrawRoundedRectangle _ _ _ _ _ _ => 0
  end.

Definition op_fill (op : draw_op) : rgb :=
  match op with
  | DrawText _ _ fill _ => fill
  | DrawRoundedRectangle _ _ _ _ _ fill => fill
  end.

Definition ops_text (ops : list draw_op) : pystr := concat (map op_text ops).

Definition ops_width (b : Backend) (ops : list draw_op) : Z :=
  foldr (fun op acc => op_width b op + acc) 0 ops.

(** [q] is [p] after the calls [ops], with the cursor at [xy]. *)
Definition drawn_after (p q : PicGenerator) (ops : list draw_op) (xy : Z * Z) : Prop :=
  q = {| pic_width := pic_width p;
         pic_height := pic_height p;
         pic_canvas_height := pic_canvas_height p;
         pic_xy := xy;
         pic_row_space := pic_row_space p;
         pic_bottom_pic := pic_bottom_pic p;
         pic_auto_size_margin := pic_auto_size_margin p;
         pic_drawn := pic_drawn p ++ ops |}.

(** The widths [_measure_with_fallback] gives for the texts, added up. *)
Definition texts_width (b : Backend) (texts : list pystr) : Z :=
  foldr (fun t acc => _measure_with_fallback b t + acc) 0 texts.

(** The list of texts of a [texts] argument. *)
Definition texts_list_of (texts : texts_arg) : list pystr :=
  match texts with
  | AText s => [s]
  | ATexts l => l
  end.

(** A row that [render_sc_images] builds from some entry. *)
Definition sc_built (r : pydict) : Prop :=
  exists item, Query.sc_row item = Some r.

(** A text call anchored at a height from [lo] to [hi]. *)
Definition text_between (lo hi : Z) (op : draw_op) : Prop :=
  match op with
  | DrawText at_xy _ _ _ => lo <= snd at_xy <= hi
  | DrawRoundedRectangle _ _ _ _ _ _ => False
  end.

(** The calls [ops] draw the rows as a stack from the height [top] on:
    for every row its rectangle, as high as the row and striped by the
    index of the row, then its texts, anchored from 18 below the top of
    the rectangle to 42 above its bottom. *)
Fixpoint rows_stacked (rows : list pydict) (global_start_idx idx : nat) (top : Z)
         (ops : list draw_op) : Prop :=
  match rows with
  | [] => ops = []
  | r :: rest =>
      exists texts more,
        ops = DrawRoundedRectangle
                20 top 1820 (top + row_h r) 0
                (Color_value (if Query.stripe global_start_idx idx then LIGHTGRAY else WHITE))
              :: texts ++ more
        /\ Forall (text_between (top + 18) (top + row_h r - 42)) texts
        /\ rows_stacked rest global_start_idx (S idx) (top + row_h r) more
  end.

(** A call that stays on a canvas of the given height: a rectangle
    between its top and its bottom, a text anchored at least 40 above
    the bottom. *)
Definition op_inside (canvas_height : Z) (op : draw_op) : Prop :=
  match op with
  | DrawText at_xy _ _ _ => 0 <= snd at_xy <= canvas_height - 40
  | DrawRoundedRectangle _ y0 _ y1 _ _ => 0 <= y0 /\ y0 <= y1 /\ y1 <= canvas_height
  end.

(** An entry whose message takes two lines, and the row built from it. *)
Definition sample_item : pydict :=
  {[ "send_time" := PStr (u "2024-05-01 20:00:00"); "uname" := PStr (u "viewer");
     "uid" := PInt 12345; "price" := PInt 30;
     "message" := PStr (u "a message of more than twenty characters") ]}.

Definition sample_rows : list pydict :=
  default [] (mapM (@Query.sc_row ascii_env) [sample_item]).

(** The calls [ops] draw [n] rows of the live list as a stack from the
    height [top] on: for every row its rectangle, 60 high and striped
    by its index, then its four cells as rows of text 18 below the top
    of the rectangle, from the columns 30, 380, 680 and 880 on, the
    last of them at most 580 wide. *)
Fixpoint live_rows_stacked (b : Backend) (n idx : nat) (top : Z)
         (ops : list draw_op) : Prop :=
  match n with
  | O => ops = []
  | S n' =>
      exists t_time t_name t_duration t_title more,
        ops = DrawRoundedRectangle
                20 top 1470 (top + 60) 0
                (Color_value (if (idx mod 2 =? 0)%nat then LIGHTGRAY else WHITE))
              :: t_time ++ t_name ++ t_duration ++ t_title ++ more
        /\ text_row b 30 (top + 18) t_time
        /\ text_row b 380 (top + 18) t_name
        /\ text_row b 680 (top + 18) t_duration
        /\ text_row b 880 (top + 18) t_title
        /\ ops_width b t_title <= 580
        /\ live_rows_stacked b n' (S idx) (top + 60) more
  end.

(** [_safe_str] raises on one of the three fields of the room. *)
Definition live_row_raises (d : pydict) : Prop :=
  LiveList._safe_str (dict_get_or d "live_time" (PStr (u "0000-00-00 00:00:00"))) = None
  \/ LiveList._safe_str (dict_get_or d "anchor_name" (PStr [])) = None
  \/ LiveList._safe_str (dict_get_or d "title" (PStr [])) = None.

(** A room on air, with every field of its row given. *)
Definition sample_room : pydict :=
  {[ "live_time" := PStr (u "2024-06-01 10:00:00"); "anchor_name" := PStr (u "anchor");
     "title" := PStr (u "a live title") ]}.

End MoreSpec.

End MoreSpec.
Import MoreSpec.

(** * Properties *)

(** ** Run splitting *)

Section RunSplitting.
Context `{PyEnv}.

Lemma flush_concat (buf : pystr) (e : bool) :
  concat (map fst (flush buf e)) = buf.
Proof. destruct buf; simpl; [done | by rewrite app_nil_r]. Qed.

Lemma flush_nonempty (buf : pystr) (e : bool) :
  Forall (fun run => fst run <> []) (flush buf e).
Proof. destruct buf; simpl; [constructor | by repeat constructor]. Qed.

Lemma split_runs_loop_concat (s : pystr) :
  forall buf e, concat (map fst (split_runs_loop s buf e)) = buf ++ s.
Proof.
  induction s as [|ch rest IH]; intros buf e; simpl.
  - by rewrite flush_concat, app_nil_r.
  - destruct (is_attaching ch).
    + destruct buf as [|b buf']; rewrite IH; [done|].
      by rewrite <- app_assoc.
    + destruct buf as [|b buf']; [by rewrite IH|].
      destruct (Bool.eqb _ e).
      * rewrite IH. by rewrite <- app_assoc.
      * rewrite map_app, concat_app, flush_concat, IH. done.
Qed.

Lemma split_runs_loop_nonempty (s : pystr) :
  forall buf e, Forall (fun run => fst run <> []) (split_runs_loop s buf e).
Proof.
  induction s as [|ch rest IH]; intros buf e; simpl.
  - apply flush_nonempty.
  - destruct (is_attaching ch).
    + destruct buf; apply IH.
    + destruct buf as [|b buf']; [apply IH|].
      destruct (Bool.eqb _ e); [apply IH|].
      apply Forall_app. split; [apply flush_nonempty | apply IH].
Qed.

Lemma split_runs_concat (s : pystr) :
  concat (map fst (_split_runs_by_emoji s)) = s.
Proof. destruct s; [done|]. unfold _split_runs_by_emoji. apply split_runs_loop_concat. Qed.

(** C10: the run texts yielded by [_split_runs_by_emoji s], concatenated
    in order, give back [s], and no yielded run text is empty. *)
Theorem split_runs_by_emoji_partition (s : pystr) :
  concat (map fst (_split_runs_by_emoji s)) = s
  /\ Forall (fun run => fst run <> []) (_split_runs_by_emoji s).
Proof.
  split; [apply split_runs_concat|].
  destruct s; [constructor|]. apply split_runs_loop_nonempty.
Qed.

(** Without exact metrics every run measures ten pixels a character, and
    so does the whole text. *)
Lemma fold_run_widths (runs : list (pystr * bool)) (z : Z) :
  fold_left (fun total run => total + _text_length no_metrics (snd run) (fst run)) runs z
  = z + 10 * Z.of_nat (length (concat (map fst runs))).
Proof.
  revert z. induction runs as [|[t e] runs IH]; intros z; simpl; [lia|].
  rewrite IH, length_app. unfold _text_length; simpl. lia.
Qed.

Lemma measure_no_metrics (s : pystr) :
  _measure_with_fallback no_metrics s = 10 * Z.of_nat (length s).
Proof.
  unfold _measure_with_fallback. rewrite fold_run_widths, split_runs_concat. lia.
Qed.

End RunSplitting.

(** ** Pagination *)

Section Pagination.
Context `{PyEnv}.

Lemma height_sum_app (xs ys : list pydict) :
  height_sum (xs ++ ys) = height_sum xs + height_sum ys.
Proof. induction xs as [|x xs IH]; simpl; [done|]. rewrite IH. lia. Qed.

Lemma height_sum_nonneg (rs : list pydict) :
  Forall (fun r => 0 <= row_h r) rs -> 0 <= height_sum rs.
Proof. induction 1; simpl; lia. Qed.

Lemma row_h_le_sum (rs : list pydict) (r : pydict) :
  Forall (fun r => 0 <= row_h r) rs -> r ∈ rs -> row_h r <= height_sum rs.
Proof.
  induction 1 as [|x xs Hx Hxs IH]; intros Hin; [by apply elem_of_nil in Hin|].
  apply elem_of_cons in Hin as [->|Hin]; simpl.
  - pose proof (height_sum_nonneg xs Hxs). lia.
  - specialize (IH Hin). lia.
Qed.

Lemma page_rows_snoc (pgs : list Query.page) (pg : Query.page) :
  page_rows (pgs ++ [pg]) = page_rows pgs ++ snd pg.
Proof. unfold page_rows. by rewrite map_app, concat_app; simpl; rewrite app_nil_r. Qed.

Lemma starts_from_snoc (pgs : list Query.page) (pg : Query.page) :
  forall n, starts_from n pgs ->
            fst pg = (n + length (page_rows pgs))%nat ->
            starts_from n (pgs ++ [pg]).
Proof.
  induction pgs as [|q pgs IH]; intros n Hs Hpg; simpl in *.
  - split; [lia | done].
  - destruct Hs as [Hq Hs]. split; [done|].
    apply IH; [done|]. unfold page_rows in *. simpl in Hpg.
    rewrite length_app in Hpg. lia.
Qed.

Lemma pager_inv_init (budget : Z) : pager_inv budget Query.pager_init [].
Proof.
  split; simpl; try done; try constructor.
  - intros Hlen. simpl in Hlen. lia.
  - intros r Hr. by apply elem_of_nil in Hr.
  - constructor.
Qed.

Lemma row_h_some (r : pydict) (rh : Z) :
  Query.row_height_of r = Some rh -> row_h r = rh.
Proof. unfold row_h. by intros ->. Qed.

Lemma paginate_step_inv (budget : Z) (st : Query.pager) (seen : list pydict) (r : pydict) :
  pager_inv budget st seen ->
  match Query.paginate_step budget st r with
  | Some st' => pager_inv budget st' (seen ++ [r])
  | None => Query.row_height_of r = None
  end.
Proof.
  intros [Hrows Hglob Hstart Hstarts Hne Hcurh Hhs Hcw Hpw Halone].
  unfold Query.paginate_step.
  destruct (Query.row_height_of r) as [rh|] eqn:Hrh; simpl; [|done].
  pose proof (row_h_some r rh Hrh) as Hr.
  assert (Hseen : Forall (fun r0 => is_Some (Query.row_height_of r0)) (seen ++ [r])).
  { apply Forall_app. split; [done|]. repeat constructor. by rewrite Hrh. }
  destruct (Query.cur st) as [|c cs] eqn:Hcur.
  - (* the page is empty: the row opens it *)
    rewrite app_nil_r in Hrows.
    split; simpl; rewrite ?Hcur; simpl; try done.
    + by rewrite Hrows.
    + rewrite length_app, Hglob. simpl. lia.
    + rewrite Hcurh. simpl. lia.
    + intros Hlen. simpl in Hlen. lia.
    + intros Hnn. apply Forall_app in Hnn as [Hnn _].
      destruct (Halone Hnn) as [_ Hp]. split; [|done].
      intros r' Hr' _. by apply list_elem_of_singleton in Hr' as ->.
  - destruct (budget <? Query.cur_h st + rh) eqn:Hfit.
    + (* the row does not fit: page break, then the row opens a page *)
      apply Z.ltb_lt in Hfit.
      split; simpl; rewrite ?Hcur; try done.
      * rewrite page_rows_snoc. simpl. by rewrite Hrows.
      * rewrite length_app, Hglob. simpl. lia.
      * rewrite page_rows_snoc. simpl. rewrite Hglob, <- Hrows. done.
      * apply starts_from_snoc; [done|]. simpl. lia.
      * apply Forall_app. split; [done|]. repeat constructor. done.
      * lia.
      * intros Hlen. simpl in Hlen. lia.
      * apply Forall_app. split; [done|]. repeat constructor. done.
      * intros Hnn. apply Forall_app in Hnn as [Hnn _].
        destruct (Halone Hnn) as [Hc Hp]. split.
        -- intros r' Hr' _. by apply list_elem_of_singleton in Hr' as ->.
        -- apply Forall_app. split; [done|]. repeat constructor. done.
    + (* the row fits: it joins the page *)
      apply Z.ltb_ge in Hfit.
      split; simpl; rewrite ?Hcur; try done.
      * rewrite <- Hrows. by rewrite <- app_assoc.
      * rewrite length_app, Hglob. simpl. lia.
      * rewrite height_sum_app, Hcurh. simpl. lia.
      * intros _. rewrite height_sum_app, <- Hcurh.
        change (height_sum [r]) with (row_h r + 0). lia.
      * intros Hnn. apply Forall_app in Hnn as [Hnn Hnr].
        destruct (Halone Hnn) as [_ Hp]. split; [|done].
        intros r' Hr' Hbig. exfalso.
        assert (Hall : Forall (fun r0 => 0 <= row_h r0) ((c :: cs) ++ [r])).
        { apply Forall_app. split; [|done].
          rewrite <- Hrows in Hnn. by apply Forall_app in Hnn as [_ Hnn]. }
        pose proof (row_h_le_sum _ _ Hall Hr') as Hle.
        rewrite height_sum_app, <- Hcurh in Hle.
        change (height_sum [r]) with (row_h r + 0) in Hle. lia.
Qed.

Lemma paginate_loop_inv (budget : Z) (rows : list pydict) :
  forall st seen,
    pager_inv budget st seen ->
    match Query.paginate_loop budget st rows with
    | Some st' => pager_inv budget st' (seen ++ rows)
    | None => exists r, r ∈ rows /\ Query.row_height_of r = None
    end.
Proof.
  induction rows as [|r rows IH]; intros st seen Hinv; simpl.
  - by rewrite app_nil_r.
  - pose proof (paginate_step_inv budget st seen r Hinv) as Hstep.
    destruct (Query.paginate_step budget st r) as [st1|]; simpl.
    + specialize (IH st1 (seen ++ [r]) Hstep).
      destruct (Query.paginate_loop budget st1 rows) as [st2|].
      * by rewrite <- app_assoc in IH.
      * destruct IH as (r' & Hin & Hnone). exists r'. split; [|done].
        by apply elem_of_cons; right.
    + exists r. split; [|done]. by apply elem_of_cons; left.
Qed.

Lemma pages_ok_snoc (budget : Z) (st : Query.pager) (rows : list pydict) :
  pager_inv budget st rows ->
  Query.cur st <> [] ->
  pages_ok budget rows (Query.pages st ++ [(Query.start_idx st, Query.cur st)]).
Proof.
  intros [Hrows Hglob Hstart Hstarts Hne Hcurh Hhs Hcw Hpw Halone] Hcur.
  split; try done.
  - by rewrite page_rows_snoc.
  - apply starts_from_snoc; [done|]. simpl. lia.
  - by destruct (Query.pages st).
  - apply Forall_app. split; [done|]. by repeat constructor.
  - intros Hnn. destruct (Halone Hnn) as [Hc Hp].
    apply Forall_app. split; [done|]. by repeat constructor.
Qed.

Lemma pages_ok_closed (budget : Z) (st : Query.pager) (rows : list pydict) :
  pager_inv budget st rows ->
  Query.cur st = [] ->
  Query.pages st <> [] ->
  pages_ok budget rows (Query.pages st).
Proof.
  intros [Hrows Hglob Hstart Hstarts Hne Hcurh Hhs Hcw Hpw Halone] Hcur Hpages.
  rewrite Hcur, app_nil_r in Hrows.
  split; try done.
  intros Hnn. by destruct (Halone Hnn).
Qed.

Lemma pages_ok_empty (budget : Z) : pages_ok budget [] [(0%nat, [])].
Proof.
  split; try done.
  - repeat constructor. intros Hlen. simpl in Hlen. lia.
  - intros _. repeat constructor. intros r Hr. by apply elem_of_nil in Hr.
Qed.

Lemma paginate_rows_ok (rows : list pydict) (max_canvas_h header_h table_header_h table_padding_h : Z) :
  match Query._paginate_rows_by_height rows max_canvas_h header_h table_header_h table_padding_h with
  | Some pgs =>
      pages_ok (Query.data_budget max_canvas_h header_h table_header_h table_padding_h) rows pgs
  | None => exists r, r ∈ rows /\ Query.row_height_of r = None
  end.
Proof.
  unfold Query._paginate_rows_by_height.
  set (budget := Query.data_budget _ _ _ _).
  pose proof (paginate_loop_inv budget rows Query.pager_init [] (pager_inv_init budget)) as Hloop.
  destruct (Query.paginate_loop budget Query.pager_init rows) as [st|]; simpl in *; [|done].
  destruct (Query.cur st) as [|c cs] eqn:Hcur.
  - destruct (Query.pages st) as [|p ps] eqn:Hpages.
    + destruct Hloop as [Hrows _ _ _ _ _ _ _ _ _].
      rewrite Hcur, Hpages in Hrows. simpl in Hrows. subst rows.
      apply pages_ok_empty.
    + rewrite <- Hpages. apply pages_ok_closed; [done..|]. by rewrite Hpages.
  - pose proof (pages_ok_snoc budget st rows Hloop) as Hok.
    rewrite Hcur in Hok. specialize (Hok ltac:(done)).
    by destruct (Query.pages st ++ [(Query.start_idx st, c :: cs)]) eqn:Hp;
      [apply app_eq_nil in Hp as [_ ?]|].
Qed.

Lemma stripe_even (a i : nat) : Query.stripe a i = Nat.even (a + i).
Proof.
  unfold Query.stripe.
  destruct (Nat.even (a + i)) eqn:He.
  - apply Nat.even_spec in He as [k Hk]. rewrite Hk.
    rewrite Nat.mul_comm, Nat.Div0.mod_mul. done.
  - apply Nat.eqb_neq. intros Hm.
    apply Nat.Div0.mod_divides in Hm as [k Hk].
    assert (Nat.even (a + i) = true) by (apply Nat.even_spec; by exists k).
    congruence.
Qed.

Lemma starts_from_lookup (pgs : list Query.page) :
  forall n k pg,
    starts_from n pgs ->
    pgs !! k = Some pg ->
    fst pg = (n + length (page_rows (take k pgs)))%nat.
Proof.
  induction pgs as [|q pgs IH]; intros n k pg Hs Hk; [done|].
  destruct Hs as [Hq Hs]. destruct k as [|k]; simpl in *.
  - inversion Hk; subst. unfold page_rows. simpl. lia.
  - rewrite (IH _ _ _ Hs Hk). unfold page_rows. simpl.
    rewrite length_app. lia.
Qed.

Lemma page_rows_lookup (pgs : list Query.page) :
  forall k pg i r,
    pgs !! k = Some pg ->
    snd pg !! i = Some r ->
    page_rows pgs !! (length (page_rows (take k pgs)) + i)%nat = Some r.
Proof.
  induction pgs as [|q pgs IH]; intros k pg i r Hk Hi; [done|].
  destruct k as [|k]; simpl in *.
  - inversion Hk; subst. unfold page_rows. simpl.
    by apply lookup_app_l_Some.
  - unfold page_rows in *. simpl. rewrite length_app, <- Nat.add_assoc.
    rewrite lookup_app_r by lia.
    replace (length q.2 + (length (concat (map snd (take k pgs))) + i) - length q.2)%nat
      with (length (concat (map snd (take k pgs))) + i)%nat by lia.
    by eapply IH.
Qed.

Lemma pages_height_rows (pgs : list Query.page) :
  pages_height pgs = height_sum (page_rows pgs).
Proof.
  induction pgs as [|q pgs IH]; [done|].
  unfold page_rows in *. simpl. by rewrite height_sum_app, IH.
Qed.

Lemma nonneg_int_height_some (r : pydict) :
  nonneg_int_height r -> exists h, Query.row_height_of r = Some h /\ 0 <= h.
Proof.
  intros (h & Hr & Hh). exists h. split; [|done].
  unfold Query.row_height_of, dict_get, py_or. rewrite Hr. simpl.
  destruct (h =? 0) eqn:Hz; simpl; [|done].
  apply Z.eqb_eq in Hz. by subst.
Qed.

(** C9: on the empty row list [_paginate_rows_by_height] returns exactly
    one page, which starts at index 0 and has no rows. *)
Theorem paginate_empty_one_page (max_canvas_h header_h table_header_h table_padding_h : Z) :
  Query._paginate_rows_by_height [] max_canvas_h header_h table_header_h table_padding_h
  = Some [(0%nat, [])].
Proof. reflexivity. Qed.

(** C2: the rows of the returned pages, concatenated in page order, are
    the input list, and the page heights add up to the height of the
    input; the call returns unless [int()] raises on the height of some
    row. *)
Theorem paginate_keeps_rows (rows : list pydict)
        (max_canvas_h header_h table_header_h table_padding_h : Z) :
  match Query._paginate_rows_by_height rows max_canvas_h header_h table_header_h table_padding_h with
  | Some pgs =>
      concat (map snd pgs) = rows
      /\ pages_height pgs = height_sum rows
      /\ Forall (fun r => is_Some (Query.row_height_of r)) rows
  | None => exists r, r ∈ rows /\ Query.row_height_of r = None
  end.
Proof.
  pose proof (paginate_rows_ok rows max_canvas_h header_h table_header_h table_padding_h) as Hok.
  destruct (Query._paginate_rows_by_height _ _ _ _ _) as [pgs|]; [|done].
  destruct Hok as [Hrows _ _ Hhs _ _].
  split; [done|]. split; [|done].
  by rewrite pages_height_rows, Hrows.
Qed.

Lemma page_rows_cons (q : Query.page) (pgs : list Query.page) :
  page_rows (q :: pgs) = snd q ++ page_rows pgs.
Proof. reflexivity. Qed.

Lemma page_rows_lookup_inv (pgs : list Query.page) :
  forall i r,
    page_rows pgs !! i = Some r ->
    exists k pg j,
      pgs !! k = Some pg /\ snd pg !! j = Some r
      /\ i = (length (page_rows (take k pgs)) + j)%nat.
Proof.
  induction pgs as [|q pgs IH]; intros i r Hi; [done|].
  rewrite page_rows_cons in Hi. apply lookup_app_Some in Hi as [Hi | [Hlen Hi]].
  - exists 0%nat, q, i. by repeat split.
  - destruct (IH _ _ Hi) as (k & pg & j & Hk & Hj & Hij).
    exists (S k), pg, j. split; [done|]. split; [done|].
    simpl. rewrite page_rows_cons, length_app. lia.
Qed.

Lemma page_start_step (pgs : list Query.page) :
  forall k pg,
    pgs !! k = Some pg ->
    length (page_rows (take (S k) pgs))
    = (length (page_rows (take k pgs)) + length (snd pg))%nat.
Proof.
  induction pgs as [|q pgs IH]; intros k pg Hk; [done|].
  destruct k as [|k]; simpl in *.
  - inversion Hk; subst. rewrite page_rows_cons, take_0. unfold page_rows. simpl.
    rewrite app_nil_r. lia.
  - rewrite !page_rows_cons, !length_app.
    pose proof (IH _ _ Hk) as Hs. simpl in Hs. lia.
Qed.

Lemma page_start_mono (pgs : list Query.page) :
  forall k k',
    (k <= k')%nat ->
    (length (page_rows (take k pgs)) <= length (page_rows (take k' pgs)))%nat.
Proof.
  induction pgs as [|q pgs IH]; intros k k' Hle.
  - by rewrite !take_nil.
  - destruct k as [|k]; [simpl; lia|].
    destruct k' as [|k']; [lia|].
    simpl. rewrite !page_rows_cons, !length_app.
    specialize (IH k k'). lia.
Qed.

(** A row higher than the budget has a page of its own: the page that
    starts at the index of the row, and no other page holds that
    index. *)
Lemma oversized_row_page (budget : Z) (rows : list pydict) (pgs : list Query.page) :
  pages_ok budget rows pgs ->
  Forall (fun r => 0 <= row_h r) rows ->
  forall i r,
    rows !! i = Some r ->
    budget < row_h r ->
    exists k,
      pgs !! k = Some (i, [r])
      /\ forall k' pg' j,
          pgs !! k' = Some pg' ->
          (j < length (snd pg'))%nat ->
          (fst pg' + j)%nat = i ->
          k' = k.
Proof.
  intros [Hrows Hstarts _ _ _ Halone] Hnn i r Hi Hbig.
  specialize (Halone Hnn).
  rewrite <- Hrows in Hi.
  destruct (page_rows_lookup_inv _ _ _ Hi) as (k & pg & j & Hk & Hj & Hij).
  assert (Hone : snd pg = [r]).
  { apply (proj1 (Forall_forall _ _) Halone pg).
    - by eapply list_elem_of_lookup_2.
    - by eapply list_elem_of_lookup_2.
    - done. }
  assert (j = 0%nat) as ->.
  { rewrite Hone in Hj. destruct j; [done|]. by destruct j. }
  pose proof (starts_from_lookup pgs 0 k pg Hstarts Hk) as Hfst. simpl in Hfst.
  exists k. split.
  { destruct pg as [s rs]. simpl in *. subst. rewrite Hk. f_equal. f_equal. lia. }
  intros k' pg' j' Hk' Hj' Hsum.
  pose proof (starts_from_lookup pgs 0 k' pg' Hstarts Hk') as Hfst'. simpl in Hfst'.
  pose proof (page_start_step pgs k pg Hk) as Hstep. rewrite Hone in Hstep. simpl in Hstep.
  pose proof (page_start_step pgs k' pg' Hk') as Hstep'.
  destruct (Nat.lt_trichotomy k' k) as [Hlt | [Heq | Hgt]]; [|done|].
  - pose proof (page_start_mono pgs (S k') k ltac:(lia)). lia.
  - pose proof (page_start_mono pgs (S k) k' ltac:(lia)). lia.
Qed.

(** C3: for rows whose heights are non-negative integers the call
    returns; the budget is the canvas height less the three reserved
    heights, or 1 when that is not positive; the returned pages hold
    all rows, in order; every returned page of two or more rows is
    within the budget; a row higher than the budget is the only row of
    its page; and for every such row of the input there is a page that
    starts at the index of the row and holds that row alone, and no
    other page holds that index. *)
Theorem paginate_within_budget (rows : list pydict)
        (max_canvas_h header_h table_header_h table_padding_h : Z) :
  Forall nonneg_int_height rows ->
  let budget := Query.data_budget max_canvas_h header_h table_header_h table_padding_h in
  budget = Z.max 1 (max_canvas_h - header_h - table_header_h - table_padding_h)
  /\ exists pgs,
      Query._paginate_rows_by_height rows max_canvas_h header_h table_header_h table_padding_h
      = Some pgs
      /\ concat (map snd pgs) = rows
      /\ (forall pg, pg ∈ pgs -> (2 <= length (snd pg))%nat -> height_sum (snd pg) <= budget)
      /\ (forall pg r, pg ∈ pgs -> r ∈ snd pg -> budget < row_h r -> snd pg = [r])
      /\ (forall i r,
            rows !! i = Some r ->
            budget < row_h r ->
            exists k,
              pgs !! k = Some (i, [r])
              /\ forall k' pg' j,
                  pgs !! k' = Some pg' ->
                  (j < length (snd pg'))%nat ->
                  (fst pg' + j)%nat = i ->
                  k' = k).
Proof.
  intros Hrows budget. split.
  { unfold budget, Query.data_budget. destruct (_ <=? 0) eqn:Hle; lia. }
  pose proof (paginate_rows_ok rows max_canvas_h header_h table_header_h table_padding_h) as Hok.
  fold budget in Hok.
  assert (Hsome : Forall (fun r => exists h, Query.row_height_of r = Some h /\ 0 <= h) rows).
  { eapply Forall_impl; [exact Hrows|]. apply nonneg_int_height_some. }
  assert (Hnn : Forall (fun r => 0 <= row_h r) rows).
  { eapply Forall_impl; [exact Hsome|].
    intros r0 (h & Hr0 & Hh). by rewrite (row_h_some _ _ Hr0). }
  destruct (Query._paginate_rows_by_height _ _ _ _ _) as [pgs|].
  - exists pgs. split; [done|].
    pose proof (oversized_row_page budget rows pgs Hok Hnn) as Hown.
    destruct Hok as [Hconcat _ _ _ Hwithin Halone]. split; [exact Hconcat|]. split; [|split].
    + intros pg Hpg. by apply (proj1 (Forall_forall _ _) Hwithin).
    + intros pg r Hpg. by apply (proj1 (Forall_forall _ _) (Halone Hnn)).
    + exact Hown.
  - destruct Hok as (r & Hin & Hnone).
    apply (proj1 (Forall_forall _ _) Hsome) in Hin as (h & Hr & _). congruence.
Qed.

(** C5: the start index of every returned page is the number of rows on
    the pages before it, so that the row at position [i] of a page is
    the row of the input at index start + [i], and the stripe chosen for
    it is the parity of that index. *)
Theorem paginate_start_is_global_index (rows : list pydict)
        (max_canvas_h header_h table_header_h table_padding_h : Z) :
  match Query._paginate_rows_by_height rows max_canvas_h header_h table_header_h table_padding_h with
  | Some pgs =>
      forall k pg,
        pgs !! k = Some pg ->
        fst pg = length (concat (map snd (take k pgs)))
        /\ forall i r,
            snd pg !! i = Some r ->
            rows !! (fst pg + i)%nat = Some r
            /\ Query.stripe (fst pg) i = Nat.even (fst pg + i)
  | None => exists r, r ∈ rows /\ Query.row_height_of r = None
  end.
Proof.
  pose proof (paginate_rows_ok rows max_canvas_h header_h table_header_h table_padding_h) as Hok.
  destruct (Query._paginate_rows_by_height _ _ _ _ _) as [pgs|]; [|done].
  destruct Hok as [Hrows Hstarts _ _ _ _].
  intros k pg Hk.
  pose proof (starts_from_lookup pgs 0 k pg Hstarts Hk) as Hfst.
  split; [exact Hfst|].
  intros i r Hi. split; [|apply stripe_even].
  rewrite Hfst, <- Hrows. simpl. by eapply page_rows_lookup.
Qed.

End Pagination.

(** ** Month codes, durations and counts *)

Section Formatters.
Context `{PyEnv}.

Lemma within_digit_limit_small (n : nat) :
  (n <= 640)%nat -> within_digit_limit n = true.
Proof.
  intros Hn. unfold within_digit_limit.
  destruct max_str_digits as [lim|]; [|done].
  apply bool_decide_eq_true. lia.
Qed.

Lemma decimal_value_plain (c v : Z) :
  decimal_value c = Some v ->
  is_int_space c = false /\ (c =? 45) = false /\ (c =? 43) = false
  /\ (c =? 95) = false /\ 0 <= v <= 9.
Proof.
  unfold decimal_value, is_int_space.
  destruct ((48 <=? c) && (c <=? 57)) eqn:Hascii.
  - intros [= <-]. apply andb_true_iff in Hascii as [H1 H2].
    apply Z.leb_le in H1. apply Z.leb_le in H2.
    assert ((c <? 128) = true) as -> by lia.
    repeat split; lia.
  - destruct (c <? 128) eqn:Hlt; [done|]. intros Hnd.
    apply Z.ltb_ge in Hlt.
    repeat split; try lia.
    + by eapply nd_value_not_space.
    + by eapply nd_value_digit.
    + by eapply nd_value_digit.
Qed.

Lemma int_of_two_digits (m1 m2 v1 v2 : Z) :
  decimal_value m1 = Some v1 ->
  decimal_value m2 = Some v2 ->
  int_of_str [m1; m2] = Some (10 * v1 + v2).
Proof.
  intros H1 H2.
  destruct (decimal_value_plain _ _ H1) as (Hs1 & Hm1 & Hp1 & Hu1 & _).
  destruct (decimal_value_plain _ _ H2) as (Hs2 & Hm2 & Hp2 & Hu2 & _).
  unfold int_of_str, strip_with. simpl. rewrite Hs1. simpl. rewrite Hs2. simpl.
  rewrite Hm1, Hp1. simpl. rewrite Hu1, H1, Hu2, H2.
  rewrite within_digit_limit_small by lia. done.
Qed.

Lemma is_decimal_true (c : Z) : is_decimal c = true <-> is_Some (decimal_value c).
Proof. unfold is_decimal. apply bool_decide_eq_true. Qed.

Lemma forallb_is_decimal (cs : list Z) :
  forallb is_decimal cs = true <-> Forall (fun c => is_Some (decimal_value c)) cs.
Proof.
  rewrite forallb_forall, Forall_forall.
  split; intros Hall c Hc.
  - apply is_decimal_true, Hall. by apply list_elem_of_In.
  - apply is_decimal_true, Hall. by apply list_elem_of_In.
Qed.

Lemma month_groups_shape (text yyyy mm : pystr) :
  match Douchong.month_match_1 text with
  | Some g => Some g
  | None => Douchong.month_match_2 text
  end = Some (yyyy, mm)
  <-> month_shape text yyyy mm.
Proof.
  unfold month_shape, Douchong.month_match_1, Douchong.month_match_2.
  split.
  - destruct text as [|y1 [|y2 [|y3 [|y4 [|c5 [|c6 [|c7 [|c8 t]]]]]]]]; try done.
    + destruct (forallb is_decimal _) eqn:Hd; [|done].
      intros [= <- <-]. exists y1, y2, y3, y4, c5, c6.
      split; [by left|]. split; [|done]. by apply forallb_is_decimal.
    + destruct (c5 =? 45) eqn:Hsep; [|done]. apply Z.eqb_eq in Hsep as ->.
      destruct (forallb is_decimal _) eqn:Hd; [|done].
      intros [= <- <-]. exists y1, y2, y3, y4, c6, c7.
      split; [by right|]. split; [|done]. by apply forallb_is_decimal.
  - intros (y1 & y2 & y3 & y4 & m1 & m2 & [-> | ->] & Hd & -> & ->);
      apply forallb_is_decimal in Hd.
    + by rewrite Hd.
    + change (45 =? 45) with true. cbv beta iota. rewrite andb_true_l, Hd. done.
Qed.

Lemma normalize_month_spec (raw code : pystr) :
  Douchong.normalize_month_arg raw = Some code
  <-> exists yyyy mm v,
      month_shape (strip raw) yyyy mm
      /\ two_digit_value mm = Some v
      /\ 1 <= v <= 12
      /\ code = yyyy ++ mm.
Proof.
  unfold Douchong.normalize_month_arg.
  destruct raw as [|c raw'].
  { split; [done|].
    intros (yyyy & mm & v & (y1 & y2 & y3 & y4 & m1 & m2 & [Ht | Ht] & _) & _); done. }
  set (text := strip (c :: raw')).
  destruct (match Douchong.month_match_1 text with
            | Some g => Some g
            | None => Douchong.month_match_2 text
            end) as [[yyyy mm]|] eqn:Hg.
  - apply month_groups_shape in Hg.
    assert (Hmm : exists m1 m2 v1 v2,
               mm = [m1; m2] /\ decimal_value m1 = Some v1 /\ decimal_value m2 = Some v2).
    { destruct Hg as (y1 & y2 & y3 & y4 & m1 & m2 & _ & Hd & _ & ->).
      apply Forall_cons in Hd as [_ Hd]. apply Forall_cons in Hd as [_ Hd].
      apply Forall_cons in Hd as [_ Hd]. apply Forall_cons in Hd as [_ Hd].
      apply Forall_cons in Hd as [[v1 Hv1] Hd]. apply Forall_cons in Hd as [[v2 Hv2] _].
      by exists m1, m2, v1, v2. }
    destruct Hmm as (m1 & m2 & v1 & v2 & -> & Hv1 & Hv2).
    rewrite (int_of_two_digits _ _ _ _ Hv1 Hv2).
    assert (Htwo : two_digit_value [m1; m2] = Some (10 * v1 + v2)).
    { unfold two_digit_value. by rewrite Hv1, Hv2. }
    destruct ((1 <=? 10 * v1 + v2) && (10 * v1 + v2 <=? 12)) eqn:Hrange.
    + apply andb_true_iff in Hrange as [Hlo Hhi].
      apply Z.leb_le in Hlo. apply Z.leb_le in Hhi.
      split.
      * intros [= <-]. exists yyyy, [m1; m2], (10 * v1 + v2). by repeat split.
      * intros (yyyy' & mm' & v & Hshape & _ & _ & ->).
        apply month_groups_shape in Hshape. apply month_groups_shape in Hg.
        rewrite Hg in Hshape. by injection Hshape as <- <-.
    + split; [done|].
      intros (yyyy' & mm' & v & Hshape & Hv & Hr & _).
      apply month_groups_shape in Hshape. apply month_groups_shape in Hg.
      rewrite Hg in Hshape. injection Hshape as <- <-.
      rewrite Htwo in Hv. injection Hv as <-.
      apply andb_false_iff in Hrange as [Hlo | Hhi];
        [apply Z.leb_gt in Hlo | apply Z.leb_gt in Hhi]; lia.
  - split; [done|].
    intros (yyyy & mm & v & Hshape & _).
    apply month_groups_shape in Hshape. by rewrite Hg in Hshape.
Qed.

Lemma normalize_month_same (raw : pystr) :
  Query.normalize_month_arg raw = Douchong.normalize_month_arg raw.
Proof. reflexivity. Qed.


(** C6: ["202509"] and ["2025-09"] both normalize to ["202509"], while
    ["202513"] and ["abcdef"] give [None]; the two copies of
    [normalize_month_arg] agree; and the result is a code exactly when
    the stripped input is six digits, or four digits, a hyphen and two
    digits, whose last two digits denote a month from 1 to 12, the code
    being the six digits. *)
Theorem normalize_month_arg_codes :
  (Douchong.normalize_month_arg (u "202509") = Some (u "202509")
   /\ Douchong.normalize_month_arg (u "2025-09") = Some (u "202509")
   /\ Douchong.normalize_month_arg (u "202513") = None
   /\ Douchong.normalize_month_arg (u "abcdef") = None)
  /\ (forall raw, Query.normalize_month_arg raw = Douchong.normalize_month_arg raw)
  /\ (forall raw code,
        Douchong.normalize_month_arg raw = Some code
        <-> exists yyyy mm v,
            month_shape (strip raw) yyyy mm
            /\ two_digit_value mm = Some v
            /\ 1 <= v <= 12
            /\ code = yyyy ++ mm).
Proof.
  split; [|split; [reflexivity | apply normalize_month_spec]].
  split; [|split; [|split]].
  - cbv -[within_digit_limit]. by rewrite within_digit_limit_small by lia.
  - cbv -[within_digit_limit]. by rewrite within_digit_limit_small by lia.
  - cbv -[within_digit_limit]. by destruct (within_digit_limit 2).
  - reflexivity.
Qed.

Lemma duration_hours_fields (nd : nat) (s : pystr) :
  ~ three_int_fields s -> Douchong.duration_hours nd s = None.
Proof.
  intros Hbad. unfold Douchong.duration_hours.
  destruct (split_on 58 s) as [|ph [|pm [|ps [|x t]]]] eqn:Hsplit; try done.
  destruct (int_of_str ph) as [h|] eqn:Hh; [|done].
  destruct (int_of_str pm) as [m|] eqn:Hm; [|done].
  destruct (int_of_str ps) as [sec|] eqn:Hs; [|done].
  exfalso. apply Hbad. by exists ph, pm, ps, h, m, sec.
Qed.

Lemma int_of_str_fields :
  int_of_str (u "01") = Some 1 /\ int_of_str (u "30") = Some 30
  /\ int_of_str (u "00") = Some 0.
Proof.
  repeat split; cbv -[within_digit_limit];
    by rewrite within_digit_limit_small by lia.
Qed.

Lemma duration_hours_example (nd : nat) :
  Douchong.duration_hours nd (u "01:30:00")
  = Some (format_fixed nd (S754_finite false 6755399441055744 (-52)) ++ u "小时").
Proof.
  unfold Douchong.duration_hours.
  change (split_on 58 (u "01:30:00")) with [u "01"; u "30"; u "00"].
  destruct int_of_str_fields as (-> & -> & ->).
  reflexivity.
Qed.

(** C7, amended: [format_duration] turns ["01:30:00"] into the
    one-decimal label ["1.5小时"] and returns unchanged a string that does
    not split into three integer fields; [_format_duration_hours] turns
    ["01:30:00"] into the two-decimal label ["1.50小时"] and returns such
    a string unchanged when it is not empty. *)
Theorem duration_formatters_label (s : pystr) :
  ~ three_int_fields s ->
  Douchong.format_duration (PStr (u "01:30:00")) = Some (u "1.5小时")
  /\ Douchong.format_duration (PStr s) = Some s
  /\ Query._format_duration_hours (u "01:30:00") = u "1.50小时"
  /\ (s <> [] -> Query._format_duration_hours s = s).
Proof.
  intros Hbad.
  unfold Douchong.format_duration, Query._format_duration_hours. simpl.
  rewrite !duration_hours_example, !duration_hours_fields by done.
  split; [done|]. split; [done|]. split; [done|].
  by destruct s.
Qed.

(** C8: an absent count is drawn as the dash and the count 0 as ["0"],
    never the other way round; a key the record lacks is an absent
    count. *)
Theorem format_count_zero_not_absent :
  Douchong.format_count PNone = u "-"
  /\ Douchong.format_count (PInt 0) = u "0"
  /\ Douchong.format_count PNone <> u "0"
  /\ Douchong.format_count (PInt 0) <> u "-"
  /\ (forall (d : pydict) (k : string),
        Douchong.format_count (dict_get (delete k d) k) = u "-").
Proof.
  assert (Hzero : Douchong.format_count (PInt 0) = u "0").
  { cbv -[within_digit_limit]. by rewrite within_digit_limit_small by lia. }
  split; [done|]. split; [done|]. split; [done|]. split.
  - by rewrite Hzero.
  - intros d k. unfold dict_get. by rewrite lookup_delete_eq.
Qed.

End Formatters.

(** ** Totals *)

Section Totals.
Context `{PyEnv}.

Lemma dict_get_or_insert_ne (d : pydict) (k k' : string) (v dflt : pyval) :
  k <> k' -> dict_get_or (<[k := v]> d) k' dflt = dict_get_or d k' dflt.
Proof. intros Hne. unfold dict_get_or. by rewrite lookup_insert_ne. Qed.

Lemma dict_get_or_insert_eq (d : pydict) (k : string) (v dflt : pyval) :
  dict_get_or (<[k := v]> d) k dflt = v.
Proof. unfold dict_get_or. by rewrite lookup_insert_eq. Qed.

Lemma record_total_insert (d : pydict) (upstream : pyval) :
  Douchong.record_total (<["total" := upstream]> d) = Douchong.record_total d.
Proof.
  unfold Douchong.record_total.
  by rewrite !dict_get_or_insert_ne.
Qed.

Lemma preprocess_record_insert (d : pydict) (upstream : pyval) :
  Douchong.preprocess_record (<["total" := upstream]> d) = Douchong.preprocess_record d.
Proof.
  unfold Douchong.preprocess_record.
  by rewrite record_total_insert, insert_insert_eq.
Qed.

Lemma preprocess_record_total (d d' : pydict) :
  Douchong.preprocess_record d = Some d' ->
  d' !! "total" = Some (PFloat (Douchong.record_total d)).
Proof.
  unfold Douchong.preprocess_record.
  destruct (Douchong.format_duration _) as [dur|]; [|done]. simpl.
  destruct (Douchong.format_fans _) as [fans|]; [|done]. simpl.
  intros [= <-].
  rewrite lookup_insert_ne by done. rewrite lookup_insert_ne by done.
  by rewrite lookup_insert_eq.
Qed.

Lemma preprocess_insert (dvs : list (pydict * pyval)) :
  Douchong.preprocess (map (fun dv => <["total" := snd dv]> (fst dv)) dvs)
  = Douchong.preprocess (map fst dvs).
Proof.
  unfold Douchong.preprocess.
  induction dvs as [|[d v] dvs IH]; [done|]. simpl.
  by rewrite preprocess_record_insert, IH.
Qed.

Lemma format_duration_none (hms : pyval) :
  Douchong.format_duration hms = None -> py_str hms = None.
Proof.
  unfold Douchong.format_duration.
  by destruct (py_str hms ≫= Douchong.duration_hours 1).
Qed.

Lemma format_fans_none (attention : Z) :
  Douchong.format_fans attention = None -> str_of_int attention = None.
Proof.
  unfold Douchong.format_fans.
  by destruct (if 10000 <=? attention then _ else _).
Qed.

Lemma fields_last (d : pydict) (cells : list pystr) :
  Douchong.fields d = Some cells -> last cells = Some (Douchong.money d "total").
Proof.
  unfold Douchong.fields.
  destruct (py_str (dict_get_or d "anchor_name" _)); [|done]. simpl.
  destruct (py_str (dict_get_or d "fans_fmt" _)); [|done]. simpl.
  destruct (py_str (dict_get_or d "duration_fmt" _)); [|done]. simpl.
  destruct (py_str (dict_get_or d "effective_days" _)); [|done]. simpl.
  by intros [= <-].
Qed.

(** C1: the first loop of [render_table_image] gives the same record, and
    on a list the same records, whatever ["total"] upstream supplied; in
    its result the ["total"] entry, the sort key and the drawn total
    cell, the last of the row, are (gift + super_chat) + guard, each
    component read as a float and an absent one counted as 0; the loop
    fails only where [str()] of an over-long integer raises.  The handler
    of the revenue card does not read ["total"], and [render_liushui_card]
    has its amounts exactly when [float()] accepts the three components,
    with total (gift + guard) + sc. *)
Theorem total_recomputed_from_components (d : pydict) (upstream : pyval) :
  let gift := Douchong._to_float (dict_get_or d "gift" (PInt 0)) fzero in
  let sc := Douchong._to_float (dict_get_or d "super_chat" (PInt 0)) fzero in
  let guard := Douchong._to_float (dict_get_or d "guard" (PInt 0)) fzero in
  let total := fadd (fadd gift sc) guard in
  Douchong.preprocess_record (<["total" := upstream]> d) = Douchong.preprocess_record d
  /\ (forall dvs : list (pydict * pyval),
        Douchong.preprocess (map (fun dv => <["total" := snd dv]> (fst dv)) dvs)
        = Douchong.preprocess (map fst dvs))
  /\ match Douchong.preprocess_record d with
     | Some d' =>
         d' !! "total" = Some (PFloat total)
         /\ Douchong.sort_key d' = total
         /\ (forall cells,
               Douchong.fields d' = Some cells ->
               last cells = Some (format_fixed 1 total))
     | None =>
         py_str (dict_get_or d "live_duration" (PStr (u "00:00:00"))) = None
         \/ str_of_int (Douchong._to_int (dict_get_or d "attention" (PInt 0)) 0) = None
     end
  /\ (forall k, Douchong._to_float (dict_get_or (delete k d) k (PInt 0)) fzero = fzero)
  /\ Query.liushui_args (<["total" := upstream]> d) = Query.liushui_args d
  /\ (forall gift_value guard_value sc_value g gu s t,
        Query.liushui_amounts gift_value guard_value sc_value = Some (g, gu, s, t)
        <-> py_float (py_or gift_value (PInt 0)) = Some g
            /\ py_float (py_or guard_value (PInt 0)) = Some gu
            /\ py_float (py_or sc_value (PInt 0)) = Some s
            /\ t = fadd (fadd g gu) s).
Proof.
  intros gift sc guard total.
  split; [apply preprocess_record_insert|].
  split; [apply preprocess_insert|].
  split; [|split; [|split]].
  - destruct (Douchong.preprocess_record d) as [d'|] eqn:Hpre.
    + pose proof (preprocess_record_total d d' Hpre) as Htotal.
      split; [exact Htotal|].
      assert (Hkey : Douchong.sort_key d' = total).
      { unfold Douchong.sort_key, dict_get_or. by rewrite Htotal. }
      split; [exact Hkey|].
      intros cells Hcells. rewrite (fields_last _ _ Hcells).
      unfold Douchong.money. fold (Douchong.sort_key d'). by rewrite Hkey.
    + revert Hpre. unfold Douchong.preprocess_record.
      rewrite !dict_get_or_insert_ne by done.
      destruct (Douchong.format_duration _) as [dur|] eqn:Hdur; simpl.
      * rewrite !dict_get_or_insert_ne by done.
        destruct (Douchong.format_fans _) as [fans|] eqn:Hfans; [done|].
        intros _. right. by apply format_fans_none.
      * intros _. left. by apply format_duration_none.
  - intros k. unfold dict_get_or. by rewrite lookup_delete_eq.
  - unfold Query.liushui_args. by rewrite !dict_get_or_insert_ne.
  - intros gv guv scv g gu s t. unfold Query.liushui_amounts.
    destruct (py_float (py_or gv (PInt 0))) as [g'|]; simpl; [|by split; [|intros (? & _)]].
    destruct (py_float (py_or guv (PInt 0))) as [gu'|]; simpl; [|by split; [|intros (_ & ? & _)]].
    destruct (py_float (py_or scv (PInt 0))) as [s'|]; simpl; [|by split; [|intros (_ & _ & ? & _)]].
    split.
    + by intros [= <- <- <- <-].
    + by intros ([= <-] & [= <-] & [= <-] & ->).
Qed.

End Totals.

(** ** Truncation to a pixel budget *)

Section TruncationGeneric.
Context `{PyEnv}.

(** A width measure under which appending the suffix adds the width of
    the suffix, and which is never negative. *)
Variable measure : pystr -> Z.
Hypothesis measure_dots :
  forall a, measure (a ++ [46; 46; 46]) = measure a + measure [46; 46; 46].
Hypothesis measure_ge0 : forall a, 0 <= measure a.

Lemma measure_nil : measure [] = 0.
Proof using measure_dots. pose proof (measure_dots []) as Hz. simpl in Hz. lia. Qed.

Lemma take_fitting_fits (suf_w max_px : Z) (text : pystr) :
  forall acc,
    let r := LiveList.take_fitting measure suf_w max_px acc text in
    r = acc \/ measure r + suf_w <= max_px.
Proof using Type.
  induction text as [|ch rest IH]; intros acc; simpl; [by left|].
  destruct (max_px <? measure (acc ++ [ch]) + suf_w) eqn:Hover; [by left|].
  apply Z.ltb_ge in Hover.
  destruct (IH (acc ++ [ch])) as [-> | Hfit]; by right.
Qed.

(** The three cases of [_limit_text_by_px] on a [str]. *)
Lemma limit_text_cases (text : pystr) (max_px : Z) :
  LiveList._limit_text_by_px (Some measure) (PStr text) max_px
  = Some (if bool_decide (text = []) then []
          else if measure text <=? max_px then text
          else LiveList.take_fitting measure (measure [46; 46; 46]) max_px [] text
               ++ [46; 46; 46]).
Proof using Type.
  destruct text as [|c t]; [done|].
  unfold LiveList._limit_text_by_px. simpl.
  by destruct (_ <=? _).
Qed.

Lemma limit_text_generic (text : pystr) (max_px : Z) :
  exists out,
    LiveList._limit_text_by_px (Some measure) (PStr text) max_px = Some out
    /\ LiveList._limit_text_by_px (Some measure) (PStr out) max_px = Some out
    /\ (measure text <= max_px -> out = text)
    /\ (measure (u "...") <= max_px -> measure out <= max_px).
Proof using measure_dots measure_ge0.
  change (u "...") with [46; 46; 46].
  pose proof (measure_ge0 [46; 46; 46]) as Hsuf.
  rewrite limit_text_cases.
  destruct (bool_decide (text = [])) eqn:Hempty.
  { exists []. rewrite limit_text_cases. simpl.
    apply bool_decide_eq_true in Hempty as ->.
    rewrite measure_nil. split; [done|]. split; [done|]. split; [done | lia]. }
  destruct (measure text <=? max_px) eqn:Hfit.
  { exists text. rewrite limit_text_cases, Hempty, Hfit.
    apply Z.leb_le in Hfit. split; [done|]. split; [done|]. split; [done | lia]. }
  apply Z.leb_gt in Hfit.
  set (r := LiveList.take_fitting measure (measure [46; 46; 46]) max_px [] text).
  exists (r ++ [46; 46; 46]).
  split; [done|]. split; [|split; [lia|]].
  - rewrite limit_text_cases.
    destruct (bool_decide (@eq pystr (r ++ [46; 46; 46]) [])) eqn:Hnil;
      [apply bool_decide_eq_true in Hnil; by destruct r|].
    destruct (measure (r ++ [46; 46; 46]) <=? max_px) eqn:Hout; [done|].
    apply Z.leb_gt in Hout. rewrite measure_dots in Hout.
    destruct (take_fitting_fits (measure [46; 46; 46]) max_px text []) as [Hr | Hr];
      fold r in Hr; [|lia].
    rewrite Hr in *. rewrite measure_nil in Hout. simpl.
    pose proof (measure_ge0 [46]) as Hdot.
    assert ((max_px <? measure [46] + measure [46; 46; 46]) = true) as ->
      by (apply Z.ltb_lt; lia).
    done.
  - rewrite measure_dots.
    destruct (take_fitting_fits (measure [46; 46; 46]) max_px text []) as [Hr | Hr];
      fold r in Hr; [|lia].
    rewrite Hr, measure_nil. lia.
Qed.

End TruncationGeneric.

Section TruncationAny.
Context `{PyEnv}.
Variable measure : pystr -> Z.

Lemma take_fitting_greedy (suf_w max_px : Z) (text : pystr) :
  forall acc,
    let r := LiveList.take_fitting measure suf_w max_px acc text in
    (exists k, r = acc ++ k /\ k `prefix_of` text)
    /\ (forall p, p `prefix_of` r -> (length acc < length p)%nat -> measure p + suf_w <= max_px)
    /\ (forall c, (r ++ [c]) `prefix_of` (acc ++ text) -> max_px < measure (r ++ [c]) + suf_w).
Proof using Type.
  induction text as [|ch rest IH]; intros acc; simpl.
  - split; [exists []; split; [by rewrite app_nil_r | done]|].
    split.
    + intros p Hp Hlen. apply prefix_length in Hp. lia.
    + intros c Hc. apply prefix_length in Hc. rewrite app_nil_r, length_app in Hc. simpl in Hc. lia.
  - destruct (max_px <? measure (acc ++ [ch]) + suf_w) eqn:Hover.
    + apply Z.ltb_lt in Hover.
      split; [exists []; split; [by rewrite app_nil_r | apply prefix_nil]|].
      split.
      * intros p Hp Hlen. apply prefix_length in Hp. lia.
      * intros c Hc. apply prefix_app_inv in Hc.
        destruct Hc as [k Hk]. simpl in Hk. by inversion Hk; subst.
    + apply Z.ltb_ge in Hover.
      destruct (IH (acc ++ [ch])) as ((k & Hr & Hk) & Hfit & Hmax).
      split; [|split].
      * exists (ch :: k). split; [by rewrite Hr, <- app_assoc | by apply prefix_cons].
      * intros p Hp Hlen.
        destruct (decide (length p = S (length acc))) as [Heq | Hne].
        -- assert (p = acc ++ [ch]) as ->; [|done].
           rewrite Hr in Hp. destruct Hp as [t Ht].
           assert (length p = length (acc ++ [ch])) as Hl by (rewrite length_app; simpl; lia).
           symmetry in Ht. apply app_inj_1 in Ht as [Hpa _]; [|exact Hl]. exact Hpa.
        -- apply Hfit; [done|]. rewrite length_app. simpl. lia.
      * intros c Hc. apply Hmax. by rewrite <- app_assoc.
Qed.

Lemma limit_text_any (text : pystr) (max_px : Z) :
  measure [] = 0 ->
  let limit := fun t => LiveList._limit_text_by_px (Some measure) (PStr t) max_px in
  let kept := LiveList.take_fitting measure (measure (u "...")) max_px [] text in
  exists out,
    limit text = Some out
    /\ (text = [] \/ measure text <= max_px -> out = text)
    /\ (text <> [] -> max_px < measure text -> out = kept ++ u "...")
    /\ kept `prefix_of` text
    /\ (forall p, p `prefix_of` kept -> p <> [] -> measure p + measure (u "...") <= max_px)
    /\ (forall c, (kept ++ [c]) `prefix_of` text ->
                  max_px < measure (kept ++ [c]) + measure (u "..."))
    /\ (measure (u "...") <= max_px ->
        measure (kept ++ u "...") = measure kept + measure (u "...") ->
        (text <> [] \/ 0 <= max_px -> measure out <= max_px) /\ limit out = Some out).
Proof using Type.
  intros Hnil limit kept. unfold limit. change (u "...") with [46; 46; 46] in *.
  destruct (take_fitting_greedy (measure [46; 46; 46]) max_px text [])
    as ((k & Hr & Hk) & Hfit & Hmax).
  fold kept in Hr, Hfit, Hmax. simpl in Hr, Hmax. subst k.
  assert (Hfit' : forall p, p `prefix_of` kept -> p <> [] ->
                            measure p + measure [46; 46; 46] <= max_px).
  { intros p Hp Hne. apply Hfit; [done|]. destruct p; [done | simpl; lia]. }
  rewrite limit_text_cases.
  destruct (bool_decide (text = [])) eqn:Hempty.
  { apply bool_decide_eq_true in Hempty. exists []. rewrite limit_text_cases. simpl.
    split; [done|]. split; [by intros _|]. split; [done|]. split; [done|].
    split; [done|]. split; [done|]. intros _ _.
    split; [|done]. intros [Hne | Hpos]; [done | by rewrite Hnil]. }
  apply bool_decide_eq_false in Hempty.
  destruct (measure text <=? max_px) eqn:Hle.
  { apply Z.leb_le in Hle. exists text. rewrite limit_text_cases.
    rewrite (bool_decide_eq_false_2 _ Hempty). apply Z.leb_le in Hle as Hle'. rewrite Hle'.
    split; [done|]. split; [done|]. split; [lia|]. split; [done|].
    split; [done|]. split; [done|]. intros _ _. split; [by intros _ | done]. }
  apply Z.leb_gt in Hle. exists (kept ++ [46; 46; 46]).
  split; [done|]. split; [intros [? | ?]; [done | lia]|]. split; [done|]. split; [done|].
  split; [done|]. split; [done|]. intros Hdots Hsum.
  assert (Hw : measure (kept ++ [46; 46; 46]) <= max_px).
  { destruct (decide (kept = [])) as [-> | Hne]; [done|].
    rewrite Hsum. by apply Hfit'. }
  split; [by intros _|]. rewrite limit_text_cases.
  rewrite bool_decide_eq_false_2 by (by destruct kept).
  apply Z.leb_le in Hw. by rewrite Hw.
Qed.

End TruncationAny.

Section Truncation.
Context `{PyEnv}.

(** A drawing backend on which the width of a run, in either font, is
    additive over concatenation and never negative. *)
Variable b : Backend.
Hypothesis run_width_app :
  forall font x y,
    _text_length b font (x ++ y) = _text_length b font x + _text_length b font y.
Hypothesis run_width_nonneg : forall font x, 0 <= _text_length b font x.

Lemma text_length_nil (font : bool) : _text_length b font [] = 0.
Proof using run_width_app. pose proof (run_width_app font [] []) as Hz. simpl in Hz. lia. Qed.

Lemma fold_width_shift (runs : list (pystr * bool)) (z : Z) :
  fold_left (fun total run => total + _text_length b (snd run) (fst run)) runs z
  = z + runs_width b runs.
Proof using Type.
  unfold runs_width. revert z.
  induction runs as [|run runs IH]; intros z; simpl; [lia|].
  rewrite IH, (IH (0 + _)). lia.
Qed.

Lemma runs_width_cons (run : pystr * bool) (runs : list (pystr * bool)) :
  runs_width b (run :: runs) = _text_length b (snd run) (fst run) + runs_width b runs.
Proof using Type. unfold runs_width at 1. simpl. by rewrite fold_width_shift. Qed.

Lemma runs_width_app (r1 r2 : list (pystr * bool)) :
  runs_width b (r1 ++ r2) = runs_width b r1 + runs_width b r2.
Proof using Type.
  induction r1 as [|run r1 IH]; [done|].
  simpl. rewrite !runs_width_cons, IH. lia.
Qed.

Lemma runs_width_flush (buf : pystr) (e : bool) :
  runs_width b (flush buf e) = _text_length b e buf.
Proof using run_width_app.
  destruct buf; simpl.
  - by rewrite text_length_nil.
  - rewrite runs_width_cons. simpl. unfold runs_width. simpl. lia.
Qed.

Lemma runs_width_nonneg (runs : list (pystr * bool)) : 0 <= runs_width b runs.
Proof using run_width_nonneg.
  induction runs as [|run runs IH]; [done|].
  rewrite runs_width_cons. pose proof (run_width_nonneg (snd run) (fst run)). lia.
Qed.

Lemma measure_runs_width (s : pystr) :
  _measure_with_fallback b s = runs_width b (_split_runs_by_emoji s).
Proof using Type. reflexivity. Qed.

Lemma split_runs_loop_empty (ch : Z) (rest : pystr) (e : bool) :
  split_runs_loop (ch :: rest) [] e
  = split_runs_loop rest [ch] (if is_attaching ch then true else _is_emoji_char ch).
Proof using Type. simpl. by destruct (is_attaching ch). Qed.

Lemma split_runs_loop_filled (ch : Z) (rest buf : pystr) (e : bool) :
  buf <> [] ->
  split_runs_loop (ch :: rest) buf e
  = if is_attaching ch || Bool.eqb (_is_emoji_char ch) e
    then split_runs_loop rest (buf ++ [ch]) e
    else flush buf e ++ split_runs_loop rest [ch] (_is_emoji_char ch).
Proof using Type.
  intros Hbuf. destruct buf as [|x buf']; [done|].
  simpl. by destruct (is_attaching ch).
Qed.

Lemma split_runs_loop_plain (t : pystr) :
  Forall plain_char t ->
  forall buf e,
    runs_width b (split_runs_loop t buf e)
    = _text_length b e buf + _text_length b false t.
Proof using run_width_app.
  induction 1 as [|c t [Hatt Hemo] Ht IH]; intros buf e.
  - simpl. rewrite runs_width_flush, text_length_nil. lia.
  - change (c :: t) with ([c] ++ t) at 2. rewrite (run_width_app false [c] t).
    destruct (decide (buf = [])) as [-> | Hbuf].
    + rewrite split_runs_loop_empty, Hatt, Hemo, IH, text_length_nil. lia.
    + rewrite split_runs_loop_filled, Hatt, Hemo by done.
      destruct e; simpl.
      * rewrite runs_width_app, runs_width_flush, IH. lia.
      * rewrite IH, run_width_app. lia.
Qed.

Lemma split_runs_loop_suffix (t : pystr) :
  Forall plain_char t ->
  forall s buf e,
    runs_width b (split_runs_loop (s ++ t) buf e)
    = runs_width b (split_runs_loop s buf e) + _text_length b false t.
Proof using run_width_app.
  intros Ht. induction s as [|ch rest IH]; intros buf e.
  - simpl. by rewrite split_runs_loop_plain, runs_width_flush.
  - simpl. destruct (is_attaching ch).
    + destruct buf; apply IH.
    + destruct buf as [|x buf']; [apply IH|].
      destruct (Bool.eqb _ e); [apply IH|].
      rewrite !runs_width_app, IH. lia.
Qed.

Lemma measure_plain (t : pystr) :
  Forall plain_char t -> _measure_with_fallback b t = _text_length b false t.
Proof using run_width_app.
  intros Ht. rewrite measure_runs_width.
  destruct t as [|c t']; [by rewrite text_length_nil|].
  unfold _split_runs_by_emoji.
  rewrite split_runs_loop_plain, text_length_nil by done. lia.
Qed.

Lemma measure_suffix (s t : pystr) :
  Forall plain_char t ->
  _measure_with_fallback b (s ++ t)
  = _measure_with_fallback b s + _measure_with_fallback b t.
Proof using run_width_app.
  intros Ht. rewrite (measure_plain t Ht).
  destruct s as [|c s']; [simpl; rewrite measure_plain by done; cbn; lia|].
  rewrite !measure_runs_width.
  change (_split_runs_by_emoji ((c :: s') ++ t))
    with (split_runs_loop ((c :: s') ++ t) [] false).
  change (_split_runs_by_emoji (c :: s')) with (split_runs_loop (c :: s') [] false).
  by rewrite split_runs_loop_suffix.
Qed.

Lemma measure_nonneg (s : pystr) : 0 <= _measure_with_fallback b s.
Proof using run_width_nonneg. rewrite measure_runs_width. apply runs_width_nonneg. Qed.

Lemma dots_plain : Forall plain_char (u "...").
Proof using Type. repeat constructor. Qed.

End Truncation.

Section TruncationCanvas.
Context `{PyEnv}.

(** C4, amended: on every canvas [_limit_text_by_px] returns; the empty
    text and a text whose measured width is at most [max_px] are
    returned unchanged; any other text gives [kept ++ "..."], where
    [kept] is the longest prefix of the text all of whose non-empty
    prefixes, together with the width of ["..."], fit in [max_px]. When
    [max_px] is at least the width of ["..."] and the width of
    [kept ++ "..."] is the sum of the widths of [kept] and of ["..."],
    a second application changes nothing and the output is no wider
    than [max_px], unless the text is empty and [max_px] negative. *)
Theorem limit_text_by_px_any_canvas (b : Backend) (text : pystr) (max_px : Z) :
  let measure := _measure_with_fallback b in
  let limit := fun t => LiveList._limit_text_by_px (Some measure) (PStr t) max_px in
  let kept := LiveList.take_fitting measure (measure (u "...")) max_px [] text in
  exists out,
    limit text = Some out
    /\ (text = [] \/ measure text <= max_px -> out = text)
    /\ (text <> [] -> max_px < measure text -> out = kept ++ u "...")
    /\ kept `prefix_of` text
    /\ (forall p, p `prefix_of` kept -> p <> [] -> measure p + measure (u "...") <= max_px)
    /\ (forall c, (kept ++ [c]) `prefix_of` text ->
                  max_px < measure (kept ++ [c]) + measure (u "..."))
    /\ (measure (u "...") <= max_px ->
        measure (kept ++ u "...") = measure kept + measure (u "...") ->
        (text <> [] \/ 0 <= max_px -> measure out <= max_px) /\ limit out = Some out).
Proof. by apply limit_text_any. Qed.

End TruncationCanvas.

(** ** The properties on concrete inputs *)

Section Concrete.

#[local] Existing Instance ascii_env.

(** Three rows of heights 200, 10 and 10 under a budget of 100. *)
Lemma paginate_within_budget_witness :
  let rows := [row_of_height 200; row_of_height 10; row_of_height 10] in
  let budget := Query.data_budget 100 0 0 0 in
  Forall nonneg_int_height rows
  /\ budget = Z.max 1 (100 - 0 - 0 - 0)
  /\ exists pgs,
      Query._paginate_rows_by_height rows 100 0 0 0 = Some pgs
      /\ concat (map snd pgs) = rows
      /\ (forall pg, pg ∈ pgs -> (2 <= length (snd pg))%nat -> height_sum (snd pg) <= budget)
      /\ (forall pg r, pg ∈ pgs -> r ∈ snd pg -> budget < row_h r -> snd pg = [r])
      /\ (forall i r,
            rows !! i = Some r ->
            budget < row_h r ->
            exists k,
              pgs !! k = Some (i, [r])
              /\ forall k' pg' j,
                  pgs !! k' = Some pg' ->
                  (j < length (snd pg'))%nat ->
                  (fst pg' + j)%nat = i ->
                  k' = k).
Proof.
  intros rows budget.
  assert (Hrows : Forall nonneg_int_height rows).
  { repeat constructor; eexists; (split; [apply lookup_singleton_eq | lia]). }
  split; [exact Hrows|].
  exact (paginate_within_budget rows 100 0 0 0 Hrows).
Defined.

(** C7 as stated fails on [_format_duration_hours], which gives two
    decimals. *)
Lemma format_duration_hours_differs :
  Query._format_duration_hours (u "01:30:00") = u "1.50小时"
  /\ Query._format_duration_hours (u "01:30:00") <> u "1.5小时".
Proof. by vm_compute. Qed.

Lemma duration_formatters_label_witness :
  ~ three_int_fields (u "bad")
  /\ Douchong.format_duration (PStr (u "01:30:00")) = Some (u "1.5小时")
  /\ Douchong.format_duration (PStr (u "bad")) = Some (u "bad")
  /\ Query._format_duration_hours (u "01:30:00") = u "1.50小时"
  /\ (u "bad" <> [] -> Query._format_duration_hours (u "bad") = u "bad").
Proof.
  assert (Hbad : ~ three_int_fields (u "bad")).
  { intros (ph & pm & ps & h & m & sec & Hsplit & _). vm_compute in Hsplit. discriminate. }
  split; [exact Hbad|].
  exact (duration_formatters_label (u "bad") Hbad).
Defined.

(** C4 as stated fails in three ways. When the budget is below the
    width of the suffix: at ten pixels a character, ["abcd"] cut to 20
    pixels gives ["..."], 30 pixels wide. When widths are truncated to
    whole pixels: with a font of 7.3 pixels a character and 0.6 pixels
    a full stop, ["..."] is 1 pixel wide and ["aa"] cut to 8 pixels
    gives ["a..."], 9 pixels wide, which a second cut turns into
    ["a...."]. And the empty text is returned as it is under a negative
    budget. *)
Lemma limit_text_by_px_overflows :
  (let measure := _measure_with_fallback no_metrics in
   LiveList._limit_text_by_px (Some measure) (PStr (u "abcd")) 20 = Some (u "...")
   /\ 20 < measure (u "..."))
  /\ (let measure := _measure_with_fallback subpixel_metrics in
      measure (u "...") <= 8
      /\ LiveList._limit_text_by_px (Some measure) (PStr (u "aa")) 8 = Some (u "a...")
      /\ 8 < measure (u "a...")
      /\ LiveList._limit_text_by_px (Some measure) (PStr (u "a...")) 8 = Some (u "a...."))
  /\ (let measure := _measure_with_fallback no_metrics in
      LiveList._limit_text_by_px (Some measure) (PStr []) (-1) = Some []
      /\ -1 < measure []).
Proof. by vm_compute. Qed.

(** At ten pixels a character, ["abcdefgh"] cut to 50 pixels. *)
Lemma limit_text_by_px_any_canvas_witness :
  let measure := _measure_with_fallback no_metrics in
  let limit := fun t => LiveList._limit_text_by_px (Some measure) (PStr t) 50 in
  measure (u "...") <= 50
  /\ measure (u "ab" ++ u "...") = measure (u "ab") + measure (u "...")
  /\ limit (u "abcdefgh") = Some (u "ab...")
  /\ measure (u "ab...") <= 50
  /\ limit (u "ab...") = Some (u "ab...").
Proof.
  intros measure limit.
  assert (Hdots : measure (u "...") <= 50) by (by vm_compute).
  assert (Hsum : measure (u "ab" ++ u "...") = measure (u "ab") + measure (u "...")).
  { by vm_compute. }
  split; [exact Hdots|]. split; [exact Hsum|].
  assert (Hlimit : limit (u "abcdefgh") = Some (u "ab...")) by (by vm_compute).
  pose proof (limit_text_by_px_any_canvas no_metrics (u "abcdefgh") 50) as Hany.
  cbv zeta beta in Hany. fold measure in Hany.
  destruct Hany as (out & Hout & _ & _ & _ & _ & _ & Hgood).
  change (limit (u "abcdefgh") = Some out) in Hout.
  rewrite Hlimit in Hout. injection Hout as <-.
  destruct (Hgood Hdots Hsum) as [Hwidth Hidem].
  split; [exact Hlimit|]. split; [apply Hwidth; right; lia | exact Hidem].
Defined.

End Concrete.

(** * Further properties *)

(** ** Runs *)

Section Runs.
Context `{PyEnv}.

Lemma attaching_is_emoji (c : Z) : is_attaching c = true -> _is_emoji_char c = true.
Proof. unfold _is_emoji_char. by intros ->. Qed.

Lemma alternating_cons (run : pystr * bool) (runs : list (pystr * bool)) :
  alternating runs ->
  (forall r2, head runs = Some r2 -> snd run <> snd r2) ->
  alternating (run :: runs).
Proof. intros Ha Hh. destruct runs as [|r2 rest]; simpl; [done|]. split; [by apply Hh | done]. Qed.

Lemma split_runs_loop_head (s : pystr) :
  forall buf e r,
    buf <> [] ->
    head (split_runs_loop s buf e) = Some r -> snd r = e.
Proof.
  induction s as [|ch rest IH]; intros buf e r Hbuf.
  - destruct buf; [done|]. simpl. by intros [= <-].
  - rewrite split_runs_loop_filled by done.
    destruct (is_attaching ch || Bool.eqb (_is_emoji_char ch) e).
    + apply IH. by destruct buf.
    + destruct buf; [done|]. simpl. by intros [= <-].
Qed.

Lemma split_runs_loop_alternating (s : pystr) :
  forall buf e, alternating (split_runs_loop s buf e).
Proof.
  induction s as [|ch rest IH]; intros buf e.
  - destruct buf; simpl; done.
  - destruct (decide (buf = [])) as [-> | Hbuf].
    + rewrite split_runs_loop_empty. apply IH.
    + rewrite split_runs_loop_filled by done.
      destruct (is_attaching ch) eqn:Hatt; simpl; [apply IH|].
      destruct (Bool.eqb (_is_emoji_char ch) e) eqn:Hcls; [apply IH|].
      destruct buf as [|x buf']; [done|]. simpl flush. simpl app.
      apply alternating_cons; [apply IH|].
      intros r2 Hr2. apply split_runs_loop_head in Hr2; [|done]. simpl.
      rewrite Hr2. intros ->. by rewrite eqb_reflx in Hcls.
Qed.

(** X1: two consecutive runs yielded by [_split_runs_by_emoji] never have
    the same class: a new run starts only where the class changes. *)
Theorem split_runs_alternate (s : pystr) : alternating (_split_runs_by_emoji s).
Proof. destruct s; [done|]. apply split_runs_loop_alternating. Qed.

Lemma run_chars_ok_single (ch : Z) :
  run_chars_ok ([ch], if is_attaching ch then true else _is_emoji_char ch).
Proof.
  unfold run_chars_ok. simpl.
  destruct (is_attaching ch) eqn:Hatt.
  - constructor; [by apply attaching_is_emoji | constructor].
  - destruct (_is_emoji_char ch) eqn:Hemo.
    + by constructor.
    + split; [constructor; [by left | constructor]|]. by intros c [= <-].
Qed.

Lemma run_chars_ok_snoc (buf : pystr) (e : bool) (ch : Z) :
  buf <> [] ->
  run_chars_ok (buf, e) ->
  is_attaching ch || Bool.eqb (_is_emoji_char ch) e = true ->
  run_chars_ok (buf ++ [ch], e).
Proof.
  intros Hbuf Hok Hch. unfold run_chars_ok in *. simpl in *.
  apply orb_true_iff in Hch.
  destruct e.
  - apply Forall_app. split; [done|]. constructor; [|constructor].
    destruct Hch as [Hatt | Hcls]; [by apply attaching_is_emoji|].
    by destruct (_is_emoji_char ch).
  - destruct Hok as [Hall Hhead]. split.
    + apply Forall_app. split; [done|]. constructor; [|constructor].
      destruct Hch as [Hatt | Hcls]; [by right|]. left.
      by destruct (_is_emoji_char ch).
    + destruct buf; [done|]. exact Hhead.
Qed.

Lemma split_runs_loop_chars (s : pystr) :
  forall buf e,
    (buf <> [] -> run_chars_ok (buf, e)) ->
    Forall run_chars_ok (split_runs_loop s buf e).
Proof.
  induction s as [|ch rest IH]; intros buf e Hok.
  - destruct buf; simpl; [constructor|]. constructor; [by apply Hok | constructor].
  - destruct (decide (buf = [])) as [-> | Hbuf].
    + rewrite split_runs_loop_empty. apply IH. intros _. apply run_chars_ok_single.
    + rewrite split_runs_loop_filled by done.
      destruct (is_attaching ch || Bool.eqb (_is_emoji_char ch) e) eqn:Hch.
      * apply IH. intros _. by apply run_chars_ok_snoc; [|apply Hok|].
      * apply orb_false_iff in Hch as [Hatt _].
        apply Forall_app. split.
        -- destruct buf; [done|]. constructor; [by apply Hok | constructor].
        -- apply IH. intros _.
           pose proof (run_chars_ok_single ch) as Hs. by rewrite Hatt in Hs.
Qed.

(** X2: a run marked as emoji holds only emoji characters, and a run
    marked as text holds only characters that are no emoji or are
    attaching marks, and never starts with an attaching mark. *)
Theorem split_runs_homogeneous (s : pystr) :
  Forall run_chars_ok (_split_runs_by_emoji s).
Proof. destruct s; [constructor|]. by apply split_runs_loop_chars. Qed.

End Runs.

(** ** Pagination, continued *)

Section PaginationMore.
Context `{PyEnv}.

Lemma greedy_pages_snoc (budget : Z) (pgs : list Query.page) (p q : Query.page) :
  greedy_pages budget (pgs ++ [p]) ->
  (forall r, head (snd q) = Some r -> budget < height_sum (snd p) + row_h r) ->
  greedy_pages budget ((pgs ++ [p]) ++ [q]).
Proof.
  induction pgs as [|x pgs IH]; intros Hg Hq; simpl in *.
  - split; [|done]. intros p2 r [= <-]. apply Hq.
  - destruct Hg as [Hx Hg]. split; [|by apply IH].
    intros p2 r Hp2. apply Hx.
    by destruct pgs.
Qed.

Lemma greedy_pages_last (budget : Z) (pgs : list Query.page) (s s' : nat) (rs rs' : list pydict) :
  head rs = head rs' ->
  greedy_pages budget (pgs ++ [(s, rs)]) ->
  greedy_pages budget (pgs ++ [(s', rs')]).
Proof.
  intros Hhead. induction pgs as [|x pgs IH]; intros Hg; simpl in *; [done|].
  destruct Hg as [Hx Hg]. split; [|by apply IH].
  intros p2 r Hp2 Hr. destruct pgs as [|y pgs]; simpl in *.
  - injection Hp2 as <-. simpl in Hr. rewrite <- Hhead in Hr. by eapply Hx.
  - by eapply Hx.
Qed.

Lemma paginate_step_greedy (budget : Z) (st st' : Query.pager) (seen : list pydict) (r : pydict) :
  pager_inv budget st seen ->
  pager_greedy budget st ->
  Query.paginate_step budget st r = Some st' ->
  pager_greedy budget st'.
Proof.
  intros Hinv [Hcur Hg]. unfold Query.paginate_step.
  destruct (Query.row_height_of r) as [rh|] eqn:Hrh; simpl; [|done].
  pose proof (row_h_some r rh Hrh) as Hr.
  destruct (Query.cur st) as [|c cs] eqn:Hc.
  - intros [= <-]. split; simpl; [by rewrite Hc|].
    rewrite Hc, (Hcur eq_refl). simpl. done.
  - destruct (budget <? Query.cur_h st + rh) eqn:Hfit.
    + apply Z.ltb_lt in Hfit. intros [= <-]. split; simpl; [done|].
      rewrite Hc. apply greedy_pages_snoc; [done|].
      cbn [snd head]. intros r0 [= <-].
      destruct Hinv as [_ _ _ _ _ Hcurh _ _ _ _]. rewrite Hc in Hcurh.
      rewrite <- Hcurh, Hr. done.
    + intros [= <-]. split; simpl; [by rewrite Hc|].
      rewrite Hc. by eapply greedy_pages_last; [|exact Hg].
Qed.

Lemma paginate_loop_greedy (budget : Z) (rows : list pydict) :
  forall st st' seen,
    pager_inv budget st seen ->
    pager_greedy budget st ->
    Query.paginate_loop budget st rows = Some st' ->
    pager_greedy budget st'.
Proof.
  induction rows as [|r rows IH]; intros st st' seen Hinv Hg; simpl.
  - by intros [= <-].
  - pose proof (paginate_step_inv budget st seen r Hinv) as Hstep.
    destruct (Query.paginate_step budget st r) as [st1|] eqn:Hst1; simpl; [|done].
    intros Hrest.
    refine (IH st1 st' (seen ++ [r]) Hstep _ Hrest).
    exact (paginate_step_greedy budget st st1 seen r Hinv Hg Hst1).
Qed.

Lemma pages_count (pgs : list Query.page) :
  Forall (fun pg => snd pg <> []) pgs -> (length pgs <= length (page_rows pgs))%nat.
Proof.
  induction 1 as [|pg pgs Hpg Hall IH]; [done|].
  unfold page_rows in *. simpl. rewrite length_app.
  destruct (snd pg); [done|]. simpl. lia.
Qed.

(** X3: pagination is greedy: a page is closed only when the row that
    opens the next page would not fit on it; for a non-empty input no
    returned page is empty; and there are never more pages than rows
    (one page for the empty input). *)
Theorem paginate_greedy (rows : list pydict)
        (max_canvas_h header_h table_header_h table_padding_h : Z) :
  match Query._paginate_rows_by_height rows max_canvas_h header_h table_header_h table_padding_h with
  | Some pgs =>
      greedy_pages (Query.data_budget max_canvas_h header_h table_header_h table_padding_h) pgs
      /\ (rows <> [] -> Forall (fun pg => snd pg <> []) pgs)
      /\ (length pgs <= Nat.max 1 (length rows))%nat
  | None => exists r, r ∈ rows /\ Query.row_height_of r = None
  end.
Proof.
  unfold Query._paginate_rows_by_height.
  set (budget := Query.data_budget _ _ _ _).
  pose proof (paginate_loop_inv budget rows Query.pager_init [] (pager_inv_init budget)) as Hloop.
  pose proof (paginate_loop_greedy budget rows Query.pager_init) as Hgreedy.
  destruct (Query.paginate_loop budget Query.pager_init rows) as [st|]; simpl in *; [|done].
  specialize (Hgreedy st [] (pager_inv_init budget)).
  destruct Hgreedy as [Hcur Hg]; [by split | done |].
  destruct Hloop as [Hrows _ _ _ Hne _ _ _ _ _].
  destruct (Query.cur st) as [|c cs] eqn:Hc.
  - rewrite (Hcur eq_refl) in *. simpl in *. subst rows.
    split; [done|]. split; [done | simpl; lia].
  - assert (Hall : Forall (fun pg : Query.page => snd pg <> [])
                     (Query.pages st ++ [(Query.start_idx st, c :: cs)])).
    { apply Forall_app. split; [done|]. by repeat constructor. }
    destruct (Query.pages st ++ [(Query.start_idx st, c :: cs)]) as [|p ps] eqn:Hp;
      [by apply app_eq_nil in Hp as [_ ?]|].
    split; [done|]. split; [done|].
    pose proof (pages_count _ Hall) as Hcount.
    rewrite <- Hp, page_rows_snoc in Hcount. simpl in Hcount.
    rewrite Hrows in Hcount. rewrite <- Hp. lia.
Qed.

End PaginationMore.

(** ** Decimal text and durations *)

Section DecimalText.
Context `{PyEnv}.

Lemma uint_codes_digits (d : Decimal.uint) : Forall ascii_digit (uint_codes d).
Proof. induction d; simpl; constructor; (done || (unfold ascii_digit; lia)). Qed.

Lemma uint_codes_length (d : Decimal.uint) :
  Z.of_nat (length (uint_codes d)) = Z.of_N (Unsigned.usize d).
Proof. induction d; simpl length; simpl Unsigned.usize; lia. Qed.

Lemma of_uint_cons_value (k : positive) (r : Decimal.uint) :
  Z.of_N (N.pos (Pos.of_uint_acc r k))
  = Z.pos k * 10 ^ Z.of_N (Unsigned.usize r) + Z.of_N (Pos.of_uint r).
Proof.
  rewrite Unsigned.of_uint_acc_rev, Unsigned.of_uint_alt.
  rewrite N2Z.inj_add, N2Z.inj_mul, N2Z.inj_pow. simpl Z.of_N at 2 3. lia.
Qed.

Lemma digits_value_uint (d : Decimal.uint) :
  forall acc,
    digits_value acc (uint_codes d)
    = acc * 10 ^ Z.of_N (Unsigned.usize d) + Z.of_N (Pos.of_uint d).
Proof.
  unfold digits_value.
  induction d; intros acc; simpl uint_codes; simpl fold_left; simpl Unsigned.usize;
    [simpl; lia | ..];
    rewrite IHd, N2Z.inj_succ, Z.pow_succ_r by lia;
    simpl Pos.of_uint; rewrite ?of_uint_cons_value; lia.
Qed.

Lemma digits_value_nat_digits (n : Z) : 0 <= n -> digits_value 0 (nat_digits n) = n.
Proof.
  intros Hn. unfold nat_digits. rewrite digits_value_uint.
  change (Pos.of_uint (N.to_uint (Z.to_N n))) with (N.of_uint (N.to_uint (Z.to_N n))).
  rewrite DecimalN.Unsigned.of_to. lia.
Qed.

Lemma ascii_digit_value (c : Z) : ascii_digit c -> decimal_value c = Some (c - 48).
Proof.
  intros [Hlo Hhi]. unfold decimal_value.
  assert ((48 <=? c) && (c <=? 57) = true) as -> by lia. done.
Qed.

Lemma ascii_digit_plain (c : Z) :
  ascii_digit c ->
  is_int_space c = false /\ (c =? 45) = false /\ (c =? 43) = false
  /\ (c =? 95) = false /\ (c =? 58) = false.
Proof.
  intros Hc. pose proof (decimal_value_plain c _ (ascii_digit_value c Hc)) as (? & ? & ? & ? & _).
  destruct Hc. repeat split; try done. lia.
Qed.

Lemma int_digits_ascii (ds : pystr) :
  Forall ascii_digit ds ->
  forall after acc n,
    ds <> [] \/ after = true ->
    int_digits ds after acc n = Some (digits_value acc ds, (n + length ds)%nat).
Proof.
  induction 1 as [|c ds Hc Hds IH]; intros after acc n Hne; simpl.
  - destruct Hne as [? | ->]; [done|]. by rewrite Nat.add_0_r.
  - destruct (ascii_digit_plain c Hc) as (_ & _ & _ & -> & _).
    rewrite (ascii_digit_value c Hc), IH by (by right).
    unfold digits_value. simpl. do 2 f_equal. lia.
Qed.

Lemma lstrip_with_head (p : Z -> bool) (s : pystr) :
  (forall c, head s = Some c -> p c = false) -> lstrip_with p s = s.
Proof. destruct s as [|c s]; [done|]. intros Hc. simpl. by rewrite (Hc c). Qed.

Lemma head_rev_last {A} (l : list A) : head (rev l) = last l.
Proof.
  induction l as [|x l IH]; [done|].
  rewrite last_cons, <- IH. simpl. by destruct (rev l).
Qed.

Lemma strip_with_ends (p : Z -> bool) (s : pystr) :
  (forall c, head s = Some c -> p c = false) ->
  (forall c, last s = Some c -> p c = false) ->
  strip_with p s = s.
Proof.
  intros Hh Hl. unfold strip_with.
  rewrite (lstrip_with_head p s Hh), lstrip_with_head, rev_involutive; [done|].
  intros c Hc. apply Hl. by rewrite <- head_rev_last.
Qed.

Lemma Forall_head_last {A} (P : A -> Prop) (l : list A) :
  Forall P l -> (forall x, head l = Some x -> P x) /\ (forall x, last l = Some x -> P x).
Proof.
  intros Hall. split; intros x Hx.
  - apply head_Some_elem_of in Hx. by eapply (proj1 (Forall_forall _ _)).
  - apply last_Some_elem_of in Hx. by eapply (proj1 (Forall_forall _ _)).
Qed.

(** [int()] reads back a non-empty sequence of ASCII digits, with or
    without a minus sign before it. *)
Lemma int_of_str_digits (neg : bool) (ds : pystr) :
  Forall ascii_digit ds ->
  ds <> [] ->
  within_digit_limit (length ds) = true ->
  int_of_str (if neg then 45 :: ds else ds)
  = Some (if neg then - digits_value 0 ds else digits_value 0 ds).
Proof.
  intros Hds Hne Hlim.
  destruct (Forall_head_last _ _ Hds) as [Hhead Hlast].
  assert (Hstrip : strip_with is_int_space (if neg then 45 :: ds else ds)
                   = (if neg then 45 :: ds else ds)).
  { apply strip_with_ends.
    - destruct neg; [by intros c [= <-]|].
      intros c Hc. by apply ascii_digit_plain, Hhead.
    - intros c Hc. apply ascii_digit_plain, Hlast.
      destruct neg; [|done]. destruct ds; [done|]. by rewrite last_cons_cons in Hc. }
  unfold int_of_str. rewrite Hstrip.
  destruct neg.
  - change (45 =? 45) with true. cbv beta iota.
    rewrite int_digits_ascii by (done || by left). simpl. by rewrite Hlim.
  - destruct ds as [|c ds']; [done|].
    destruct (ascii_digit_plain c (Hhead c eq_refl)) as (_ & -> & -> & _).
    rewrite int_digits_ascii by (done || by left). simpl in Hlim |- *. by rewrite Hlim.
Qed.

Lemma nat_digits_digits (n : Z) : Forall ascii_digit (nat_digits n).
Proof. apply uint_codes_digits. Qed.

Lemma nat_digits_nonempty (n : Z) : nat_digits n <> [].
Proof.
  unfold nat_digits. destruct (Z.to_N n) as [|p]; [done|]. simpl.
  pose proof (Unsigned.to_uint_nonnil p) as Hp. by destruct (Pos.to_uint p).
Qed.

Lemma str_of_int_read_back (z : Z) (s : pystr) :
  str_of_int z = Some s -> int_of_str s = Some z.
Proof.
  unfold str_of_int.
  destruct (within_digit_limit _) eqn:Hlim; [|done]. intros [= <-].
  destruct (z <? 0) eqn:Hneg.
  - rewrite (int_of_str_digits true _ (nat_digits_digits _) (nat_digits_nonempty _) Hlim).
    rewrite digits_value_nat_digits by lia. f_equal. lia.
  - rewrite (int_of_str_digits false _ (nat_digits_digits _) (nat_digits_nonempty _) Hlim).
    rewrite digits_value_nat_digits by lia. f_equal. lia.
Qed.

Lemma within_digit_limit_max (n : nat) :
  within_digit_limit n = true -> within_digit_limit (Nat.max 2 n) = true.
Proof.
  unfold within_digit_limit. destruct max_str_digits as [lim|]; [|done].
  rewrite !bool_decide_eq_true. lia.
Qed.

Lemma digits_value_zeros (k : nat) (ds : pystr) :
  digits_value 0 (replicate k 48 ++ ds) = digits_value 0 ds.
Proof. unfold digits_value. induction k as [|k IH]; [done|]. simpl. exact IH. Qed.

Lemma zero_pad_digits (w : nat) (n : Z) : Forall ascii_digit (zero_pad w n).
Proof.
  unfold zero_pad. apply Forall_app. split; [|apply nat_digits_digits].
  apply Forall_replicate. unfold ascii_digit. lia.
Qed.

Lemma zero_pad_length (w : nat) (n : Z) :
  length (zero_pad w n) = Nat.max w (length (nat_digits n)).
Proof. unfold zero_pad. rewrite length_app, length_replicate. lia. Qed.

Lemma zero_pad_read_back (n : Z) :
  0 <= n ->
  within_digit_limit (length (nat_digits n)) = true ->
  int_of_str (zero_pad 2 n) = Some n.
Proof.
  intros Hn Hlim.
  pose proof (int_of_str_digits false (zero_pad 2 n) (zero_pad_digits 2 n)) as Hread.
  simpl in Hread. rewrite Hread.
  - unfold zero_pad. by rewrite digits_value_zeros, digits_value_nat_digits.
  - unfold zero_pad. pose proof (nat_digits_nonempty n). by destruct (replicate _ _), (nat_digits n).
  - rewrite zero_pad_length. by apply within_digit_limit_max.
Qed.

Lemma split_on_field (sep : Z) (a rest : pystr) :
  Forall (fun c => (c =? sep) = false) a ->
  split_on sep (a ++ sep :: rest) = a :: split_on sep rest.
Proof.
  induction 1 as [|c a Hc Ha IH]; simpl.
  - by rewrite Z.eqb_refl.
  - by rewrite Hc, IH.
Qed.

Lemma split_on_last (sep : Z) (a : pystr) :
  Forall (fun c => (c =? sep) = false) a -> split_on sep a = [a].
Proof. induction 1 as [|c a Hc Ha IH]; simpl; [done|]. by rewrite Hc, IH. Qed.

Lemma digits_no_colon (ds : pystr) :
  Forall ascii_digit ds -> Forall (fun c => (c =? 58) = false) ds.
Proof. intros Hds. eapply Forall_impl; [exact Hds|]. intros c Hc. by apply ascii_digit_plain. Qed.

Lemma format_02d_nonneg (z : Z) (out : pystr) :
  0 <= z ->
  format_02d z = Some out ->
  out = zero_pad 2 z /\ int_of_str out = Some z /\ (2 <= length out)%nat.
Proof.
  intros Hz. unfold format_02d.
  rewrite Z.abs_eq by done.
  destruct (within_digit_limit _) eqn:Hlim; [|done].
  assert ((z <? 0) = false) as -> by lia. intros [= <-].
  split; [done|]. split; [by apply zero_pad_read_back|].
  rewrite zero_pad_length. lia.
Qed.

Lemma format_02d_small (z : Z) :
  0 <= z < 60 -> format_02d z = Some (zero_pad 2 z) /\ length (zero_pad 2 z) = 2%nat.
Proof.
  intros Hz. unfold format_02d.
  assert (Hlen : (length (nat_digits z) <= 2)%nat).
  { assert (Hcases : exists k : nat, (k < 60)%nat /\ z = Z.of_nat k)
      by (exists (Z.to_nat z); lia).
    destruct Hcases as (k & Hk & ->).
    do 60 (destruct k as [|k]; [vm_compute; lia|]). lia. }
  rewrite Z.abs_eq by lia.
  rewrite within_digit_limit_small by lia.
  assert ((z <? 0) = false) as -> by lia.
  split; [done|]. rewrite zero_pad_length.
  pose proof (nat_digits_nonempty z). destruct (nat_digits z); [done|]. simpl in *. lia.
Qed.

Lemma sec_to_hms_spec (total_seconds : Z) :
  match Query._sec_to_hms total_seconds with
  | Some out =>
      hms_seconds out = Some (Z.max 0 total_seconds)
      /\ exists hh mm ss,
          out = hh ++ [58] ++ mm ++ [58] ++ ss
          /\ (2 <= length hh)%nat /\ length mm = 2%nat /\ length ss = 2%nat
          /\ Forall ascii_digit (hh ++ mm ++ ss)
  | None => within_digit_limit (length (nat_digits (Z.max 0 total_seconds / 3600))) = false
  end.
Proof.
  unfold Query._sec_to_hms.
  assert (Hclamp : (if total_seconds <? 0 then 0 else total_seconds) = Z.max 0 total_seconds)
    by (destruct (total_seconds <? 0) eqn:Hneg; lia).
  rewrite Hclamp. set (t := Z.max 0 total_seconds).
  assert (Ht : 0 <= t) by lia.
  assert (Hh : 0 <= t / 3600) by (apply Z.div_pos; lia).
  assert (Hm : 0 <= t mod 3600 / 60 < 60).
  { pose proof (Z.mod_pos_bound t 3600 ltac:(lia)).
    split; [apply Z.div_pos; lia|]. apply Z.div_lt_upper_bound; lia. }
  assert (Hs : 0 <= t mod 60 < 60) by (apply Z.mod_pos_bound; lia).
  destruct (format_02d_small _ Hm) as [Hmm Hmlen].
  destruct (format_02d_small _ Hs) as [Hss Hslen].
  rewrite Hmm, Hss.
  destruct (format_02d (t / 3600)) as [hh|] eqn:Hhh; simpl.
  - destruct (format_02d_nonneg _ _ Hh Hhh) as (Hhh_eq & Hhh_read & Hhh_len).
    assert (Hdig : Forall ascii_digit (hh ++ zero_pad 2 (t mod 3600 / 60) ++ zero_pad 2 (t mod 60))).
    { rewrite Hhh_eq.
      apply Forall_app; split; [apply zero_pad_digits|].
      apply Forall_app; split; apply zero_pad_digits. }
    split; [|by exists hh, (zero_pad 2 (t mod 3600 / 60)), (zero_pad 2 (t mod 60))].
    apply Forall_app in Hdig as [Hd1 Hd23]. apply Forall_app in Hd23 as [Hd2 Hd3].
    unfold hms_seconds.
    rewrite split_on_field by (by apply digits_no_colon).
    rewrite split_on_field by (by apply digits_no_colon).
    rewrite split_on_last by (by apply digits_no_colon).
    rewrite Hhh_read. simpl.
    rewrite !zero_pad_read_back by (lia || (apply within_digit_limit_small;
      pose proof (zero_pad_length 2 (t mod 3600 / 60)); pose proof (zero_pad_length 2 (t mod 60)); lia)).
    simpl. f_equal.
    pose proof (Z.div_mod t 3600 ltac:(lia)).
    pose proof (Z.div_mod (t mod 3600) 60 ltac:(lia)).
    assert (Hmod : (t mod 3600) mod 60 = t mod 60).
    { apply Z.mod_mod_divide. exists 60. lia. }
    lia.
  - unfold format_02d in Hhh. rewrite Z.abs_eq in Hhh by done.
    by destruct (within_digit_limit _).
Qed.

(** X4: the text [_sec_to_hms] returns has three colon-separated fields
    of ASCII digits, the last two of exactly two digits, and read back
    as hours, minutes and seconds it denotes the number of seconds given,
    or 0 for a negative number; formatting fails only when the hours
    have more digits than the interpreter converts. *)
Theorem sec_to_hms_round_trip (total_seconds : Z) :
  match Query._sec_to_hms total_seconds with
  | Some out =>
      hms_seconds out = Some (Z.max 0 total_seconds)
      /\ exists hh mm ss,
          out = hh ++ [58] ++ mm ++ [58] ++ ss
          /\ (2 <= length hh)%nat /\ length mm = 2%nat /\ length ss = 2%nat
          /\ Forall ascii_digit (hh ++ mm ++ ss)
  | None => within_digit_limit (length (nat_digits (Z.max 0 total_seconds / 3600))) = false
  end.
Proof. apply sec_to_hms_spec. Qed.

(** X5: for an integer count whose digits the interpreter converts, the
    text [format_count] draws is its decimal form, which [int()] reads
    back as the count and which is not the dash; past the digit limit
    the count is drawn as the dash. *)
Theorem format_count_reads_back (z : Z) :
  match str_of_int z with
  | Some s =>
      Douchong.format_count (PInt z) = s
      /\ py_int (PStr s) = Some z
      /\ s <> u "-"
  | None => Douchong.format_count (PInt z) = u "-"
  end.
Proof.
  unfold Douchong.format_count. simpl.
  destruct (str_of_int z) as [s|] eqn:Hs; [|done].
  pose proof (str_of_int_read_back z s Hs) as Hread.
  split; [done|]. split; [done|].
  intros ->. revert Hread. by vm_compute.
Qed.

End DecimalText.

(** ** Wrapping a message *)

Section Wrapping.
Import Query.

Lemma py_slice_forward (s : pystr) (a b : Z) :
  0 <= a <= b ->
  py_slice s a b = take (Z.to_nat (b - a)) (drop (Z.to_nat a) s).
Proof.
  intros Hab. unfold py_slice.
  destruct (a <? 0) eqn:Ha; [lia|]. destruct (b <? 0) eqn:Hb; [lia|].
  set (n := Z.of_nat (length s)).
  destruct (Z.le_gt_cases n a) as [Hna | Hna].
  - rewrite !drop_ge by lia. by rewrite !take_nil.
  - rewrite (Z.min_l a n) by lia.
    destruct (Z.le_gt_cases b n) as [Hbn | Hbn].
    + by rewrite (Z.min_l b n) by lia.
    + rewrite (Z.min_r b n) by lia.
      rewrite !take_ge; [done | |]; rewrite length_drop; lia.
Qed.

Lemma lines_needed_pos (x m : Z) : 0 < m -> 0 < x -> 1 <= lines_needed x m.
Proof. intros Hm Hx. unfold lines_needed. apply Z.div_le_lower_bound; lia. Qed.

Lemma lines_needed_nonpos (x m : Z) : 0 < m -> x <= 0 -> lines_needed x m <= 0.
Proof.
  intros Hm Hx. unfold lines_needed.
  assert ((x + m - 1) / m < 1); [|lia]. apply Z.div_lt_upper_bound; lia.
Qed.

Lemma lines_needed_step (x m : Z) :
  0 < m -> lines_needed (x - m) m = lines_needed x m - 1.
Proof.
  intros Hm. unfold lines_needed.
  replace (x - m + m - 1) with (x + m - 1 + (-1) * m) by lia.
  rewrite Z.div_add by lia. lia.
Qed.

Lemma wrap_loop_done (fuel : nat) (text : pystr) (m i : Z) (lines : list pystr) :
  Z.of_nat (length text) <= i -> wrap_loop fuel text m i lines = Some lines.
Proof. intros Hi. destruct fuel; simpl; by rewrite (proj2 (Z.ltb_ge _ _)). Qed.

Lemma wrap_loop_lines (text : pystr) (m : Z) :
  0 < m ->
  forall fuel i lines,
    0 <= i ->
    lines_needed (Z.of_nat (length text) - i) m <= Z.of_nat fuel ->
    exists more,
      wrap_loop fuel text m i lines = Some (lines ++ more)
      /\ concat more = drop (Z.to_nat i) text
      /\ Z.of_nat (length more) = Z.max 0 (lines_needed (Z.of_nat (length text) - i) m)
      /\ Forall (fun line => 0 < Z.of_nat (length line) <= m) more
      /\ (forall k line, more !! k = Some line -> (S k < length more)%nat ->
                         Z.of_nat (length line) = m).
Proof.
  intros Hm. induction fuel as [|fuel IH]; intros i lines Hi Hfuel.
  - destruct (Z.le_gt_cases (Z.of_nat (length text)) i) as [Hdone | Hmore].
    + exists []. rewrite wrap_loop_done by done. rewrite app_nil_r.
      pose proof (lines_needed_nonpos (Z.of_nat (length text) - i) m Hm).
      split; [done|]. split; [by rewrite drop_ge by lia|].
      split; [simpl; lia|]. split; [constructor | done].
    + pose proof (lines_needed_pos (Z.of_nat (length text) - i) m Hm). lia.
  - destruct (Z.le_gt_cases (Z.of_nat (length text)) i) as [Hdone | Hmore].
    + exists []. rewrite wrap_loop_done by done. rewrite app_nil_r.
      pose proof (lines_needed_nonpos (Z.of_nat (length text) - i) m Hm).
      split; [done|]. split; [by rewrite drop_ge by lia|].
      split; [simpl; lia|]. split; [constructor | done].
    + simpl. rewrite (proj2 (Z.ltb_lt _ _)) by lia.
      pose proof (lines_needed_step (Z.of_nat (length text) - i) m Hm) as Hstep.
      replace (Z.of_nat (length text) - i - m)
        with (Z.of_nat (length text) - (i + m)) in Hstep by lia.
      destruct (IH (i + m) (lines ++ [py_slice text i (i + m)])) as
        (more & Hrun & Hcat & Hlen & Hall & Hfull); [lia | lia |].
      rewrite py_slice_forward in * by lia.
      replace (i + m - i) with m in * by lia.
      set (line := take (Z.to_nat m) (drop (Z.to_nat i) text)) in *.
      assert (Z.of_nat (length line) = Z.min m (Z.of_nat (length text) - i)) as Hline.
      { unfold line. rewrite length_take, length_drop. lia. }
      exists (line :: more). rewrite Hrun, <- app_assoc. simpl.
      pose proof (lines_needed_pos (Z.of_nat (length text) - i) m Hm).
      split; [done|]. split.
      { rewrite Hcat. unfold line.
        replace (Z.to_nat (i + m)) with (Z.to_nat i + Z.to_nat m)%nat by lia.
        rewrite <- drop_drop. apply take_drop. }
      split; [lia|]. split; [constructor; [lia | done]|].
      intros k l Hk Hlast. destruct k as [|k]; simpl in Hk.
      * injection Hk as <-.
        destruct (Z.le_gt_cases (Z.of_nat (length text) - (i + m)) 0) as [Hend | Hgo]; [|lia].
        pose proof (lines_needed_nonpos _ m Hm Hend). lia.
      * apply (Hfull k); [done | lia].
Qed.

Lemma wrap_sc_message_spec (text : pystr) (max_chars : Z) (fuel : nat) :
  0 < max_chars ->
  lines_needed (Z.of_nat (length text)) max_chars <= Z.of_nat fuel ->
  exists lines,
    wrap_sc_message fuel text max_chars = Some lines
    /\ concat lines = text
    /\ Z.of_nat (length lines) = Z.max 1 (lines_needed (Z.of_nat (length text)) max_chars)
    /\ (forall k line, lines !! k = Some line ->
          Z.of_nat (length line) <= max_chars
          /\ (text <> [] -> line <> [])
          /\ ((S k < length lines)%nat -> Z.of_nat (length line) = max_chars)).
Proof.
  intros Hm Hfuel. destruct text as [|c text].
  - exists [[]]. split; [done|]. split; [done|]. split.
    + pose proof (lines_needed_nonpos 0 max_chars Hm).
      change (Z.of_nat (length (@nil Z))) with 0. cbn [length]. lia.
    + intros [|k] line; simpl; [|done]. intros [= <-]. simpl. split; [lia|]. split; [done | lia].
  - destruct (wrap_loop_lines (c :: text) max_chars Hm fuel 0 [])
      as (more & Hrun & Hcat & Hlen & Hall & Hfull); [lia | by rewrite Z.sub_0_r |].
    rewrite Z.sub_0_r in Hlen.
    pose proof (lines_needed_pos (Z.of_nat (length (c :: text))) max_chars Hm) as Hpos.
    assert (0 < Z.of_nat (length (c :: text))) as Hne by (simpl; lia).
    exists more. unfold wrap_sc_message. rewrite Hrun. simpl app.
    set (n := Z.of_nat (length (c :: text))) in *.
    destruct more as [|l0 more']; [cbn [length] in Hlen; lia|].
    split; [done|]. split; [done|]. split; [lia|].
    intros k line Hk. split; [|split].
    + rewrite Forall_lookup in Hall. apply (Hall k line Hk).
    + intros _ ->. rewrite Forall_lookup in Hall. pose proof (Hall k [] Hk). simpl in *. lia.
    + by apply Hfull.
Qed.

(** X6: for a positive line length [wrap_sc_message] returns as soon as
    the loop may run once per line needed. The lines concatenate to the
    text; there are [max 1 (ceil (len / max_chars))] of them; none is
    longer than [max_chars], all but the last are exactly that long, and
    none is empty unless the text is. *)
Theorem wrap_sc_message_lines (text : pystr) (max_chars : Z) (fuel : nat) :
  0 < max_chars ->
  lines_needed (Z.of_nat (length text)) max_chars <= Z.of_nat fuel ->
  exists lines,
    wrap_sc_message fuel text max_chars = Some lines
    /\ concat lines = text
    /\ Z.of_nat (length lines) = Z.max 1 (lines_needed (Z.of_nat (length text)) max_chars)
    /\ (forall k line, lines !! k = Some line ->
          Z.of_nat (length line) <= max_chars
          /\ (text <> [] -> line <> [])
          /\ ((S k < length lines)%nat -> Z.of_nat (length line) = max_chars)).
Proof. apply wrap_sc_message_spec. Qed.

Lemma wrap_loop_diverges (text : pystr) (m : Z) :
  m <= 0 -> text <> [] ->
  forall fuel i lines, i <= 0 -> wrap_loop fuel text m i lines = None.
Proof.
  intros Hm Hne. assert (0 < Z.of_nat (length text)) by (destruct text; [done | simpl; lia]).
  induction fuel as [|fuel IH]; intros i lines Hi; simpl;
    rewrite (proj2 (Z.ltb_lt _ _)) by lia; [done|]. apply IH. lia.
Qed.

(** X7: for a line length of zero or less and a non-empty text the loop
    of [wrap_sc_message] never ends: no number of iterations gives a
    result. *)
Theorem wrap_sc_message_diverges (text : pystr) (max_chars : Z) (fuel : nat) :
  max_chars <= 0 -> text <> [] -> wrap_sc_message fuel text max_chars = None.
Proof.
  intros Hm Hne. unfold wrap_sc_message. destruct text as [|c text]; [done|].
  by rewrite wrap_loop_diverges.
Qed.

(** A text of 45 characters wrapped at 20, with three iterations. *)
Lemma wrap_sc_message_lines_witness :
  let text := u "abcdefghijklmnopqrstuvwxyzabcdefghijklmnopqrs" in
  0 < 20
  /\ lines_needed (Z.of_nat (length text)) 20 <= Z.of_nat 3
  /\ exists lines,
      wrap_sc_message 3 text 20 = Some lines
      /\ concat lines = text
      /\ Z.of_nat (length lines) = Z.max 1 (lines_needed (Z.of_nat (length text)) 20)
      /\ (forall k line, lines !! k = Some line ->
            Z.of_nat (length line) <= 20
            /\ (text <> [] -> line <> [])
            /\ ((S k < length lines)%nat -> Z.of_nat (length line) = 20)).
Proof.
  intros text.
  assert (H20 : 0 < 20) by lia.
  assert (Hfuel : lines_needed (Z.of_nat (length text)) 20 <= Z.of_nat 3) by (vm_compute; discriminate).
  split; [exact H20|]. split; [exact Hfuel|].
  exact (wrap_sc_message_lines text 20 3 H20 Hfuel).
Defined.

Lemma wrap_sc_message_diverges_witness :
  0 <= 0 /\ u "a" <> [] /\ wrap_sc_message 1000 (u "a") 0 = None.
Proof.
  assert (Hne : u "a" <> []) by (vm_compute; discriminate).
  split; [lia|]. split; [exact Hne|].
  exact (wrap_sc_message_diverges (u "a") 0 1000 ltac:(lia) Hne).
Defined.

End Wrapping.

(** ** Cleaning a message *)

Section Cleaning.
Import Query.

Lemma collapse_ws_replace (a b : Z) (in_ws : bool) (s : pystr) :
  is_space a = true -> is_space b = true ->
  collapse_ws in_ws (replace_char a b s) = collapse_ws in_ws s.
Proof.
  intros Ha Hb. revert in_ws. induction s as [|c s IH]; intros in_ws; [done|].
  simpl. destruct (Z.eqb_spec c a) as [-> | Hne].
  - rewrite Ha, Hb. destruct in_ws; by rewrite IH.
  - destruct (is_space c); [destruct in_ws|]; by rewrite IH.
Qed.

Lemma clean_sc_message_eq (raw : pystr) :
  clean_sc_message raw = strip (collapse_ws false raw).
Proof.
  destruct raw as [|c raw]; [done|]. unfold clean_sc_message.
  by rewrite !collapse_ws_replace.
Qed.

Lemma collapse_ws_single_spaced (s : pystr) :
  forall in_ws, single_spaced in_ws (collapse_ws in_ws s).
Proof.
  induction s as [|c s IH]; intros in_ws; [done|]. simpl.
  destruct (is_space c) eqn:Hc.
  - destruct in_ws; [apply IH|]. simpl. split; [done|]. split; [done | apply IH].
  - simpl. rewrite Hc. apply IH.
Qed.

Lemma lstrip_single_spaced (s : pystr) :
  forall b, single_spaced b s -> single_spaced true (lstrip_with is_space s).
Proof.
  induction s as [|c s IH]; intros b; [done|]. simpl.
  destruct (is_space c) eqn:Hc.
  - intros (_ & _ & Hs). by apply (IH true).
  - simpl. by rewrite Hc.
Qed.

Lemma single_spaced_app_l (x y : pystr) :
  forall b, single_spaced b (x ++ y) -> single_spaced b x.
Proof.
  induction x as [|c x IH]; intros b; [done|]. simpl.
  destruct (is_space c).
  - intros (? & ? & Hs). split; [done|]. split; [done|]. by apply IH.
  - apply IH.
Qed.

Lemma lstrip_with_split (p : Z -> bool) (s : pystr) :
  exists ws, s = ws ++ lstrip_with p s /\ Forall (fun c => p c = true) ws.
Proof.
  induction s as [|c s (ws & Hs & Hws)]; [by exists []|]. simpl.
  destruct (p c) eqn:Hc.
  - exists (c :: ws). split; [simpl; by rewrite <- Hs | by constructor].
  - by exists [].
Qed.

Lemma lstrip_with_head_not (p : Z -> bool) (s : pystr) (c : Z) :
  head (lstrip_with p s) = Some c -> p c = false.
Proof.
  induction s as [|x s IH]; [done|]. simpl. destruct (p x) eqn:Hx; [done|].
  simpl. by intros [= <-].
Qed.

Lemma rstrip_split (p : Z -> bool) (s : pystr) :
  exists ws, s = rev (lstrip_with p (rev s)) ++ ws /\ Forall (fun c => p c = true) ws.
Proof.
  destruct (lstrip_with_split p (rev s)) as (ws & Hs & Hws).
  exists (rev ws). split.
  - rewrite <- rev_app_distr, <- Hs. by rewrite rev_involutive.
  - by apply List.Forall_rev.
Qed.

Lemma strip_last_not (p : Z -> bool) (s : pystr) (c : Z) :
  last (strip_with p s) = Some c -> p c = false.
Proof.
  unfold strip_with. intros Hc. rewrite <- head_rev_last, rev_involutive in Hc.
  by apply lstrip_with_head_not in Hc.
Qed.

Lemma strip_tidy (s : pystr) (b : bool) : single_spaced b s -> tidy (strip s).
Proof.
  intros Hs. split; [|apply strip_last_not].
  apply lstrip_single_spaced in Hs. unfold strip, strip_with.
  destruct (rstrip_split is_space (lstrip_with is_space s)) as (ws & Heq & _).
  rewrite Heq in Hs. by apply single_spaced_app_l in Hs.
Qed.

Lemma words_from_spaces (ws : pystr) :
  Forall (fun c => is_space c = true) ws -> words_from [] ws = [].
Proof. induction 1 as [|c ws Hc _ IH]; [done|]. simpl. by rewrite Hc. Qed.

Lemma words_from_lstrip (s : pystr) :
  words_from [] (lstrip_with is_space s) = words_from [] s.
Proof.
  destruct (lstrip_with_split is_space s) as (ws & Hs & Hws).
  rewrite Hs at 2. clear Hs.
  induction Hws as [|c ws Hc _ IH]; [done|]. simpl. by rewrite Hc.
Qed.

Lemma words_from_trailing (x ws : pystr) :
  Forall (fun c => is_space c = true) ws ->
  forall cur, words_from cur (x ++ ws) = words_from cur x.
Proof.
  intros Hws. induction x as [|c x IH]; intros cur; simpl.
  - destruct ws as [|w ws]; [done|]. simpl.
    apply Forall_cons in Hws as [Hw Hws]. rewrite Hw, words_from_spaces by done.
    by rewrite app_nil_r.
  - destruct (is_space c); by rewrite IH.
Qed.

Lemma words_strip (s : pystr) : words (strip s) = words s.
Proof.
  unfold words, strip, strip_with.
  destruct (rstrip_split is_space (lstrip_with is_space s)) as (ws & Heq & Hws).
  rewrite <- (words_from_lstrip s). rewrite Heq at 2.
  by rewrite words_from_trailing.
Qed.

Lemma words_collapse (s : pystr) :
  forall in_ws cur,
    (in_ws = true -> cur = []) ->
    words_from cur (collapse_ws in_ws s) = words_from cur s.
Proof.
  induction s as [|c s IH]; intros in_ws cur Hcur; [done|]. simpl.
  destruct (is_space c) eqn:Hc.
  - destruct in_ws.
    + rewrite (Hcur eq_refl). simpl. by apply IH.
    + simpl. by rewrite IH.
  - simpl. rewrite Hc. by apply IH.
Qed.

(** X8: the text [clean_sc_message] returns is tidy (its only white
    space is single spaces between words, none at either end) and has
    the words of the input, in order. *)
Theorem clean_sc_message_tidy (raw : pystr) :
  tidy (clean_sc_message raw) /\ words (clean_sc_message raw) = words raw.
Proof.
  rewrite clean_sc_message_eq. split.
  - apply (strip_tidy _ false), collapse_ws_single_spaced.
  - rewrite words_strip. by apply words_collapse.
Qed.

Lemma single_spaced_collapse (s : pystr) :
  forall b, single_spaced b s -> collapse_ws b s = s.
Proof.
  induction s as [|c s IH]; intros b; [done|]. simpl.
  destruct (is_space c).
  - intros (-> & -> & Hs). by rewrite IH.
  - intros Hs. by rewrite IH.
Qed.

Lemma single_spaced_weaken (s : pystr) : single_spaced true s -> single_spaced false s.
Proof. destruct s as [|c s]; [done|]. simpl. destruct (is_space c); [|done]. by intros (_ & ? & _). Qed.

Lemma single_spaced_head (s : pystr) (c : Z) :
  single_spaced true s -> head s = Some c -> is_space c = false.
Proof.
  destruct s as [|x s]; [done|]. simpl. intros Hs [= <-].
  destruct (is_space x); [|done]. by destruct Hs as (_ & ? & _).
Qed.

(** X9: the texts [clean_sc_message] leaves unchanged are exactly the
    tidy ones, and cleaning twice is cleaning once. *)
Theorem clean_sc_message_fixed_points (s : pystr) :
  (clean_sc_message s = s <-> tidy s)
  /\ clean_sc_message (clean_sc_message s) = clean_sc_message s.
Proof.
  assert (forall t, tidy t -> clean_sc_message t = t) as Hfix.
  { intros t [Hsp Hlast]. rewrite clean_sc_message_eq.
    rewrite single_spaced_collapse by by apply single_spaced_weaken.
    apply strip_with_ends; [|done]. intros c. by apply single_spaced_head. }
  split; [split|].
  - intros <-. rewrite clean_sc_message_eq.
    apply (strip_tidy _ false), collapse_ws_single_spaced.
  - apply Hfix.
  - apply Hfix. rewrite clean_sc_message_eq.
    apply (strip_tidy _ false), collapse_ws_single_spaced.
Qed.

End Cleaning.

(** ** Shortening a name *)

Section Names.
Import Query.

Lemma uname_weight_pos (c : Z) : 1 <= uname_weight c <= 2.
Proof. unfold uname_weight. destruct (c <? 128); lia. Qed.

Lemma uname_units_app (x y : pystr) : uname_units (x ++ y) = uname_units x + uname_units y.
Proof. unfold uname_units. induction x as [|c x IH]; simpl; [done|]. rewrite IH. lia. Qed.

Lemma uname_units_nonneg (x : pystr) : 0 <= uname_units x.
Proof.
  unfold uname_units. induction x as [|c x IH]; simpl; [done|].
  pose proof (uname_weight_pos c). lia.
Qed.

Lemma uname_units_rev (x : pystr) : uname_units (rev x) = uname_units x.
Proof.
  induction x as [|c x IH]; [done|]. simpl rev. rewrite uname_units_app, IH.
  unfold uname_units. simpl. lia.
Qed.

Lemma halves_exceed_mono (n n' : Z) (x : float) :
  n <= n' -> halves_exceed n x = true -> halves_exceed n' x = true.
Proof.
  intros Hn. destruct x as [s | s | | s m e]; cbn [halves_exceed]; [| done | done |].
  - rewrite !Z.ltb_lt. lia.
  - destruct (Z.leb_spec 0 (e + 1)); rewrite !Z.ltb_lt; [lia|].
    assert (0 < 2 ^ (- (e + 1))) by (apply Z.pow_pos_nonneg; lia).
    intros Hv. eapply Z.lt_le_trans; [exact Hv|]. apply Z.mul_le_mono_nonneg_r; lia.
Qed.

Lemma halves_exceed_fits (n n' : Z) (x : float) :
  n <= n' -> halves_exceed n' x = false -> halves_exceed n x = false.
Proof.
  intros Hn Hf. destruct (halves_exceed n x) eqn:Hx; [|done].
  by rewrite (halves_exceed_mono n n' x Hn Hx) in Hf.
Qed.

Lemma uname_keep_spec (max_units : float) (s : pystr) :
  forall units kept,
  exists p rest,
    s = p ++ rest
    /\ uname_keep max_units units kept s = (kept ++ p, units + uname_units p)
    /\ (p <> [] -> halves_exceed (units + uname_units p) max_units = false)
    /\ (forall c rest', rest = c :: rest' ->
          halves_exceed (units + uname_units p + uname_weight c) max_units = true).
Proof.
  induction s as [|ch s IH]; intros units kept.
  - exists [], []. simpl. rewrite app_nil_r, Z.add_0_r. by repeat split.
  - simpl. destruct (halves_exceed (units + uname_weight ch) max_units) eqn:Hex.
    + exists [], (ch :: s). simpl. rewrite app_nil_r, Z.add_0_r.
      split; [done|]. split; [done|]. split; [done|].
      intros c rest' [= <- <-]. done.
    + destruct (IH (units + uname_weight ch) (kept ++ [ch])) as (p & rest & -> & Hrun & Hfit & Hnext).
      exists (ch :: p), rest. split; [done|].
      replace (uname_units (ch :: p)) with (uname_weight ch + uname_units p) by done.
      rewrite Hrun, <- app_assoc, Z.add_assoc. split; [done|]. split.
      * intros _. destruct p as [|c p]; [|by apply Hfit].
        change (uname_units []) with 0. by rewrite Z.add_0_r.
      * apply Hnext.
Qed.

Lemma uname_pop_spec (max_units : float) (r : pystr) :
  exists popped r',
    r = popped ++ r'
    /\ uname_pop max_units (uname_units r) r = r'
    /\ (r' <> [] -> halves_exceed (uname_units r' + 2) max_units = false)
    /\ (forall x popped', popped = popped' ++ [x] ->
          halves_exceed (uname_units (x :: r') + 2) max_units = true).
Proof.
  induction r as [|last before IH].
  - exists [], []. repeat split; try done. intros x [|??]; done.
  - simpl uname_pop.
    destruct (halves_exceed (uname_units (last :: before) + 2) max_units) eqn:Hex.
    + destruct IH as (popped & r' & Hr & Hrun & Hfit & Hmax).
      exists (last :: popped), r'. split; [by rewrite Hr|].
      replace (uname_units (last :: before) - uname_weight last) with (uname_units before)
        by (unfold uname_units; simpl; lia).
      split; [done|]. split; [done|].
      intros x popped' Heq. destruct popped as [|y popped] using rev_ind.
      * destruct popped' as [|??]; [|by destruct popped'].
        injection Heq as <-. simpl in Hr. by subst.
      * clear IHpopped.
        change (last :: popped ++ [y]) with ((last :: popped) ++ [y]) in Heq.
        apply app_inj_tail in Heq as [_ ->]. by apply (Hmax x popped).
    + exists [], (last :: before). split; [done|]. split; [done|]. split; [done|].
      intros x [|??]; done.
Qed.

Lemma limit_uname_spec (uname : pystr) (max_units : float) :
  (limit_uname_visual uname max_units = uname
   /\ (uname = [] \/ halves_exceed (uname_units uname) max_units = false))
  \/ (halves_exceed (uname_units uname) max_units = true
      /\ exists p rest,
          uname = p ++ rest /\ rest <> []
          /\ limit_uname_visual uname max_units = p ++ [8230]
          /\ (p <> [] -> halves_exceed (uname_units p + 2) max_units = false)
          /\ (forall c rest', rest = c :: rest' ->
                halves_exceed (uname_units (p ++ [c]) + 2) max_units = true)).
Proof.
  destruct (uname_keep_spec max_units uname 0 []) as (p0 & rest0 & Hsplit & Hrun & Hfit & Hnext).
  unfold limit_uname_visual. rewrite Hrun. simpl app. rewrite Z.add_0_l in *.
  destruct rest0 as [|c rest0].
  - rewrite app_nil_r in Hsplit. subst p0. rewrite Nat.eqb_refl. left. split; [done|].
    destruct uname as [|x uname]; [by left|]. right. by apply Hfit.
  - assert ((length p0 =? length uname)%nat = false) as ->.
    { apply Nat.eqb_neq. rewrite Hsplit, length_app. simpl. lia. }
    pose proof (Hnext c rest0 eq_refl) as Hc.
    right. split.
    { apply (halves_exceed_mono (uname_units p0 + uname_weight c)); [|done].
      rewrite Hsplit, uname_units_app.
      change (uname_units (c :: rest0)) with (uname_weight c + uname_units rest0).
      pose proof (uname_units_nonneg rest0). lia. }
    destruct (uname_pop_spec max_units (rev p0)) as (popped & r' & Hr & Hpop & Hroom & Hmax).
    rewrite uname_units_rev in Hpop. rewrite Hpop.
    assert (p0 = rev r' ++ rev popped) as Hp0.
    { by rewrite <- rev_app_distr, <- Hr, rev_involutive. }
    exists (rev r'), (rev popped ++ c :: rest0).
    split; [by rewrite app_assoc, <- Hp0|]. split; [by destruct (rev popped)|].
    split; [done|]. split.
    + intros Hne. rewrite uname_units_rev. apply Hroom. intros ->. by apply Hne.
    + intros c2 rest2 Hrest. rewrite uname_units_app, uname_units_rev.
      destruct popped as [|x popped] using rev_ind.
      * simpl in Hrest. injection Hrest as <- <-.
        simpl in Hp0. rewrite app_nil_r in Hp0. subst p0. rewrite uname_units_rev in Hc.
        apply (halves_exceed_mono (uname_units r' + uname_weight c)); [|done].
        unfold uname_units. simpl. lia.
      * clear IHpopped. rewrite rev_app_distr in Hrest. simpl in Hrest.
        injection Hrest as <- _.
        specialize (Hmax x popped eq_refl).
        replace (uname_units r' + uname_units [x] + 2) with (uname_units (x :: r') + 2); [done|].
        unfold uname_units. simpl. lia.
Qed.

(** X10: [limit_uname_visual] returns a name that is empty or no wider
    than [max_units] unchanged. Any other name is cut to a proper prefix
    followed by the ellipsis; the prefix is empty or leaves room for the
    ellipsis, and a prefix one character longer would not. *)
Theorem limit_uname_visual_cases (uname : pystr) (max_units : float) :
  if bool_decide (uname = []) || negb (halves_exceed (uname_units uname) max_units)
  then limit_uname_visual uname max_units = uname
  else exists p rest,
      uname = p ++ rest /\ rest <> []
      /\ limit_uname_visual uname max_units = p ++ [8230]
      /\ (p <> [] -> halves_exceed (uname_units p + 2) max_units = false)
      /\ (forall c rest', rest = c :: rest' ->
            halves_exceed (uname_units (p ++ [c]) + 2) max_units = true).
Proof.
  destruct (limit_uname_spec uname max_units) as [[Hsame Hfits] | [Hover Hcut]].
  - destruct Hfits as [-> | ->]; [done|]. by rewrite orb_true_r.
  - rewrite Hover, orb_false_r. destruct Hcut as (p & rest & -> & Hrest & Hcut).
    rewrite bool_decide_false; [by exists p, rest|].
    intros Heq. apply app_eq_nil in Heq as [_ ->]. done.
Qed.

Lemma limit_uname_room (uname : pystr) (max_units : float) :
  halves_exceed 2 max_units = false ->
  halves_exceed (uname_units (limit_uname_visual uname max_units)) max_units = false.
Proof.
  intros Hroom.
  destruct (limit_uname_spec uname max_units) as [[-> Hfits] | [_ Hcut]].
  - destruct Hfits as [-> | ?]; [|done]. by apply (halves_exceed_fits 0 2).
  - destruct Hcut as (p & rest & _ & _ & -> & Hfit & _).
    rewrite uname_units_app. change (uname_units [8230]) with 2.
    destruct p as [|c p]; [done|]. by apply Hfit.
Qed.

(** X11: when the ellipsis alone fits in [max_units], so does the name
    that [limit_uname_visual] returns. *)
Theorem limit_uname_visual_fits (uname : pystr) (max_units : float) :
  halves_exceed 2 max_units = false ->
  halves_exceed (uname_units (limit_uname_visual uname max_units)) max_units = false.
Proof. apply limit_uname_room. Qed.

(** X12: [limit_uname_visual] leaves its own output unchanged, for
    every [max_units]. *)
Theorem limit_uname_visual_idempotent (uname : pystr) (max_units : float) :
  limit_uname_visual (limit_uname_visual uname max_units) max_units
  = limit_uname_visual uname max_units.
Proof.
  destruct (limit_uname_spec uname max_units) as [[Hsame _] | [_ Hcut]]; [by rewrite !Hsame|].
  destruct Hcut as (p & rest & _ & _ & -> & Hfit & _).
  destruct (limit_uname_spec (p ++ [8230]) max_units) as [[Hsame _] | [Hover _]]; [done|].
  rewrite uname_units_app in Hover. change (uname_units [8230]) with 2 in Hover.
  destruct p as [|c p]; [|by rewrite Hfit in Hover].
  unfold limit_uname_visual. simpl. change (uname_units [] + 2) with 2 in Hover.
  change (0 + uname_weight 8230) with 2. by rewrite Hover.
Qed.

(** A name of 26 ASCII characters against the 12 units of the caller. *)
Lemma limit_uname_visual_fits_witness :
  halves_exceed 2 twelve = false
  /\ halves_exceed
       (uname_units (limit_uname_visual (u "abcdefghijklmnopqrstuvwxyz") twelve)) twelve
     = false.
Proof.
  split; [reflexivity|].
  apply (limit_uname_visual_fits (u "abcdefghijklmnopqrstuvwxyz") twelve). reflexivity.
Defined.

End Names.

(** ** Rows and pages of the super chat table *)

Section Rows.
Import Query.
Context `{PyEnv}.

Lemma digits2_pos_bound (m : positive) : Z.pos m < 2 ^ Z.pos (digits2_pos m).
Proof.
  induction m as [m IH | m IH |]; simpl digits2_pos; [| |done];
    rewrite Pos2Z.inj_succ, Z.pow_succ_r by lia; lia.
Qed.

Lemma valid_finite_bound (s : bool) (m : positive) (e : Z) :
  valid_binary prec emax (S754_finite s m e) = true ->
  Z.pos m < 2 ^ 53 /\ e <= 971.
Proof.
  unfold valid_binary, bounded, canonical_mantissa, fexp, SpecFloat.emin.
  intros [Hcanon Hexp]%andb_true_iff.
  apply Z.eqb_eq in Hcanon. apply Z.leb_le in Hexp.
  unfold prec, emax in *. split; [|lia].
  pose proof (digits2_pos_bound m).
  assert (Z.pos (digits2_pos m) <= 53) by lia.
  eapply Z.lt_le_trans; [eassumption|]. apply Z.pow_le_mono_r; lia.
Qed.

Lemma div_half_even_bound (n d : Z) : 1 <= n -> 2 <= d -> 0 <= div_half_even n d <= n.
Proof.
  intros Hn Hd. unfold div_half_even.
  pose proof (Z.div_pos n d ltac:(lia) ltac:(lia)).
  assert (2 * (n / d) <= n).
  { pose proof (Z.mul_div_le n d ltac:(lia)). nia. }
  assert (n = 1 -> n / d = 0) by (intros ->; apply Z.div_small; lia).
  assert (n = 1 -> n mod d = 1) by (intros ->; apply Z.mod_small; lia).
  destruct (2 * (n mod d) ?= d) eqn:Hcmp; [destruct (Z.even (n / d)) eqn:He| |]; try lia.
Qed.

Lemma round_float_bound (x : float) (z : Z) :
  valid_binary prec emax x = true ->
  round_float x = Some z -> Z.abs z < 2 ^ 1024.
Proof.
  intros Hvalid. destruct x as [s | s | | s m e]; simpl; try done.
  - intros [= <-]. done.
  - apply valid_finite_bound in Hvalid as [Hm He].
    intros [= <-].
    assert (0 <= (if 0 <=? e then Z.pos m * 2 ^ e else div_half_even (Z.pos m) (2 ^ (- e))) < 2 ^ 1024)
      as Ha.
    { destruct (Z.leb_spec 0 e).
      - assert (2 ^ e <= 2 ^ 971) by (apply Z.pow_le_mono_r; lia).
        assert (0 < 2 ^ e) by (apply Z.pow_pos_nonneg; lia).
        change (2 ^ 1024) with (2 ^ 53 * 2 ^ 971). nia.
      - assert (2 ^ 1 <= 2 ^ (- e)) by (apply Z.pow_le_mono_r; lia).
        pose proof (div_half_even_bound (Z.pos m) (2 ^ (- e)) ltac:(lia) ltac:(lia)).
        assert (2 ^ 53 < 2 ^ 1024) by done. lia. }
    destruct s; lia.
Qed.

Lemma uint_leading_bound (d : Decimal.uint) :
  d <> Decimal.Nil -> (forall r, d <> Decimal.D0 r) ->
  10 ^ (Z.of_N (DecimalPos.Unsigned.usize d) - 1) <= Z.of_N (Pos.of_uint d).
Proof.
  intros Hnil Hzero.
  destruct d as [|r|r|r|r|r|r|r|r|r|r]; [done | by destruct (Hzero r) | ..];
    simpl DecimalPos.Unsigned.usize; simpl Pos.of_uint; rewrite of_uint_cons_value;
    rewrite N2Z.inj_succ; replace (Z.succ (Z.of_N (DecimalPos.Unsigned.usize r)) - 1)
      with (Z.of_N (DecimalPos.Unsigned.usize r)) by lia;
    assert (0 < 10 ^ Z.of_N (DecimalPos.Unsigned.usize r)) by (apply Z.pow_pos_nonneg; lia);
    lia.
Qed.

Lemma nat_digits_length_le (n k : Z) :
  0 <= n < 10 ^ k -> 1 <= k -> Z.of_nat (length (nat_digits n)) <= k.
Proof.
  intros Hn Hk. unfold nat_digits.
  set (d := N.to_uint (Z.to_N n)).
  assert (Z.of_N (Pos.of_uint d) = n) as Hval.
  { change (Pos.of_uint d) with (N.of_uint (N.to_uint (Z.to_N n))).
    rewrite DecimalN.Unsigned.of_to. lia. }
  assert (d = Decimal.unorm d) as Hnorm.
  { unfold d at 1. rewrite <- (DecimalN.Unsigned.of_to (Z.to_N n)) at 1.
    by rewrite DecimalN.Unsigned.to_of. }
  rewrite uint_codes_length.
  destruct (Decimal.nzhead d) eqn:Hhead.
  { unfold Decimal.unorm in Hnorm. rewrite Hhead in Hnorm. rewrite Hnorm. simpl. lia. }
  all: assert (d = Decimal.nzhead d) as Hd
      by (rewrite Hnorm at 1; unfold Decimal.unorm; by rewrite Hhead).
  all: assert (10 ^ (Z.of_N (DecimalPos.Unsigned.usize d) - 1) <= Z.of_N (Pos.of_uint d)) as Hlow
      by (apply uint_leading_bound;
          [rewrite Hd, Hhead; done | intros r Hr; rewrite Hd in Hr; by apply DecimalFacts.nzhead_nonzero in Hr]).
  all: rewrite Hval in Hlow.
  all: destruct (Z.le_gt_cases (Z.of_N (DecimalPos.Unsigned.usize d)) k) as [|Hbig]; [done|].
  all: assert (10 ^ k <= 10 ^ (Z.of_N (DecimalPos.Unsigned.usize d) - 1))
      by (apply Z.pow_le_mono_r; lia).
  all: lia.
Qed.

Lemma str_of_int_bounded (z : Z) :
  Z.abs z < 2 ^ 1024 -> is_Some (str_of_int z).
Proof.
  intros Hz. unfold str_of_int.
  rewrite within_digit_limit_small; [done|].
  assert (Z.of_nat (length (nat_digits (Z.abs z))) <= 309); [|lia].
  apply nat_digits_length_le; [|lia].
  assert (2 ^ 1024 < 10 ^ 309) by done. lia.
Qed.

Lemma halves_exceed_twelve (n : Z) : halves_exceed n twelve = (24 <? n).
Proof.
  unfold halves_exceed, twelve. simpl Z.leb. cbv iota.
  change (2 ^ (- (-49 + 1))) with 281474976710656.
  destruct (Z.ltb_spec 24 n); [apply Z.ltb_lt | apply Z.ltb_ge]; lia.
Qed.

Lemma limit_uname_twelve (uname : pystr) :
  uname_units (limit_uname_visual uname twelve) <= 24.
Proof.
  pose proof (limit_uname_room uname twelve eq_refl) as Hfit.
  rewrite halves_exceed_twelve in Hfit. by apply Z.ltb_ge.
Qed.

Lemma is_finite_round (x : float) : is_finite x = true <-> is_Some (round_float x).
Proof. destruct x; simpl; split; (done || by intros [? ?]). Qed.

Lemma sc_row_some (item row : pydict) :
  sc_row item = Some row ->
  exists send_time uname uid message price_int price lines,
    str_field item "send_time" = Some send_time
    /\ str_field item "uname" = Some uname
    /\ str_field item "uid" = Some uid
    /\ str_field item "message" = Some message
    /\ round_float (sc_price_val item) = Some price_int
    /\ str_of_int price_int = Some price
    /\ wrap_sc_message (length (clean_sc_message message)) (clean_sc_message message)
         MSG_MAX_CHARS_PER_LINE = Some lines
    /\ row = <["row_height" :=
               PInt (BASE_ROW_H + (Z.max 1 (Z.of_nat (length lines)) - 1) * EXTRA_PER_LINE)]>
             (<["msg_lines" := PList (map PStr lines)]>
              (<["price" := PStr (take 5 price)]>
               (<["uid" := PStr (take 16 uid)]>
                (<["uname" := PStr (limit_uname_visual uname twelve)]>
                 (<["time" := PStr send_time]> ∅))))).
Proof.
  unfold sc_row.
  destruct (str_field item "send_time") as [send_time|] eqn:Htime; [|done].
  destruct (str_field item "uname") as [uname|] eqn:Huname; [|done].
  destruct (str_field item "uid") as [uid|] eqn:Huid; [|done]. simpl.
  destruct (round_float (sc_price_val item)) as [price_int|] eqn:Hround; [|done]. simpl.
  destruct (str_of_int price_int) as [price|] eqn:Hprice; [|done]. simpl.
  destruct (str_field item "message") as [message|] eqn:Hmsg; [|done]. simpl.
  destruct (wrap_sc_message _ _ _) as [lines|] eqn:Hwrap; [|done]. simpl.
  intros [= <-]. exists send_time, uname, uid, message, price_int, price, lines.
  split; [done|]. split; [done|]. split; [done|]. split; [done|].
  split; [done|]. split; [done|]. split; [exact Hwrap | reflexivity].
Qed.

Lemma wrap_message_lines (text : pystr) :
  exists lines,
    wrap_sc_message (length text) text MSG_MAX_CHARS_PER_LINE = Some lines
    /\ concat lines = text
    /\ Z.of_nat (length lines) = Z.max 1 (lines_needed (Z.of_nat (length text)) 20)
    /\ Forall (fun line => (length line <= 20)%nat) lines.
Proof.
  destruct (wrap_sc_message_spec text 20 (length text)) as (lines & Hrun & Hcat & Hlen & Hall);
    [lia | |].
  { unfold lines_needed.
    assert ((Z.of_nat (length text) + 20 - 1) / 20 < Z.of_nat (length text) + 1); [|lia].
    apply Z.div_lt_upper_bound; lia. }
  exists lines. split; [done|]. split; [done|]. split; [done|].
  apply Forall_lookup. intros k line Hk. destruct (Hall k line Hk) as [? _]. lia.
Qed.

Lemma sc_row_height (item row : pydict) :
  sc_row item = Some row ->
  exists h, row !! "row_height" = Some (PInt h) /\ 60 <= h.
Proof.
  intros (? & ? & ? & ? & ? & ? & lines & _ & _ & _ & _ & _ & _ & _ & ->)%sc_row_some.
  eexists. split; [apply lookup_insert_eq|]. unfold BASE_ROW_H, EXTRA_PER_LINE. lia.
Qed.

Lemma row_height_of_int (row : pydict) (h : Z) :
  row !! "row_height" = Some (PInt h) -> 0 < h -> row_height_of row = Some h.
Proof.
  intros Hrow Hh. unfold row_height_of, dict_get, py_or. rewrite Hrow. simpl.
  destruct (Z.eqb_spec h 0); [lia | done].
Qed.

(** X13: the row [render_sc_images] builds from an entry, for a price
    that is a binary64 value. Building it raises only when [str()] raises
    on one of the four text fields or when the price is [nan] or
    infinite. Otherwise the message lines concatenate to the cleaned
    message, there are [max 1 (ceil (len / 20))] of them, none longer
    than 20 characters, the row height is 60 plus 28 for every line
    after the first, the name cell is at most 12 units wide, the UID
    cell at most 16 characters and the price cell at most 5. *)
Theorem sc_row_cells (item : pydict) :
  valid_binary prec emax (sc_price_val item) = true ->
  match sc_row item with
  | Some row =>
      is_finite (sc_price_val item) = true
      /\ exists message lines uname uid price,
          str_field item "message" = Some message
          /\ row !! "msg_lines" = Some (PList (map PStr lines))
          /\ concat lines = clean_sc_message message
          /\ Forall (fun line => (length line <= 20)%nat) lines
          /\ Z.of_nat (length lines)
             = Z.max 1 (lines_needed (Z.of_nat (length (clean_sc_message message))) 20)
          /\ row_height_of row = Some (60 + 28 * (Z.of_nat (length lines) - 1))
          /\ row !! "uname" = Some (PStr uname) /\ uname_units uname <= 24
          /\ row !! "uid" = Some (PStr uid) /\ (length uid <= 16)%nat
          /\ row !! "price" = Some (PStr price) /\ (length price <= 5)%nat
  | None =>
      str_field item "send_time" = None \/ str_field item "uname" = None
      \/ str_field item "uid" = None \/ str_field item "message" = None
      \/ is_finite (sc_price_val item) = false
  end.
Proof.
  intros Hvalid. destruct (sc_row item) as [row|] eqn:Hrow.
  - apply sc_row_some in Hrow
      as (send_time & uname & uid & message & price_int & price & lines
          & _ & _ & _ & Hmsg & Hround & _ & Hwrap & ->).
    split; [apply is_finite_round; by rewrite Hround|].
    destruct (wrap_message_lines (clean_sc_message message))
      as (lines' & Hwrap' & Hcat & Hlen & Hall).
    rewrite Hwrap in Hwrap'. injection Hwrap' as <-.
    exists message, lines, (limit_uname_visual uname twelve), (take 16 uid), (take 5 price).
    split; [done|]. split; [by rewrite lookup_insert_ne, lookup_insert_eq|].
    split; [done|]. split; [done|]. split; [done|]. split.
    { erewrite row_height_of_int; [| apply lookup_insert_eq |];
        unfold BASE_ROW_H, EXTRA_PER_LINE; [f_equal|]; lia. }
    split; [by rewrite !lookup_insert_ne, lookup_insert_eq by done|].
    split; [apply limit_uname_twelve|].
    split; [by rewrite !lookup_insert_ne, lookup_insert_eq by done|].
    split; [rewrite length_take; lia|].
    split; [by rewrite !lookup_insert_ne, lookup_insert_eq by done|].
    rewrite length_take; lia.
  - unfold sc_row in Hrow.
    destruct (str_field item "send_time") as [send_time|]; [|by left].
    destruct (str_field item "uname") as [uname|]; [|by right; left].
    destruct (str_field item "uid") as [uid|]; [|by right; right; left].
    destruct (str_field item "message") as [message|] eqn:Hmsg; [|by right; right; right; left].
    right; right; right; right. cbn [mbind option_bind] in Hrow.
    destruct (round_float (sc_price_val item)) as [price_int|] eqn:Hround.
    + exfalso. cbn [mbind option_bind] in Hrow.
      destruct (str_of_int_bounded price_int (round_float_bound _ _ Hvalid Hround)) as [price Hprice].
      rewrite Hprice in Hrow. cbn [mbind option_bind] in Hrow.
      destruct (wrap_message_lines (clean_sc_message message)) as (lines & Hwrap & _).
      rewrite Hwrap in Hrow. done.
    + destruct (is_finite (sc_price_val item)) eqn:Hfin; [|done].
      apply is_finite_round in Hfin as [? ?]. congruence.
Qed.

Lemma sc_rows_height_sum (rs : list pydict) :
  Forall (fun r => exists h, r !! "row_height" = Some (PInt h) /\ 60 <= h) rs ->
  sc_rows_height rs = Some (height_sum rs)
  /\ 60 * Z.of_nat (length rs) <= height_sum rs.
Proof.
  induction 1 as [|r rs (h & Hr & Hh) _ [IHsum IHlow]]; [done|].
  cbn [sc_rows_height]. rewrite Hr. simpl. rewrite IHsum. simpl.
  unfold height_sum at 1 2. cbn [foldr]. fold (height_sum rs).
  unfold row_h. rewrite (row_height_of_int r h Hr) by lia. simpl. split; [done | lia].
Qed.

(** X14: the pages [render_sc_images] lays out hold the built rows in
    order; the canvas of every page is at least 320 pixels high and at
    most [SC_MAX_PAGE_HEIGHT], unless the page is a single row higher
    than the 15740 pixels left for rows. The layout fails only when
    building a row does. *)
Theorem sc_canvas_bounds (sc_sorted : list pydict) :
  match mapM sc_row sc_sorted with
  | Some rows =>
      exists pgs,
        sc_pages sc_sorted = Some pgs
        /\ page_rows pgs = rows
        /\ Forall (fun pg =>
                     exists h,
                       sc_canvas_height (snd pg) = Some h
                       /\ 320 <= h
                       /\ (h <= SC_MAX_PAGE_HEIGHT
                           \/ exists r, snd pg = [r] /\ 15740 < row_h r)) pgs
  | None => sc_pages sc_sorted = None
  end.
Proof.
  unfold sc_pages. destruct (mapM sc_row sc_sorted) as [rows|] eqn:Hrows; [|done]. simpl.
  assert (Forall (fun r => exists h, r !! "row_height" = Some (PInt h) /\ 60 <= h) rows) as Hh.
  { apply mapM_Some in Hrows. induction Hrows as [|item row ?? Hrow _ IH]; [done|].
    constructor; [by apply sc_row_height in Hrow | done]. }
  pose proof (paginate_rows_ok rows SC_MAX_PAGE_HEIGHT 160 BASE_ROW_H 40) as Hok.
  change (data_budget SC_MAX_PAGE_HEIGHT 160 BASE_ROW_H 40) with 15740 in Hok.
  destruct (_paginate_rows_by_height rows SC_MAX_PAGE_HEIGHT 160 BASE_ROW_H 40) as [pgs|].
  - exists pgs. destruct Hok as [Hpr _ _ _ Hwithin _]. split; [done|]. split; [done|].
    assert (Forall (fun pg => Forall (fun r => exists h, r !! "row_height" = Some (PInt h) /\ 60 <= h)
                                (snd pg)) pgs) as Hpg.
    { subst rows. unfold page_rows in Hh. clear Hwithin Hrows.
      induction pgs as [|pg pgs IH]; [done|]. simpl in Hh.
      apply Forall_app in Hh as [??]. constructor; [done | by apply IH]. }
    apply Forall_forall. intros pg Hin.
    rewrite Forall_forall in Hwithin. specialize (Hwithin pg Hin).
    rewrite Forall_forall in Hpg. specialize (Hpg pg Hin).
    destruct (sc_rows_height_sum _ Hpg) as [Hsum Hlow].
    unfold sc_canvas_height. destruct (snd pg) as [|r [|r2 rest]] eqn:Hpage.
    + exists 320. split; [done|]. split; [done|]. left. unfold SC_MAX_PAGE_HEIGHT. lia.
    + rewrite Hsum. cbn [mbind option_bind]. eexists. split; [reflexivity|].
      unfold BASE_ROW_H, SC_MAX_PAGE_HEIGHT. simpl length in Hlow.
      change (height_sum [r]) with (row_h r + 0) in *.
      split; [lia|].
      destruct (Z.le_gt_cases (row_h r) 15740) as [Hfit | Hbig].
      * left. lia.
      * right. by exists r.
    + rewrite Hsum. cbn [mbind option_bind]. eexists. split; [reflexivity|].
      unfold BASE_ROW_H, SC_MAX_PAGE_HEIGHT. simpl length in Hlow.
      split; [lia|]. left.
      assert (height_sum (r :: r2 :: rest) <= 15740) by (apply Hwithin; simpl; lia). lia.
  - destruct Hok as (r & Hin & Hnone). rewrite Forall_forall in Hh.
    destruct (Hh r Hin) as (h & Hr & Hge). rewrite (row_height_of_int r h Hr) in Hnone by lia. done.
Qed.

End Rows.

Section RowsConcrete.
Import Query.
#[local] Existing Instance ascii_env.

(** An entry with a price of 30 and a message of two words. *)
Lemma sc_row_cells_witness :
  let item : pydict :=
    {[ "send_time" := PStr (u "2024-05-01 20:00:00"); "uname" := PStr (u "viewer");
       "uid" := PInt 12345; "price" := PInt 30; "message" := PStr (u "hello  world") ]} in
  valid_binary prec emax (sc_price_val item) = true
  /\ match sc_row item with
     | Some row =>
         is_finite (sc_price_val item) = true
         /\ exists message lines uname uid price,
             str_field item "message" = Some message
             /\ row !! "msg_lines" = Some (PList (map PStr lines))
             /\ concat lines = clean_sc_message message
             /\ Forall (fun line => (length line <= 20)%nat) lines
             /\ Z.of_nat (length lines)
                = Z.max 1 (lines_needed (Z.of_nat (length (clean_sc_message message))) 20)
             /\ row_height_of row = Some (60 + 28 * (Z.of_nat (length lines) - 1))
             /\ row !! "uname" = Some (PStr uname) /\ uname_units uname <= 24
             /\ row !! "uid" = Some (PStr uid) /\ (length uid <= 16)%nat
             /\ row !! "price" = Some (PStr price) /\ (length price <= 5)%nat
     | None =>
         str_field item "send_time" = None \/ str_field item "uname" = None
         \/ str_field item "uid" = None \/ str_field item "message" = None
         \/ is_finite (sc_price_val item) = false
     end.
Proof.
  intros item.
  assert (Hvalid : valid_binary prec emax (sc_price_val item) = true) by (vm_compute; reflexivity).
  split; [exact Hvalid|]. exact (sc_row_cells item Hvalid).
Defined.

End RowsConcrete.

(** ** Parsing the arguments of a query *)

Section Arguments.
Import Query.
Context `{PyEnv}.

Lemma re_split_words (s : pystr) :
  (forall c, last s = Some c -> is_space c = false) ->
  (forall cur, cur <> [] -> re_split_ws_from cur false s = words_from cur s)
  /\ (s <> [] -> re_split_ws_from [] true s = words_from [] s).
Proof.
  induction s as [|c rest IH]; intros Hlast.
  - split; [|done]. intros cur Hcur. simpl. by destruct cur.
  - assert (rest <> [] -> forall c', last rest = Some c' -> is_space c' = false) as Hrest.
    { intros Hne c' Hc'. apply Hlast. rewrite last_cons, Hc'. done. }
    simpl. destruct (is_space c) eqn:Hc.
    + assert (rest <> []) as Hne.
      { intros ->. specialize (Hlast c eq_refl). congruence. }
      destruct (IH (Hrest Hne)) as [_ IH2]. split.
      * intros cur Hcur. rewrite (IH2 Hne). by destruct cur.
      * intros _. by rewrite (IH2 Hne).
    + destruct rest as [|c2 rest'].
      * split; [|done]. intros cur Hcur. by destruct cur.
      * destruct (IH (Hrest ltac:(done))) as [IH1 _]. split.
        -- intros cur Hcur. apply IH1. by destruct cur.
        -- intros _. by apply IH1.
Qed.

Lemma strip_head_not (p : Z -> bool) (s : pystr) (c : Z) :
  head (strip_with p s) = Some c -> p c = false.
Proof.
  unfold strip_with. rewrite head_rev_last. intros Hc.
  destruct (lstrip_with_split p (rev (lstrip_with p s))) as (ws & Heq & _).
  destruct (lstrip_with p (rev (lstrip_with p s))) as [|x l] eqn:Hl; [done|].
  assert (last (rev (lstrip_with p s)) = Some c) as Hc'.
  { rewrite Heq, last_app. by rewrite Hc. }
  rewrite <- head_rev_last, rev_involutive in Hc'.
  by apply lstrip_with_head_not in Hc'.
Qed.

Lemma re_split_strip (arg : pystr) :
  strip arg <> [] -> re_split_ws (strip arg) = words arg.
Proof.
  intros Hne. rewrite <- (words_strip arg). unfold re_split_ws, words.
  pose proof (strip_head_not is_space arg) as Hhead.
  pose proof (strip_last_not is_space arg) as Hlast.
  fold (strip arg) in Hhead, Hlast.
  destruct (strip arg) as [|c rest]; [done|].
  simpl. rewrite (Hhead c eq_refl).
  destruct (re_split_words rest) as [Hsplit _]; [|by apply Hsplit].
  intros c' Hc'. apply Hlast. rewrite last_cons, Hc'. done.
Qed.

Lemma words_from_no_space (s cur : pystr) :
  no_space cur ->
  Forall (fun w => w <> [] /\ no_space w) (words_from cur s).
Proof.
  revert cur. induction s as [|c rest IH]; intros cur Hcur; simpl.
  - destruct cur; [done|]. constructor; [by split | constructor].
  - destruct (is_space c) eqn:Hc.
    + apply Forall_app. split; [|apply IH; constructor].
      destruct cur; [done|]. constructor; [by split | constructor].
    + apply IH. apply Forall_app. split; [done|]. constructor; [done | constructor].
Qed.

Lemma join_with_cons (sep : Z) (p : pystr) (rest : list pystr) :
  rest <> [] -> join_with sep (p :: rest) = p ++ sep :: join_with sep rest.
Proof. by destruct rest. Qed.

Lemma join_with_nonempty (sep : Z) (w : pystr) (ws : list pystr) :
  w <> [] -> join_with sep (w :: ws) <> [].
Proof. intros Hw. destruct ws; [done|]. rewrite join_with_cons by done. by destruct w. Qed.

Lemma join_words_ends (ws : list pystr) :
  Forall (fun w => w <> [] /\ no_space w) ws ->
  (forall c, head (join_with 32 ws) = Some c -> is_space c = false)
  /\ (forall c, last (join_with 32 ws) = Some c -> is_space c = false).
Proof.
  induction 1 as [|w ws [Hne Hw] Hws [IHh IHl]]; [done|].
  destruct ws as [|w2 ws].
  - simpl. destruct (Forall_head_last _ w Hw) as [Hh Hl]. split; intros c Hc.
    + by apply Hh.
    + by apply Hl.
  - rewrite join_with_cons by done. split; intros c Hc.
    + destruct w as [|x w]; [done|]. simpl in Hc. injection Hc as <-.
      by apply Forall_cons in Hw as [? _].
    + apply IHl. rewrite last_app, last_cons in Hc.
      destruct (last (join_with 32 (w2 :: ws))) eqn:Hj; [done|].
      apply last_None in Hj. apply Forall_cons in Hws as [[Hw2 _] _].
      by apply join_with_nonempty in Hj.
Qed.

Lemma normalize_month_nonempty (p code : pystr) :
  normalize_month_arg p = Some code -> code <> [].
Proof.
  rewrite normalize_month_same. intros Hn.
  apply normalize_month_spec in Hn as (yyyy & mm & v & Hshape & _ & _ & ->).
  destruct Hshape as (y1 & y2 & y3 & y4 & m1 & m2 & _ & _ & -> & _). done.
Qed.

Lemma Forall_removelast {A} (P : A -> Prop) (l : list A) :
  Forall P l -> Forall P (removelast l).
Proof.
  induction 1 as [|x l Hx Hl IH]; [done|]. simpl.
  destruct l; [constructor|]. by constructor.
Qed.

Lemma words_strip_nil (arg : pystr) : strip arg = [] -> words arg = [].
Proof. intros Hs. by rewrite <- (words_strip arg), Hs. Qed.

Lemma words_from_nonempty (s : pystr) :
  forall cur, cur <> [] -> words_from cur s <> [].
Proof.
  induction s as [|x s IH]; intros cur Hcur; simpl.
  - by destruct cur.
  - destruct (is_space x); [by destruct cur|]. apply IH. by destruct cur.
Qed.

Lemma parse_anchor_words (now arg_str : pystr) :
  _parse_anchor_and_month now arg_str
  = match last (words arg_str) with
    | None => ([], now)
    | Some w =>
        match normalize_month_arg w with
        | Some month_code => (join_with 32 (removelast (words arg_str)), month_code)
        | None => (strip arg_str, now)
        end
    end.
Proof.
  unfold _parse_anchor_and_month.
  destruct (strip arg_str) as [|c raw] eqn:Hraw.
  { by rewrite (words_strip_nil _ Hraw). }
  rewrite <- Hraw, re_split_strip by by rewrite Hraw.
  destruct (last (words arg_str)) as [w|] eqn:Hlast.
  - destruct (normalize_month_arg w) as [code|] eqn:Hcode; [|done].
    pose proof (normalize_month_nonempty _ _ Hcode) as Hne.
    destruct code as [|c1 code]; [done|]. f_equal.
    pose proof (words_from_no_space arg_str [] ltac:(constructor)) as Hwords.
    fold (words arg_str) in Hwords. apply Forall_removelast in Hwords.
    destruct (join_words_ends _ Hwords) as [Hh Hl].
    by apply strip_with_ends.
  - exfalso. apply last_None in Hlast.
    rewrite <- (words_strip arg_str), Hraw in Hlast.
    pose proof (strip_head_not is_space arg_str c) as Hc. fold (strip arg_str) in Hc.
    rewrite Hraw in Hc. specialize (Hc eq_refl).
    unfold words in Hlast. simpl in Hlast. rewrite Hc in Hlast.
    by apply words_from_nonempty in Hlast.
Qed.

Lemma words_from_word (m cur : pystr) :
  no_space m -> cur ++ m <> [] -> words_from cur m = [cur ++ m].
Proof.
  intros Hm. revert cur. induction Hm as [|c m Hc _ IH]; intros cur Hne; simpl.
  - rewrite app_nil_r in *. by destruct cur.
  - rewrite Hc, IH, <- app_assoc; [done|]. by destruct cur.
Qed.

Lemma words_from_app_word (x m : pystr) :
  no_space m -> m <> [] ->
  forall cur, words_from cur (x ++ 32 :: m) = words_from cur x ++ [m].
Proof.
  intros Hm Hne. induction x as [|c x IH]; intros cur; simpl.
  - rewrite (words_from_word m []) by done. done.
  - destruct (is_space c); by rewrite IH, ?app_assoc.
Qed.

Lemma join_words_from (s : pystr) :
  forall cur after_space,
    (after_space = false -> cur <> []) ->
    single_spaced after_space s ->
    (forall c, last s = Some c -> is_space c = false) ->
    join_with 32 (words_from cur s) = cur ++ s.
Proof.
  induction s as [|c rest IH]; intros cur b Hcur Hsp Hlast; simpl.
  - rewrite app_nil_r. by destruct cur.
  - simpl in Hsp. destruct (is_space c) eqn:Hc.
    + destruct Hsp as (-> & -> & Hsp).
      assert (cur <> []) as Hne by by apply Hcur.
      destruct rest as [|c2 rest'].
      { specialize (Hlast 32 eq_refl). congruence. }
      assert (is_space c2 = false) as Hc2 by by apply (single_spaced_head (c2 :: rest')).
      assert (forall c', last (c2 :: rest') = Some c' -> is_space c' = false) as Hlast'.
      { intros c' Hc'. apply Hlast. by rewrite last_cons, Hc'. }
      pose proof (IH [] true ltac:(done) Hsp Hlast') as IHrest.
      destruct cur as [|x cur]; [done|]. cbn [app].
      rewrite join_with_cons.
      * by rewrite IHrest.
      * simpl. rewrite Hc2. by apply words_from_nonempty.
    + rewrite (IH (cur ++ [c]) false); [by rewrite <- app_assoc | by destruct cur | done |].
      intros c' Hc'. apply Hlast. rewrite last_cons, Hc'. done.
Qed.

(** X16: a tidy keyword followed by a space and a month text without
    white space parses back to the keyword and the code of the month. *)
Theorem parse_anchor_and_month_round_trip (now kw month month_code : pystr) :
  tidy kw -> no_space month ->
  normalize_month_arg month = Some month_code ->
  _parse_anchor_and_month now (kw ++ 32 :: month) = (kw, month_code).
Proof.
  intros [Hsp Hlast] Hm Hcode.
  assert (month <> []) as Hne by (intros ->; done).
  rewrite parse_anchor_words. unfold words.
  rewrite words_from_app_word by done.
  rewrite last_snoc, Hcode, removelast_last. f_equal.
  by apply (join_words_from kw [] true).
Qed.

(** X15: [_parse_anchor_and_month] in terms of the words of the
    argument. A blank argument gives the empty keyword and the current
    month. When the last word is a month, the result is its code and the
    words before it joined by single spaces; otherwise it is the
    stripped argument, inner white space kept, and the current month. *)
Theorem parse_anchor_and_month_words (now arg_str : pystr) :
  _parse_anchor_and_month now arg_str
  = match last (words arg_str) with
    | None => ([], now)
    | Some w =>
        match normalize_month_arg w with
        | Some month_code => (join_with 32 (removelast (words arg_str)), month_code)
        | None => (strip arg_str, now)
        end
    end.
Proof. apply parse_anchor_words. Qed.

End Arguments.

Section ArgumentsConcrete.
Import Query.
#[local] Existing Instance ascii_env.

(** A keyword of two words and a month with a hyphen. *)
Lemma parse_anchor_and_month_round_trip_witness :
  tidy (u "some anchor") /\ no_space (u "2025-09")
  /\ normalize_month_arg (u "2025-09") = Some (u "202509")
  /\ _parse_anchor_and_month (u "203001") (u "some anchor" ++ 32 :: u "2025-09")
     = (u "some anchor", u "202509").
Proof.
  assert (Htidy : tidy (u "some anchor")).
  { split; [vm_compute; repeat split | intros c [= <-]; reflexivity]. }
  assert (Hmonth : no_space (u "2025-09")) by (repeat constructor).
  assert (Hcode : normalize_month_arg (u "2025-09") = Some (u "202509")) by (vm_compute; reflexivity).
  split; [exact Htidy|]. split; [exact Hmonth|]. split; [exact Hcode|].
  exact (parse_anchor_and_month_round_trip (u "203001") (u "some anchor") (u "2025-09")
           (u "202509") Htidy Hmonth Hcode).
Defined.

End ArgumentsConcrete.

(** ** Merging and deduplicating the monthly lists *)

Section Dedup.
Import Query.
Context `{PyEnv}.

Lemma float_eq_sym (f g : float) : float_eq f g = float_eq g f.
Proof.
  destruct f as [s | s | | s m e], g as [s' | s' | | s' m' e']; simpl; try done.
  - by destruct s, s'.
  - rewrite (Pos.eqb_sym m), (Z.eqb_sym e). by destruct s, s'.
Qed.

Lemma py_eq_sym (a b : pyval) : py_eq a b = py_eq b a.
Proof.
  destruct a, b; simpl; try done;
    try apply Z.eqb_sym; try apply float_eq_sym.
  apply bool_decide_ext. split; by intros ->.
Qed.

Lemma py_eq_refl (a : pyval) : hashable a = true -> py_eq a a = true.
Proof.
  destruct a as [| b | z | f | s | l | kvs]; simpl; try done.
  - intros _. apply Z.eqb_refl.
  - intros _. apply Z.eqb_refl.
  - intros _. destruct f as [s | s | | s m e]; simpl; try done.
    + by destruct s.
    + rewrite Pos.eqb_refl, Z.eqb_refl. by destruct s.
  - intros _. by apply bool_decide_eq_true.
Qed.

Lemma key_eq_sym (k1 k2 : pystr * pyval) : key_eq k1 k2 = key_eq k2 k1.
Proof.
  unfold key_eq. rewrite py_eq_sym. f_equal.
  apply bool_decide_ext. split; by intros ->.
Qed.

Lemma dedup_key_hashable (it : pydict) (k : pystr * pyval) :
  dedup_key it = Some k -> hashable (snd k) = true.
Proof.
  unfold dedup_key. destruct (py_str _); [|done]. simpl.
  destruct (hashable _) eqn:Hh; [|done]. by intros [= <-].
Qed.

Lemma same_key_refl (it : pydict) (k : pystr * pyval) :
  dedup_key it = Some k -> same_key it it.
Proof.
  intros Hk. exists k, k. split; [done|]. split; [done|].
  unfold key_eq. rewrite bool_decide_eq_true_2 by done.
  apply py_eq_refl. by apply dedup_key_hashable in Hk.
Qed.

Lemma same_key_sym (a b : pydict) : same_key a b -> same_key b a.
Proof. intros (ka & kb & ? & ? & Heq). exists kb, ka. by rewrite key_eq_sym. Qed.

Lemma existsb_key_seen (k : pystr * pyval) (seen : list (pystr * pyval)) (out : list pydict) :
  Forall2 (fun it k => dedup_key it = Some k) out seen ->
  existsb (key_eq k) seen = true ->
  exists it' k', it' ∈ out /\ dedup_key it' = Some k' /\ key_eq k k' = true.
Proof.
  intros Hkeys [k' [Hin Heq]]%existsb_exists. apply list_elem_of_In in Hin.
  apply list_elem_of_lookup in Hin as [i Hi].
  destruct (Forall2_lookup_r _ _ _ _ _ Hkeys Hi) as (it' & Hit' & Hk').
  exists it', k'. split; [by eapply list_elem_of_lookup_2|]. done.
Qed.

Lemma existsb_key_new (k : pystr * pyval) (seen : list (pystr * pyval)) (out : list pydict)
      (a : pydict) (ka : pystr * pyval) :
  Forall2 (fun it k => dedup_key it = Some k) out seen ->
  existsb (key_eq k) seen = false ->
  a ∈ out -> dedup_key a = Some ka -> key_eq k ka = false.
Proof.
  intros Hkeys Hnew Ha Hka. apply list_elem_of_lookup in Ha as [i Hi].
  destruct (Forall2_lookup_l _ _ _ _ _ Hkeys Hi) as (k' & Hk' & Hit').
  assert (k' = ka) as -> by congruence.
  destruct (key_eq k ka) eqn:Heq; [|done].
  assert (existsb (key_eq k) seen = true); [|congruence].
  apply existsb_exists. exists ka. split; [|done].
  apply list_elem_of_In. by eapply list_elem_of_lookup_2.
Qed.

Lemma first_kept_snoc (before out out' : list pydict) (it it' : pydict) :
  first_kept before out ->
  (forall x, x ∈ out -> x ∈ out') ->
  it' ∈ out' -> it' ∈ before ++ [it] -> same_key it' it ->
  first_kept (before ++ [it]) out'.
Proof.
  intros Hfirst Hsub Hin' Hbefore Hsame i x Hi.
  destruct (decide (i < length before)%nat) as [Hlt | Hge].
  - rewrite lookup_app_l in Hi by done.
    destruct (Hfirst i x Hi) as (j & y & Hj & Hy & Hyin & Hyx).
    exists j, y. split; [done|]. split; [|by split; [apply Hsub|]].
    rewrite lookup_app_l; [done|]. lia.
  - assert (i = length before) as ->.
    { apply lookup_lt_Some in Hi. rewrite length_app in Hi. simpl in Hi. lia. }
    rewrite list_lookup_middle in Hi by done. injection Hi as <-.
    apply list_elem_of_lookup in Hbefore as [j Hj].
    exists j, it'. split; [|done].
    apply lookup_lt_Some in Hj. rewrite length_app in Hj. simpl in Hj. lia.
Qed.

Lemma dedup_step_inv (before : list pydict) (seen : list (pystr * pyval)) (out : list pydict)
      (it : pydict) (key : pystr * pyval) :
  dedup_inv before seen out ->
  dedup_key it = Some key ->
  if existsb (key_eq key) seen
  then dedup_inv (before ++ [it]) seen out
  else dedup_inv (before ++ [it]) (seen ++ [key]) (out ++ [it]).
Proof.
  intros [Hkeys Hsub Hdist Hfirst] Hkey.
  destruct (existsb (key_eq key) seen) eqn:Hseen.
  - destruct (existsb_key_seen _ _ _ Hkeys Hseen) as (it' & k' & Hin & Hk' & Heq).
    split; [done | by apply sublist_inserts_r | done |].
    apply (first_kept_snoc before out out it it' Hfirst); [done | done | |].
    + apply elem_of_app. left. by apply (sublist_subseteq _ _ Hsub).
    + exists k', key. by rewrite key_eq_sym.
  - split.
    + apply Forall2_app; [done|]. by constructor.
    + by apply sublist_app.
    + intros i j a b Hij Ha Hb Hsame.
      destruct (decide (j < length out)%nat) as [Hlt | Hge].
      * rewrite lookup_app_l in Ha, Hb by lia. by apply (Hdist i j a b).
      * assert (j = length out) as ->.
        { apply lookup_lt_Some in Hb. rewrite length_app in Hb. simpl in Hb. lia. }
        rewrite list_lookup_middle in Hb by done. injection Hb as <-.
        rewrite lookup_app_l in Ha by lia.
        destruct Hsame as (ka & kb & Hka & Hkb & Heq).
        assert (kb = key) as -> by congruence.
        rewrite key_eq_sym in Heq.
        rewrite (existsb_key_new key seen out a ka Hkeys Hseen) in Heq; [done | | done].
        by eapply list_elem_of_lookup_2.
    + apply (first_kept_snoc before out (out ++ [it]) it it Hfirst).
      * intros x Hx. apply elem_of_app. by left.
      * apply elem_of_app. right. by apply list_elem_of_singleton.
      * apply elem_of_app. right. by apply list_elem_of_singleton.
      * by eapply same_key_refl.
Qed.

Lemma dedup_loop_inv (items : list pydict) :
  forall before seen out,
    dedup_inv before seen out ->
    match dedup_loop items seen out with
    | Some res => exists seen', dedup_inv (before ++ items) seen' res
    | None => exists it, it ∈ items /\ dedup_key it = None
    end.
Proof.
  induction items as [|it rest IH]; intros before seen out Hinv; simpl.
  - exists seen. by rewrite app_nil_r.
  - destruct (dedup_key it) as [key|] eqn:Hkey; simpl.
    + pose proof (dedup_step_inv _ _ _ it key Hinv Hkey) as Hstep.
      destruct (existsb (key_eq key) seen).
      * specialize (IH _ _ _ Hstep). rewrite <- app_assoc in IH. simpl in IH.
        destruct (dedup_loop rest seen out); [done|].
        destruct IH as (x & Hx & Hnone). exists x. split; [by right | done].
      * specialize (IH _ _ _ Hstep). rewrite <- app_assoc in IH. simpl in IH.
        destruct (dedup_loop rest (seen ++ [key]) (out ++ [it])); [done|].
        destruct IH as (x & Hx & Hnone). exists x. split; [by right | done].
    + exists it. split; [by left | done].
Qed.

Lemma dedup_inv_init : dedup_inv [] [] [].
Proof.
  split; [constructor | done | |].
  - intros i j a b _ Ha. done.
  - intros i it Hi. done.
Qed.

Lemma dedup_loop_fixed (l : list pydict) :
  forall seen out,
    Forall2 (fun it k => dedup_key it = Some k) out seen ->
    Forall (fun it => is_Some (dedup_key it)) l ->
    distinct_keys (out ++ l) ->
    dedup_loop l seen out = Some (out ++ l).
Proof.
  induction l as [|it rest IH]; intros seen out Hkeys Hall Hdist; simpl.
  - by rewrite app_nil_r.
  - apply Forall_cons in Hall as [[key Hkey] Hall]. rewrite Hkey. simpl.
    destruct (existsb (key_eq key) seen) eqn:Hseen.
    + exfalso.
      destruct (existsb_key_seen _ _ _ Hkeys Hseen) as (it' & k' & Hin & Hk' & Heq).
      apply list_elem_of_lookup in Hin as [i Hi].
      apply (Hdist i (length out) it' it).
      * by apply lookup_lt_Some in Hi.
      * by rewrite lookup_app_l by by apply lookup_lt_Some in Hi.
      * by rewrite list_lookup_middle.
      * exists k', key. by rewrite key_eq_sym.
    + rewrite (IH (seen ++ [key]) (out ++ [it])); [by rewrite <- app_assoc | | done |].
      * apply Forall2_app; [done|]. by constructor.
      * by rewrite <- app_assoc.
Qed.

Lemma dedup_loop_extends (ys : list pydict) :
  forall seen out res,
    dedup_loop ys seen out = Some res ->
    exists more, res = out ++ more /\ sublist more ys.
Proof.
  induction ys as [|it rest IH]; intros seen out res; simpl.
  - intros [= <-]. exists []. by rewrite app_nil_r.
  - destruct (dedup_key it) as [key|]; [|done]. simpl.
    destruct (existsb (key_eq key) seen); intros Hres.
    + destruct (IH _ _ _ Hres) as (more & -> & Hsub).
      exists more. split; [done|]. by apply sublist_cons.
    + destruct (IH _ _ _ Hres) as (more & -> & Hsub).
      exists (it :: more). split; [by rewrite <- app_assoc|]. by apply sublist_skip.
Qed.

Lemma dedup_loop_app (xs ys : list pydict) :
  forall seen out res,
    dedup_loop (xs ++ ys) seen out = Some res ->
    exists kept more,
      dedup_loop xs seen out = Some kept /\ res = kept ++ more /\ sublist more ys.
Proof.
  induction xs as [|it rest IH]; intros seen out res; simpl.
  - intros Hres. destruct (dedup_loop_extends _ _ _ _ Hres) as (more & -> & Hsub).
    by exists out, more.
  - destruct (dedup_key it) as [key|]; [|done]. simpl.
    destruct (existsb (key_eq key) seen); apply IH.
Qed.

Lemma dedup_first_spec (items : list pydict) :
  match _dedup_by_anchor_room items with
  | Some out =>
      sublist out items /\ distinct_keys out /\ first_kept items out
      /\ _dedup_by_anchor_room out = Some out
  | None => exists it, it ∈ items /\ dedup_key it = None
  end.
Proof.
  pose proof (dedup_loop_inv items [] [] [] dedup_inv_init) as Hloop.
  unfold _dedup_by_anchor_room. simpl in Hloop.
  destruct (dedup_loop items [] []) as [out|]; [|done].
  destruct Hloop as (seen & [Hkeys ? Hdist ?]).
  split; [done|]. split; [done|]. split; [done|].
  apply (dedup_loop_fixed out [] []); [constructor | | done].
  apply Forall_forall. intros it [i Hi]%list_elem_of_lookup.
  destruct (Forall2_lookup_l _ _ _ _ _ Hkeys Hi) as (k & _ & Hk). by exists k.
Qed.

(** X17: [_dedup_by_anchor_room] keeps the entries in their order, no
    two kept entries have equal keys, every entry has a kept entry with
    an equal key that occurs no later than it, and the result is left
    unchanged by a second pass. The call raises only when [str()] raises
    on an anchor name or a room id is unhashable. *)
Theorem dedup_keeps_first_occurrences (items : list pydict) :
  match _dedup_by_anchor_room items with
  | Some out =>
      sublist out items /\ distinct_keys out /\ first_kept items out
      /\ _dedup_by_anchor_room out = Some out
  | None => exists it, it ∈ items /\ dedup_key it = None
  end.
Proof. apply dedup_first_spec. Qed.

(** X18: in the merged list of [fetch_all_data_by_month] the entries
    kept from the first base come first, exactly as if it were alone;
    the entries of the second base follow in their order, and only as
    far as their keys are new. *)
Theorem merge_first_base_precedes (vr psp : list pydict) :
  match merge_month_lists [vr; psp] with
  | Some out =>
      exists kept more,
        _dedup_by_anchor_room vr = Some kept
        /\ out = kept ++ more /\ sublist more psp
        /\ distinct_keys out
  | None => exists it, (it ∈ vr \/ it ∈ psp) /\ dedup_key it = None
  end.
Proof.
  unfold merge_month_lists. simpl concat. rewrite app_nil_r.
  pose proof (dedup_first_spec (vr ++ psp)) as Hspec.
  destruct (_dedup_by_anchor_room (vr ++ psp)) as [out|] eqn:Hout.
  - destruct Hspec as (_ & Hdist & _).
    destruct (dedup_loop_app vr psp [] [] out Hout) as (kept & more & Hkept & -> & Hsub).
    by exists kept, more.
  - destruct Hspec as (it & Hin & Hnone). exists it. split; [|done].
    by apply elem_of_app in Hin.
Qed.

End Dedup.

(** ** Drawing text *)

Section Drawing.
Context `{PyEnv}.
Variable b : Backend.

Lemma text_row_app (ops1 ops2 : list draw_op) :
  forall x y,
    text_row b x y ops1 -> text_row b (x + ops_width b ops1) y ops2 ->
    text_row b x y (ops1 ++ ops2).
Proof.
  induction ops1 as [|op ops1 IH]; intros x y; simpl.
  - by rewrite Z.add_0_r.
  - destruct op as [at_xy text fill e|]; [|done]. intros [-> Hrow] Hrest.
    split; [done|]. apply IH; [done|]. simpl in Hrest. by rewrite Z.add_assoc in Hrest.
Qed.

Lemma ops_width_app (ops1 ops2 : list draw_op) :
  ops_width b (ops1 ++ ops2) = ops_width b ops1 + ops_width b ops2.
Proof. unfold ops_width. induction ops1 as [|op ops1 IH]; simpl; [done|]. rewrite IH. lia. Qed.

Lemma ops_text_app (ops1 ops2 : list draw_op) :
  ops_text (ops1 ++ ops2) = ops_text ops1 ++ ops_text ops2.
Proof. unfold ops_text. by rewrite map_app, concat_app. Qed.

Lemma drawn_after_refl (p : PicGenerator) : drawn_after p p [] (pic_xy p).
Proof. unfold drawn_after. rewrite app_nil_r. by destruct p. Qed.

Lemma drawn_after_trans (p q r : PicGenerator) (ops1 ops2 : list draw_op) (xy1 xy2 : Z * Z) :
  drawn_after p q ops1 xy1 -> drawn_after q r ops2 xy2 ->
  drawn_after p r (ops1 ++ ops2) xy2.
Proof. unfold drawn_after. intros -> ->. simpl. by rewrite app_assoc. Qed.

Lemma draw_runs_spec (x y : Z) (fill : rgb) (runs : list (pystr * bool)) :
  forall p used,
  exists q ops,
    fold_left
      (fun '(p, used_width) run =>
         (with_drawn p (DrawText (x + used_width, y) (fst run) fill (snd run)),
          used_width + _text_length b (snd run) (fst run)))
      runs (p, used)
    = (q, used + runs_width b runs)
    /\ drawn_after p q ops (pic_xy p)
    /\ text_row b (x + used) y ops
    /\ ops_text ops = concat (map fst runs)
    /\ ops_width b ops = runs_width b runs
    /\ Forall (fun op => op_fill op = fill) ops.
Proof.
  induction runs as [|[t e] runs IH]; intros p used.
  - exists p, []. simpl. rewrite Z.add_0_r.
    split; [done|]. split; [apply drawn_after_refl|]. by repeat split.
  - cbn [fold_left fst snd].
    destruct (IH (with_drawn p (DrawText (x + used, y) t fill e)) (used + _text_length b e t))
      as (q & ops & Hrun & Hafter & Hrow & Htext & Hwidth & Hfill).
    exists q, (DrawText (x + used, y) t fill e :: ops).
    assert (runs_width b ((t, e) :: runs) = _text_length b e t + runs_width b runs) as Hw.
    { unfold runs_width. simpl. rewrite !fold_width_shift. lia. }
    rewrite Hrun, Hw. split; [f_equal; lia|]. split.
    { unfold drawn_after in *. rewrite Hafter. simpl. by rewrite <- app_assoc. }
    split; [simpl; split; [done|]; by rewrite <- Z.add_assoc|].
    split; [unfold ops_text in *; simpl; by rewrite Htext|].
    split; [unfold ops_width in *; simpl; by rewrite Hwidth|].
    by constructor.
Qed.

Lemma draw_with_fallback_spec (p : PicGenerator) (x y : Z) (text : pystr) (fill : rgb) :
  exists q ops,
    _draw_with_fallback b p x y text fill = (q, _measure_with_fallback b text)
    /\ drawn_after p q ops (pic_xy p)
    /\ text_row b x y ops
    /\ ops_text ops = text
    /\ ops_width b ops = _measure_with_fallback b text
    /\ Forall (fun op => op_fill op = fill) ops.
Proof.
  destruct (draw_runs_spec x y fill (_split_runs_by_emoji text) p 0)
    as (q & ops & Hrun & Hafter & Hrow & Htext & Hwidth & Hfill).
  exists q, ops. unfold _draw_with_fallback. rewrite Hrun.
  rewrite Z.add_0_r in Hrow. rewrite split_runs_concat in Htext.
  by rewrite measure_runs_width.
Qed.

Lemma draw_texts_at_spec (rgb_list : list rgb) (texts : list pystr) :
  forall i x y p,
    (i + length texts <= length rgb_list)%nat ->
    exists q ops,
      draw_texts_at b rgb_list i texts x y p = Some q
      /\ drawn_after p q ops (pic_xy p)
      /\ text_row b x y ops
      /\ ops_text ops = concat texts
      /\ ops_width b ops = texts_width b texts
      /\ (forall fill, Forall (fun f => f = fill) rgb_list ->
                       Forall (fun op => op_fill op = fill) ops).
Proof.
  induction texts as [|t rest IH]; intros i x y p Hlen.
  - exists p, []. split; [done|]. split; [apply drawn_after_refl|].
    split; [done|]. split; [done|]. split; [done|]. by intros.
  - simpl in Hlen. cbn [draw_texts_at].
    destruct (lookup_lt_is_Some_2 rgb_list i ltac:(lia)) as [fill Hfill].
    rewrite Hfill. cbn [mbind option_bind].
    destruct (draw_with_fallback_spec p x y t fill)
      as (q1 & ops1 & Hdraw & Hafter1 & Hrow1 & Htext1 & Hwidth1 & Hfill1).
    rewrite Hdraw.
    destruct (IH (S i) (x + _measure_with_fallback b t) y q1 ltac:(lia))
      as (q & ops & Hrun & Hafter & Hrow & Htext & Hwidth & Hfills).
    exists q, (ops1 ++ ops). split; [done|]. split.
    { eapply drawn_after_trans; [exact Hafter1|].
      replace (pic_xy p) with (pic_xy q1); [done|]. by rewrite Hafter1. }
    split; [apply text_row_app; [done | by rewrite Hwidth1]|].
    split; [by rewrite ops_text_app, Htext1, Htext|].
    split; [rewrite ops_width_app, Hwidth1, Hwidth; done|].
    intros fill0 Hall. apply Forall_app. split; [|by apply Hfills].
    rewrite Forall_lookup in Hall. by rewrite (Hall i fill Hfill) in Hfill1.
Qed.

Lemma draw_texts_at_cursor_spec (rgb_list : list rgb) (texts : list pystr) :
  forall i p,
    (i + length texts <= length rgb_list)%nat ->
    exists q ops,
      draw_texts_at_cursor b rgb_list i texts p = Some q
      /\ drawn_after p q ops (fst (pic_xy p) + texts_width b texts, snd (pic_xy p))
      /\ text_row b (fst (pic_xy p)) (snd (pic_xy p)) ops
      /\ ops_text ops = concat texts
      /\ ops_width b ops = texts_width b texts
      /\ (forall fill, Forall (fun f => f = fill) rgb_list ->
                       Forall (fun op => op_fill op = fill) ops).
Proof.
  induction texts as [|t rest IH]; intros i p Hlen.
  - exists p, []. split; [done|]. split.
    { unfold drawn_after. simpl. rewrite app_nil_r, Z.add_0_r. by destruct p as [? ? ? [??] ? ? ? ?]. }
    split; [done|]. split; [done|]. split; [done|]. by intros.
  - simpl in Hlen. cbn [draw_texts_at_cursor].
    destruct (lookup_lt_is_Some_2 rgb_list i ltac:(lia)) as [fill Hfill].
    rewrite Hfill. cbn [mbind option_bind].
    destruct (draw_with_fallback_spec p (fst (pic_xy p)) (snd (pic_xy p)) t fill)
      as (q1 & ops1 & Hdraw & Hafter1 & Hrow1 & Htext1 & Hwidth1 & Hfill1).
    rewrite Hdraw.
    destruct (IH (S i) (move_pos q1 (_measure_with_fallback b t) 0) ltac:(lia))
      as (q & ops & Hrun & Hafter & Hrow & Htext & Hwidth & Hfills).
    assert (pic_xy q1 = pic_xy p) as Hxy by by rewrite Hafter1.
    exists q, (ops1 ++ ops). split; [done|]. split.
    { unfold drawn_after in *. rewrite Hafter. unfold move_pos, with_xy. simpl.
      rewrite Hxy, Hafter1. simpl. rewrite <- app_assoc.
      f_equal. f_equal; lia. }
    split.
    { apply text_row_app; [done|]. rewrite Hwidth1.
      unfold move_pos, with_xy in Hrow. simpl in Hrow. rewrite Hxy in Hrow.
      by rewrite Z.add_0_r in Hrow. }
    split; [by rewrite ops_text_app, Htext1, Htext|].
    split; [rewrite ops_width_app, Hwidth1, Hwidth; done|].
    intros fill0 Hall. apply Forall_app. split; [|by apply Hfills].
    rewrite Forall_lookup in Hall. by rewrite (Hall i fill Hfill) in Hfill1.
Qed.

(** The texts and the colours [draw_text] works with. *)
Lemma rgb_list_length (texts_list : list pystr) (colors_list : list color_arg) :
  length (map _to_rgb
            (take (length texts_list)
                  (colors_list
                   ++ replicate (length texts_list - length colors_list) (AColor BLACK))))
  = length texts_list.
Proof. rewrite length_map, length_take, length_app, length_replicate. lia. Qed.

Lemma draw_text_spec (p : PicGenerator) (texts : texts_arg) (colors : colors_arg)
      (xy : option (Z * Z)) :
  exists q ops,
    draw_text b p texts colors xy = Some q
    /\ drawn_after p q ops
         match xy with
         | None => (fst (pic_xy p), snd (pic_xy p) + 30 + pic_row_space p)
         | Some _ => pic_xy p
         end
    /\ text_row b (fst (default (pic_xy p) xy)) (snd (default (pic_xy p) xy)) ops
    /\ ops_text ops = concat (texts_list_of texts)
    /\ ops_width b ops = texts_width b (texts_list_of texts)
    /\ (colors = NoColors -> Forall (fun op => op_fill op = Color_value BLACK) ops)
    /\ (forall s c, texts = AText s -> colors = OneColor c ->
                    Forall (fun op => op_fill op = _to_rgb c) ops).
Proof.
  unfold draw_text. fold (texts_list_of texts).
  set (texts_list := texts_list_of texts).
  set (colors_list := match colors with NoColors => [] | OneColor c => [c] | ManyColors l => l end).
  set (rgb_list := map _to_rgb _).
  assert (length rgb_list = length texts_list) as Hlen by apply rgb_list_length.
  assert (colors = NoColors -> Forall (fun f => f = Color_value BLACK) rgb_list) as Hblack.
  { intros ->. unfold rgb_list, colors_list. simpl. rewrite Nat.sub_0_r, firstn_all2.
    - apply Forall_forall. intros f Hf. apply list_elem_of_fmap in Hf as (c & -> & Hc).
      by apply elem_of_replicate in Hc as [-> _].
    - by rewrite length_replicate. }
  assert (forall s c, texts = AText s -> colors = OneColor c ->
                      Forall (fun f => f = _to_rgb c) rgb_list) as Hone.
  { intros s0 c -> ->. unfold rgb_list, colors_list, texts_list. simpl.
    by constructor. }
  destruct xy as [[x y]|].
  - destruct (draw_texts_at_spec rgb_list texts_list 0%nat x y p ltac:(lia))
      as (q & ops & Hrun & Hafter & Hrow & Htext & Hwidth & Hfills).
    exists q, ops. split; [done|]. split; [done|]. split; [done|].
    split; [done|]. split; [done|]. split.
    + intros Hc. by apply Hfills, Hblack.
    + intros s0 c Ht Hc. by apply Hfills, (Hone s0).
  - destruct (draw_texts_at_cursor_spec rgb_list texts_list 0%nat p ltac:(lia))
      as (q & ops & Hrun & Hafter & Hrow & Htext & Hwidth & Hfills).
    rewrite Hrun. cbn [mbind option_bind].
    eexists _, ops. split; [reflexivity|]. split.
    { unfold drawn_after in *. rewrite Hafter. unfold set_pos, with_xy. simpl.
      by unfold text_font_size. }
    split; [done|]. split; [done|]. split; [done|]. split.
    + intros Hc. by apply Hfills, Hblack.
    + intros s0 c Ht Hc. by apply Hfills, (Hone s0).
Qed.

(** X19: [_draw_with_fallback] returns the width that
    [_measure_with_fallback] gives for the text. It changes nothing but
    the drawing, to which it adds text calls in one fill that form a row
    from the given position on, each run starting where the run before
    it ends, and whose texts concatenate to the text. *)
Theorem draw_with_fallback_measures (p : PicGenerator) (x y : Z) (text : pystr) (fill : rgb) :
  exists q ops,
    _draw_with_fallback b p x y text fill = (q, _measure_with_fallback b text)
    /\ drawn_after p q ops (pic_xy p)
    /\ text_row b x y ops
    /\ ops_text ops = text
    /\ ops_width b ops = _measure_with_fallback b text
    /\ Forall (fun op => op_fill op = fill) ops.
Proof. apply draw_with_fallback_spec. Qed.

(** X20: [draw_text] never raises on its colour list. Without [xy] it
    draws the texts as one row from the cursor on, each text starting
    where the text before it ends, then puts the cursor back to its
    column and [30 + row_space] lower; with [xy] it draws the row there
    and leaves the cursor alone. Without colours the fill is black; one
    colour for one text is its fill. *)
Theorem draw_text_moves_cursor (p : PicGenerator) (texts : texts_arg) (colors : colors_arg)
        (xy : option (Z * Z)) :
  exists q ops,
    draw_text b p texts colors xy = Some q
    /\ drawn_after p q ops
         match xy with
         | None => (fst (pic_xy p), snd (pic_xy p) + 30 + pic_row_space p)
         | Some _ => pic_xy p
         end
    /\ text_row b (fst (default (pic_xy p) xy)) (snd (default (pic_xy p) xy)) ops
    /\ ops_text ops = concat (texts_list_of texts)
    /\ ops_width b ops = texts_width b (texts_list_of texts)
    /\ (colors = NoColors -> Forall (fun op => op_fill op = Color_value BLACK) ops)
    /\ (forall s c, texts = AText s -> colors = OneColor c ->
                    Forall (fun op => op_fill op = _to_rgb c) ops).
Proof. apply draw_text_spec. Qed.

Lemma draw_text_right_spec (p : PicGenerator) (margin_right : Z) (texts : texts_arg)
      (colors : colors_arg) (xy_limit : Z * Z) :
  let joined := concat (texts_list_of texts) in
  let x := pic_width p - margin_right - _measure_with_fallback b joined in
  let y := Z.max (snd (pic_xy p)) (snd xy_limit + pic_auto_size_margin p) in
  exists q ops,
    draw_text_right b p margin_right texts colors xy_limit = Some q
    /\ drawn_after p q ops (fst (pic_xy p), y + 30 + pic_row_space p)
    /\ text_row b x y ops
    /\ ops_text ops = joined
    /\ x + ops_width b ops
       = pic_width p - margin_right
         + (texts_width b (texts_list_of texts) - _measure_with_fallback b joined)
    /\ (forall s, texts = AText s -> x + ops_width b ops = pic_width p - margin_right).
Proof.
  intros joined x y. unfold draw_text_right.
  assert (match texts with AText s => s | ATexts l => concat l end = joined) as ->.
  { unfold joined. destruct texts; simpl; [by rewrite app_nil_r | done]. }
  fold x. fold y.
  destruct (draw_text_spec p texts colors (Some (x, y)))
    as (q & ops & Hdraw & Hafter & Hrow & Htext & Hwidth & _).
  rewrite Hdraw. cbn [mbind option_bind].
  eexists _, ops. split; [reflexivity|]. split.
  { unfold drawn_after in *. rewrite Hafter. unfold set_pos, with_xy. simpl.
    by unfold text_font_size. }
  split; [done|]. split; [done|]. split; [rewrite Hwidth; lia|].
  intros s0 ->. rewrite Hwidth. subst x joined. unfold texts_width. simpl.
  rewrite app_nil_r. lia.
Qed.

(** X21: [draw_text_right] draws the row at the height of the cursor,
    or [auto_size_margin] below [xy_limit] if that is lower, from the width of the
    picture less the margin and the measured width of the joined text;
    it ends at the margin up to the difference between the widths of
    the texts and the width of the joined text, and for one string
    exactly at the margin. The cursor keeps its column and goes
    [30 + row_space] below the row. *)
Theorem draw_text_right_aligns (p : PicGenerator) (margin_right : Z) (texts : texts_arg)
        (colors : colors_arg) (xy_limit : Z * Z) :
  let joined := concat (texts_list_of texts) in
  let x := pic_width p - margin_right - _measure_with_fallback b joined in
  let y := Z.max (snd (pic_xy p)) (snd xy_limit + pic_auto_size_margin p) in
  exists q ops,
    draw_text_right b p margin_right texts colors xy_limit = Some q
    /\ drawn_after p q ops (fst (pic_xy p), y + 30 + pic_row_space p)
    /\ text_row b x y ops
    /\ ops_text ops = joined
    /\ x + ops_width b ops
       = pic_width p - margin_right
         + (texts_width b (texts_list_of texts) - _measure_with_fallback b joined)
    /\ (forall s, texts = AText s -> x + ops_width b ops = pic_width p - margin_right).
Proof. apply draw_text_right_spec. Qed.

End Drawing.

(** ** Drawing a page of the super chat table *)

Section Pages.
Import Query.
Context `{PyEnv}.
Variable b : Backend.

Lemma text_row_between (ops : list draw_op) :
  forall x y, text_row b x y ops -> Forall (text_between y y) ops.
Proof.
  induction ops as [|op ops IH]; intros x y Hrow; [constructor|].
  destruct op as [at_xy t f e|]; [|done]. destruct Hrow as [-> Hrow].
  constructor; [simpl; lia | by eapply IH].
Qed.

Lemma text_between_weaken (lo hi lo' hi' : Z) (ops : list draw_op) :
  lo' <= lo -> hi <= hi' ->
  Forall (text_between lo hi) ops -> Forall (text_between lo' hi') ops.
Proof.
  intros Hlo Hhi Hall. eapply Forall_impl; [exact Hall|].
  intros [at_xy t f e|]; simpl; [lia | done].
Qed.

Lemma drawn_after_set_pos (p q : PicGenerator) (x y : option Z) (ops : list draw_op)
      (xy : Z * Z) :
  drawn_after (set_pos p x y) q ops xy -> drawn_after p q ops xy.
Proof. by unfold drawn_after, set_pos, with_xy. Qed.

Lemma drawn_after_rect (p q : PicGenerator) (x y w h radius : Z) (color : color_arg)
      (ops : list draw_op) (xy : Z * Z) :
  drawn_after (draw_rounded_rectangle p x y w h radius color) q ops xy ->
  drawn_after p q (DrawRoundedRectangle x y (x + w) (y + h) radius (_to_rgb color) :: ops) xy.
Proof.
  unfold drawn_after, draw_rounded_rectangle, with_drawn. simpl. intros ->.
  by rewrite <- app_assoc.
Qed.

(** One text drawn at a position set before. *)
Lemma draw_text_at_pos (p : PicGenerator) (x y : Z) (txt : pystr) (colors : colors_arg) :
  exists q ops,
    draw_text b (set_pos p (Some x) (Some y)) (AText txt) colors None = Some q
    /\ drawn_after p q ops (x, y + 30 + pic_row_space p)
    /\ Forall (text_between y y) ops.
Proof.
  destruct (draw_text_spec b (set_pos p (Some x) (Some y)) (AText txt) colors None)
    as (q & ops & Hdraw & Hafter & Hrow & _).
  exists q, ops. split; [done|]. split; [by apply drawn_after_set_pos in Hafter|].
  by apply text_row_between in Hrow.
Qed.

Lemma draw_cells_spec (cells : list (Z * pystr)) (y : Z) (color : Color) :
  forall cur_x p,
  exists q ops xy,
    draw_cells b cells cur_x y color p = Some (q, cur_x + foldr Z.add 0 (map fst cells))
    /\ drawn_after p q ops xy
    /\ Forall (text_between y y) ops.
Proof.
  induction cells as [|[w txt] rest IH]; intros cur_x p.
  - exists p, [], (pic_xy p). simpl. rewrite Z.add_0_r.
    split; [done|]. split; [apply drawn_after_refl | constructor].
  - cbn [draw_cells].
    destruct (draw_text_at_pos p cur_x y txt (ManyColors [AColor color]))
      as (q1 & ops1 & Hdraw & Hafter1 & Hin1).
    rewrite Hdraw. cbn [mbind option_bind].
    destruct (IH (cur_x + w) q1) as (q & ops & xy & Hrun & Hafter & Hin).
    exists q, (ops1 ++ ops), xy. rewrite Hrun. split; [simpl; f_equal; f_equal; lia|].
    split; [by eapply drawn_after_trans | by apply Forall_app].
Qed.

Lemma draw_msg_lines_spec (lines : list pystr) (msg_x : Z) :
  forall y p,
  exists q ops xy,
    draw_msg_lines b (map PStr lines) msg_x y p = Some q
    /\ drawn_after p q ops xy
    /\ Forall (text_between y (y + 28 * (Z.of_nat (length lines) - 1))) ops.
Proof.
  induction lines as [|line rest IH]; intros y p.
  - exists p, [], (pic_xy p). split; [done|]. split; [apply drawn_after_refl | constructor].
  - cbn [map draw_msg_lines].
    destruct (draw_text_at_pos p msg_x y line (ManyColors [AColor BLACK]))
      as (q1 & ops1 & Hdraw & Hafter1 & Hin1).
    rewrite Hdraw. cbn [mbind option_bind].
    destruct (IH (y + EXTRA_PER_LINE) q1) as (q & ops & xy & Hrun & Hafter & Hin).
    exists q, (ops1 ++ ops), xy. split; [done|].
    split; [by eapply drawn_after_trans|]. unfold EXTRA_PER_LINE in Hin.
    apply Forall_app. split.
    + eapply text_between_weaken; [| |exact Hin1]; simpl length; lia.
    + destruct rest as [|l2 rest'].
      * assert (ops = []) as ->; [|constructor].
        simpl in Hrun. injection Hrun as <-. unfold drawn_after in Hafter.
        apply (f_equal pic_drawn) in Hafter. simpl in Hafter.
        rewrite <- (app_nil_r (pic_drawn q1)) in Hafter at 1.
        by apply app_inv_head in Hafter.
      * eapply text_between_weaken; [| |exact Hin]; simpl length; lia.
Qed.

Lemma sc_built_shape (r : pydict) :
  sc_built r ->
  exists c_time c_uname c_uid c_price lines,
    lines <> []
    /\ r !! "time" = Some (PStr c_time)
    /\ r !! "uname" = Some (PStr c_uname)
    /\ r !! "uid" = Some (PStr c_uid)
    /\ r !! "price" = Some (PStr c_price)
    /\ r !! "msg_lines" = Some (PList (map PStr lines))
    /\ r !! "row_height" = Some (PInt (60 + 28 * (Z.of_nat (length lines) - 1)))
    /\ row_h r = 60 + 28 * (Z.of_nat (length lines) - 1).
Proof.
  intros [item Hrow].
  apply sc_row_some in Hrow
    as (send_time & uname & uid & message & price_int & price & lines
        & _ & _ & _ & _ & _ & _ & Hwrap & ->).
  destruct (wrap_message_lines (clean_sc_message message)) as (lines' & Hwrap' & _ & Hlen & _).
  rewrite Hwrap in Hwrap'. injection Hwrap' as <-.
  assert (1 <= Z.of_nat (length lines)) as Hpos by lia.
  assert (BASE_ROW_H + (Z.max 1 (Z.of_nat (length lines)) - 1) * EXTRA_PER_LINE
          = 60 + 28 * (Z.of_nat (length lines) - 1)) as Hh.
  { unfold BASE_ROW_H, EXTRA_PER_LINE. lia. }
  rewrite Hh.
  exists send_time, (limit_uname_visual uname twelve), (take 16 uid), (take 5 price), lines.
  split; [intros ->; simpl in Hpos; lia|].
  split; [by rewrite !lookup_insert_ne, lookup_insert_eq by done|].
  split; [by rewrite !lookup_insert_ne, lookup_insert_eq by done|].
  split; [by rewrite !lookup_insert_ne, lookup_insert_eq by done|].
  split; [by rewrite !lookup_insert_ne, lookup_insert_eq by done|].
  split; [by rewrite !lookup_insert_ne, lookup_insert_eq by done|].
  split; [by rewrite lookup_insert_eq|].
  unfold row_h.
  rewrite (row_height_of_int _ (60 + 28 * (Z.of_nat (length lines) - 1)));
    [done | apply lookup_insert_eq | lia].
Qed.

Lemma draw_sc_rows_spec (page_rows : list pydict) (global_start_idx : nat) :
  Forall sc_built page_rows ->
  forall idx cur_y p,
  exists q ops xy,
    draw_sc_rows b page_rows global_start_idx idx cur_y p = Some q
    /\ drawn_after p q ops xy
    /\ rows_stacked page_rows global_start_idx idx cur_y ops.
Proof.
  induction 1 as [|r rest Hr _ IH]; intros idx cur_y p.
  - exists p, [], (pic_xy p). split; [done|]. split; [apply drawn_after_refl | done].
  - destruct (sc_built_shape r Hr)
      as (c_time & c_uname & c_uid & c_price & lines & Hne & Htime & Huname & Huid & Hprice
          & Hlines & Hheight & Hrow_h).
    cbn [draw_sc_rows]. rewrite Hheight. cbn [mbind option_bind py_int].
    rewrite Htime, Huname, Huid, Hprice. cbn [mbind option_bind].
    change (mapM py_str [PStr c_time; PStr c_uname; PStr c_uid; PStr c_price])
      with (Some [c_time; c_uname; c_uid; c_price]).
    cbn [mbind option_bind].
    set (h := 60 + 28 * (Z.of_nat (length lines) - 1)) in *.
    set (p1 := draw_rounded_rectangle p _ _ _ _ _ _).
    destruct (draw_cells_spec
                (zip (take 4 sc_col_widths) [c_time; c_uname; c_uid; c_price])
                (cur_y + 18) BLACK (20 + 10) p1)
      as (q2 & ops2 & xy2 & Hcells & Hafter2 & Hin2).
    rewrite Hcells. cbn [mbind option_bind]. rewrite Hlines. cbn [mbind option_bind].
    set (msg_x := 20 + 10 + _).
    destruct (draw_msg_lines_spec lines msg_x (cur_y + 18) q2)
      as (q3 & ops3 & xy3 & Hmsg & Hafter3 & Hin3).
    rewrite Hmsg. cbn [mbind option_bind].
    destruct (IH (S idx) (cur_y + h) q3) as (q & ops & xy & Hrun & Hafter & Hstack).
    exists q, (DrawRoundedRectangle 20 cur_y 1820 (cur_y + h) 0
                 (Color_value (if stripe global_start_idx idx then LIGHTGRAY else WHITE))
               :: (ops2 ++ ops3) ++ ops), xy.
    split; [done|]. split.
    + pose proof (drawn_after_trans _ _ _ _ _ _ _ Hafter2 Hafter3) as H23.
      pose proof (drawn_after_trans _ _ _ _ _ _ _ H23 Hafter) as H234.
      apply drawn_after_rect in H234. exact H234.
    + cbn [rows_stacked]. rewrite Hrow_h. fold h.
      exists (ops2 ++ ops3), ops. split; [done|]. split; [|done].
      assert (1 <= Z.of_nat (length lines)) by (destruct lines; [done | simpl; lia]).
      apply Forall_app. split.
      * eapply text_between_weaken; [| |exact Hin2]; unfold h; lia.
      * eapply text_between_weaken; [| |exact Hin3]; unfold h; lia.
Qed.

(** X23: for rows built by [render_sc_images] the row loop never raises
    and draws the rows as a stack from [cur_y] on: for every row a
    rectangle as high as the row, striped by the index of the row on
    all pages, then the texts of the row, anchored from 18 below the
    top of its rectangle to 42 above its bottom. *)
Theorem draw_sc_rows_stacks (page_rows : list pydict) (global_start_idx idx : nat)
        (cur_y : Z) (p : PicGenerator) :
  Forall sc_built page_rows ->
  exists q ops xy,
    draw_sc_rows b page_rows global_start_idx idx cur_y p = Some q
    /\ drawn_after p q ops xy
    /\ rows_stacked page_rows global_start_idx idx cur_y ops.
Proof. intros Hrows. by apply draw_sc_rows_spec. Qed.

Lemma height_sum_nonneg_built (rows : list pydict) :
  Forall sc_built rows -> 0 <= height_sum rows.
Proof.
  induction 1 as [|r rest Hr _ IH]; [done|].
  destruct (sc_built_shape r Hr) as (_ & _ & _ & _ & lines & Hne & _ & _ & _ & _ & _ & _ & Hh).
  assert (1 <= Z.of_nat (length lines)) by (destruct lines; [done | simpl; lia]).
  change (height_sum (r :: rest)) with (row_h r + height_sum rest). lia.
Qed.

Lemma text_between_inside (canvas_height y : Z) (ops : list draw_op) :
  0 <= y <= canvas_height - 40 ->
  Forall (text_between y y) ops -> Forall (op_inside canvas_height) ops.
Proof.
  intros Hy Hall. eapply Forall_impl; [exact Hall|].
  intros [at_xy t f e|]; simpl; [lia | done].
Qed.

Lemma rows_stacked_inside (canvas_height : Z) (rows : list pydict) (global_start_idx : nat) :
  Forall sc_built rows ->
  forall idx top ops,
    rows_stacked rows global_start_idx idx top ops ->
    0 <= top -> top + height_sum rows <= canvas_height - 40 ->
    Forall (op_inside canvas_height) ops.
Proof.
  induction 1 as [|r rest Hr Hbuilt IH]; intros idx top ops Hstack Htop Hfit.
  - simpl in Hstack. subst ops. constructor.
  - destruct Hstack as (texts & more & -> & Htexts & Hmore).
    destruct (sc_built_shape r Hr) as (_ & _ & _ & _ & lines & Hne & _ & _ & _ & _ & _ & _ & Hh).
    assert (1 <= Z.of_nat (length lines)) by (destruct lines; [done | simpl; lia]).
    assert (height_sum (r :: rest) = row_h r + height_sum rest) as Hsum by done.
    pose proof (height_sum_nonneg_built rest Hbuilt) as Hrest.
    constructor; [simpl; lia|]. apply Forall_app. split.
    + eapply Forall_impl; [exact Htexts|].
      intros [at_xy t f e|]; simpl; [lia | done].
    + apply (IH (S idx) (top + row_h r) more Hmore); lia.
Qed.

Lemma sc_built_height (r : pydict) :
  sc_built r -> exists h, r !! "row_height" = Some (PInt h) /\ 60 <= h.
Proof. intros [item Hrow]. by apply sc_row_height in Hrow. Qed.

Lemma render_sc_page_spec (anchor_name room_id month_code now_str : pystr) (n_rows : nat)
      (page_no total_pages : Z) (pg : page) :
  Forall sc_built (snd pg) ->
  exists canvas_height,
    sc_canvas_height (snd pg) = Some canvas_height
    /\ 320 <= canvas_height
    /\ match render_sc_page b anchor_name room_id month_code now_str n_rows
                             page_no total_pages pg with
       | Some pic =>
           pic_width pic = 1840
           /\ pic_height pic = canvas_height
           /\ pic_canvas_height pic = canvas_height + 15
           /\ Forall (op_inside canvas_height) (pic_drawn pic)
       | None =>
           str_of_int page_no = None \/ str_of_int total_pages = None
           \/ (n_rows <> 0%nat /\ str_of_int (Z.of_nat n_rows) = None)
       end.
Proof.
  destruct pg as [global_start_idx page_rows]. cbn [snd]. intros Hbuilt.
  assert (Forall (fun r => exists h, r !! "row_height" = Some (PInt h) /\ 60 <= h) page_rows)
    as Hheights.
  { eapply Forall_impl; [exact Hbuilt|]. apply sc_built_height. }
  destruct (sc_rows_height_sum _ Hheights) as [Hsum Hlow].
  set (data_height := match page_rows with [] => BASE_ROW_H | _ => height_sum page_rows end).
  assert (match page_rows with [] => Some BASE_ROW_H | _ => sc_rows_height page_rows end
          = Some data_height) as Hdata.
  { unfold data_height. by destruct page_rows. }
  assert (60 <= data_height) as Hdata60.
  { unfold data_height, BASE_ROW_H. destruct page_rows; [done|]. simpl length in Hlow. lia. }
  exists (160 + (60 + data_height + 40)).
  split; [unfold sc_canvas_height; rewrite Hdata; done|]. split; [lia|].
  unfold render_sc_page. rewrite Hdata. cbn [mbind option_bind].
  destruct (str_of_int page_no) as [page_no_str|]; [|by left].
  destruct (str_of_int total_pages) as [total_pages_str|]; [|by right; left].
  cbn [mbind option_bind].
  set (H0 := 160 + (BASE_ROW_H + data_height + 40)).
  assert (H0 = 160 + (60 + data_height + 40)) as HH0 by done.
  set (W0 := foldr Z.add 0 sc_col_widths + 40).
  set (p0 := new_pic W0 H0).
  set (p1 := draw_rounded_rectangle (set_pos p0 (Some 0) (Some 0)) 0 0 W0 H0 35 (AColor WHITE)).
  assert (drawn_after p0 p1 [DrawRoundedRectangle 0 0 W0 H0 35 (Color_value WHITE)] (0, 0))
    as Ha1 by reflexivity.
  assert (320 <= H0) as Hbig by lia.
  destruct (draw_text_at_pos p1 20 30
              (anchor_name ++ u " "
               ++ (if (length month_code =? 6)%nat
                   then take 4 month_code ++ u "-" ++ drop 4 month_code
                   else month_code)
               ++ u " SC 记录（" ++ page_no_str ++ u "/" ++ total_pages_str ++ u "）")
              (ManyColors [AColor BLACK]))
    as (q2 & ops2 & Hd2 & Ha2 & Hin2).
  rewrite Hd2. cbn [mbind option_bind].
  destruct (draw_text_at_pos q2 20 90 (u "房间号：" ++ room_id) (ManyColors [AColor GRAY]))
    as (q3 & ops3 & Hd3 & Ha3 & Hin3).
  rewrite Hd3. cbn [mbind option_bind].
  destruct (sc_count_str n_rows) as [count_str|] eqn:Hcount.
  2:{ cbn [mbind option_bind]. right; right. unfold sc_count_str in Hcount.
      destruct n_rows as [|n]; [done|]. split; [done|].
      by destruct (str_of_int (Z.of_nat (S n))). }
  cbn [mbind option_bind].
  destruct (draw_text_at_pos q3 20 120 (u "查询时间：" ++ now_str ++ u "  |  " ++ count_str)
              (ManyColors [AColor GRAY]))
    as (q4 & ops4 & Hd4 & Ha4 & Hin4).
  rewrite Hd4. cbn [mbind option_bind].
  set (r4 := draw_rounded_rectangle q4 20 160 (W0 - 40) BASE_ROW_H 12 (AColor DEEPSKYBLUE)).
  destruct (draw_cells_spec (zip sc_col_widths sc_headers) (160 + 18) WHITE (20 + 10) r4)
    as (q5 & ops5 & xy5 & Hd5 & Ha5 & Hin5).
  rewrite Hd5. cbn [mbind option_bind].
  apply drawn_after_rect in Ha5.
  assert (exists q6 ops6 xy6,
             match page_rows with
             | [] =>
                 draw_text b
                   (set_pos
                      (draw_rounded_rectangle q5 20 (160 + BASE_ROW_H) (W0 - 40) BASE_ROW_H 0
                                              (AColor WHITE))
                      (Some (20 + 10)) (Some (160 + BASE_ROW_H + 18)))
                   (AText (u "（本月暂无 SC 记录）")) (ManyColors [AColor BLACK]) None
             | _ :: _ => draw_sc_rows b page_rows global_start_idx 0 (160 + BASE_ROW_H) q5
             end = Some q6
             /\ drawn_after q5 q6 ops6 xy6
             /\ Forall (op_inside H0) ops6) as (q6 & ops6 & xy6 & Hd6 & Ha6 & Hin6).
  { destruct page_rows as [|r rest].
    - destruct (draw_text_at_pos
                  (draw_rounded_rectangle q5 20 (160 + BASE_ROW_H) (W0 - 40) BASE_ROW_H 0
                                          (AColor WHITE))
                  (20 + 10) (160 + BASE_ROW_H + 18) (u "（本月暂无 SC 记录）")
                  (ManyColors [AColor BLACK]))
        as (q6 & ops6 & Hd6 & Ha6 & Hin6).
      apply drawn_after_rect in Ha6.
      eexists q6, _, _. split; [exact Hd6|]. split; [exact Ha6|].
      constructor; [unfold BASE_ROW_H; simpl; lia|].
      apply (text_between_inside H0 _ ops6) in Hin6; [done|]. unfold BASE_ROW_H. lia.
    - destruct (draw_sc_rows_spec (r :: rest) global_start_idx Hbuilt 0%nat (160 + BASE_ROW_H) q5)
        as (q6 & ops6 & xy6 & Hd6 & Ha6 & Hstack).
      exists q6, ops6, xy6. split; [done|]. split; [done|].
      apply (rows_stacked_inside H0 (r :: rest) global_start_idx Hbuilt _ _ _ Hstack);
        unfold BASE_ROW_H; [lia|]. unfold data_height in HH0. lia. }
  rewrite Hd6. cbn [mbind option_bind].
  destruct (draw_text_right_spec b (set_pos q6 (Some (W0 - 220)) (Some (H0 - 40))) 0
              (AText (u "Designed by QianQiuZy")) (OneColor (AColor GRAY)) (0, 0))
    as (q7 & ops7 & Hd7 & Ha7 & Hrow7 & _).
  rewrite Hd7. cbn [mbind option_bind].
  apply drawn_after_set_pos in Ha7. apply text_row_between in Hrow7.
  pose proof (drawn_after_trans _ _ _ _ _ _ _ Ha1 Ha2) as Hc2.
  pose proof (drawn_after_trans _ _ _ _ _ _ _ Hc2 Ha3) as Hc3.
  pose proof (drawn_after_trans _ _ _ _ _ _ _ Hc3 Ha4) as Hc4.
  pose proof (drawn_after_trans _ _ _ _ _ _ _ Hc4 Ha5) as Hc5.
  pose proof (drawn_after_trans _ _ _ _ _ _ _ Hc5 Ha6) as Hc6.
  assert (pic_auto_size_margin q6 = 10 /\ pic_row_space q6 = 25) as [Hmargin Hspace].
  { by rewrite Hc6. }
  cbn [set_pos with_xy pic_xy pic_auto_size_margin pic_row_space fst snd default]
    in Ha7, Hrow7.
  unfold id in Ha7, Hrow7.
  rewrite Hmargin in Ha7, Hrow7. rewrite Hspace in Ha7.
  rewrite (Z.max_l (H0 - 40) (0 + 10)) in Ha7, Hrow7 by lia.
  pose proof (drawn_after_trans _ _ _ _ _ _ _ Hc6 Ha7) as Hc7.
  assert (W0 = 1840) as HW0 by reflexivity.
  rewrite Hc7. unfold crop_and_paste_bottom.
  cbn [pic_xy pic_bottom_pic pic_width pic_height pic_canvas_height pic_drawn new_pic p0
       snd default].
  rewrite HW0.
  destruct (Z.ltb_spec (H0 - 40 + 30 + 25 + 0) 0) as [|_]; [lia|].
  cbn [orb Z.ltb Z.compare]. cbn [pic_width pic_height pic_canvas_height pic_drawn].
  split; [done|]. split; [lia|]. split; [lia|].
  rewrite <- HH0.
  repeat (apply Forall_app; split); try done.
  - constructor; [simpl; lia | constructor].
  - apply (text_between_inside H0 30); [lia | done].
  - apply (text_between_inside H0 90); [lia | done].
  - apply (text_between_inside H0 120); [lia | done].
  - constructor; [unfold BASE_ROW_H; simpl; lia|].
    apply (text_between_inside H0 (160 + 18)); [lia | done].
  - apply (text_between_inside H0 (H0 - 40)); [lia | done].
Qed.

(** X22: a page of built rows is drawn without raising, unless [str()]
    raises on a page number or on the number of rows. The picture is as
    wide and high as the canvas allocated for the page, every rectangle
    drawn lies on that canvas and every text is anchored at least 40
    above its bottom; the final crop at the cursor, which the footer
    leaves [30 + row_space] below its text, makes the image 15 higher
    than the canvas. *)
Theorem render_sc_page_height (anchor_name room_id month_code now_str : pystr) (n_rows : nat)
        (page_no total_pages : Z) (pg : page) :
  Forall sc_built (snd pg) ->
  exists canvas_height,
    sc_canvas_height (snd pg) = Some canvas_height
    /\ 320 <= canvas_height
    /\ match render_sc_page b anchor_name room_id month_code now_str n_rows
                             page_no total_pages pg with
       | Some pic =>
           pic_width pic = 1840
           /\ pic_height pic = canvas_height
           /\ pic_canvas_height pic = canvas_height + 15
           /\ Forall (op_inside canvas_height) (pic_drawn pic)
       | None =>
           str_of_int page_no = None \/ str_of_int total_pages = None
           \/ (n_rows <> 0%nat /\ str_of_int (Z.of_nat n_rows) = None)
       end.
Proof. apply render_sc_page_spec. Qed.

End Pages.

Section PagesConcrete.
Import Query.
#[local] Existing Instance ascii_env.

Lemma sample_rows_built : Forall sc_built sample_rows.
Proof. constructor; [|constructor]. exists sample_item. vm_compute. reflexivity. Qed.

Lemma draw_sc_rows_stacks_witness :
  Forall sc_built sample_rows
  /\ exists q ops xy,
      draw_sc_rows no_metrics sample_rows 0 0 220 (new_pic 1840 388) = Some q
      /\ drawn_after (new_pic 1840 388) q ops xy
      /\ rows_stacked sample_rows 0 0 220 ops.
Proof.
  split; [exact sample_rows_built|].
  exact (draw_sc_rows_stacks no_metrics sample_rows 0 0 220 (new_pic 1840 388)
           sample_rows_built).
Defined.

Lemma render_sc_page_height_witness :
  Forall sc_built (snd (0%nat, sample_rows))
  /\ exists canvas_height,
      sc_canvas_height (snd (0%nat, sample_rows)) = Some canvas_height
      /\ 320 <= canvas_height
      /\ match render_sc_page no_metrics (u "anchor") (u "1000") (u "202405")
                              (u "2024-06-01 12:00:00") 1 1 1 (0%nat, sample_rows) with
         | Some pic =>
             pic_width pic = 1840
             /\ pic_height pic = canvas_height
             /\ pic_canvas_height pic = canvas_height + 15
             /\ Forall (op_inside canvas_height) (pic_drawn pic)
         | None =>
             str_of_int 1 = None \/ str_of_int 1 = None
             \/ (1%nat <> 0%nat /\ str_of_int (Z.of_nat 1) = None)
         end.
Proof.
  split; [exact sample_rows_built|].
  exact (render_sc_page_height no_metrics (u "anchor") (u "1000") (u "202405")
           (u "2024-06-01 12:00:00") 1 1 1 (0%nat, sample_rows) sample_rows_built).
Defined.

End PagesConcrete.

(** ** The duration of a live session *)

Section LiveDuration.
Context `{PyEnv}.

Lemma sec_to_hms_zero : Query._sec_to_hms 0 = Some (u "00:00:00").
Proof.
  unfold Query._sec_to_hms. change (0 <? 0) with false. cbv iota zeta.
  change (0 / 3600) with 0. change (0 mod 3600 / 60) with 0. change (0 mod 60) with 0.
  destruct (format_02d_small 0 ltac:(lia)) as [-> _]. reflexivity.
Qed.

(** X24: [_calc_live_duration_hms] formats the seconds as [_sec_to_hms]
    of [query.py] does, with ["00:00:00"] where that one raises or the
    start time does not parse; its result always reads back, as hours,
    minutes and seconds, to the seconds clamped at zero, or to zero. *)
Theorem calc_live_duration_agrees (delta_seconds : option Z) :
  LiveList._calc_live_duration_hms delta_seconds
  = default (u "00:00:00") (delta_seconds ≫= Query._sec_to_hms)
  /\ exists t,
      hms_seconds (LiveList._calc_live_duration_hms delta_seconds) = Some t
      /\ (t = 0 \/ exists d, delta_seconds = Some d /\ t = Z.max 0 d).
Proof.
  assert (LiveList._calc_live_duration_hms delta_seconds
          = default (u "00:00:00") (delta_seconds ≫= Query._sec_to_hms)) as Heq.
  { unfold LiveList._calc_live_duration_hms, Query._sec_to_hms.
    destruct delta_seconds as [d|]; [|done]. cbn [mbind option_bind].
    replace (Z.max 0 d) with (if d <? 0 then 0 else d); [done|].
    destruct (Z.ltb_spec d 0); lia. }
  split; [exact Heq|]. rewrite Heq.
  pose proof (sec_to_hms_spec 0) as Hzero. rewrite sec_to_hms_zero in Hzero.
  destruct Hzero as [Hzero _].
  destruct delta_seconds as [d|]; cbn [mbind option_bind default].
  - pose proof (sec_to_hms_spec d) as Hd.
    destruct (Query._sec_to_hms d) as [out|]; cbn [from_option id].
    + destruct Hd as [Hd _]. exists (Z.max 0 d). split; [done|]. right. by exists d.
    + exists 0. split; [done | by left].
  - exists 0. split; [done | by left].
Qed.

End LiveDuration.

(** ** The footer of a picture *)

Section Footer.
Context `{PyEnv}.
Variable b : Backend.

(** X25: the footer of every renderer. After [set_pos(x, y)],
    [draw_text_right] and [crop_and_paste_bottom] the canvas ends
    [30 + row_space] below the row of the footer text, plus the height
    of the saved bottom image, whatever the height the picture was
    created with. The crop raises only for a negative height or
    width. *)
Theorem footer_crop_height (p : PicGenerator) (x y margin_right : Z) (texts : texts_arg)
        (colors : colors_arg) (xy_limit : Z * Z) :
  let row_y := Z.max y (snd xy_limit + pic_auto_size_margin p) in
  let lower := row_y + 30 + pic_row_space p + default 0 (pic_bottom_pic p) in
  match draw_text_right b (set_pos p (Some x) (Some y)) margin_right texts colors xy_limit
        ≫= crop_and_paste_bottom with
  | Some q =>
      0 <= lower
      /\ pic_canvas_height q = lower
      /\ pic_xy q = (x, row_y + 30 + pic_row_space p)
      /\ pic_bottom_pic q = None
      /\ pic_width q = pic_width p /\ pic_height q = pic_height p
  | None => lower < 0 \/ pic_width p < 0
  end.
Proof.
  intros row_y lower.
  destruct (draw_text_right_spec b (set_pos p (Some x) (Some y)) margin_right texts colors
              xy_limit) as (q & ops & Hdraw & Hafter & _).
  rewrite Hdraw. cbn [mbind option_bind].
  cbn [set_pos with_xy pic_xy pic_auto_size_margin pic_row_space pic_width pic_height
       pic_canvas_height pic_bottom_pic pic_drawn fst snd default] in Hafter.
  unfold id in Hafter. fold row_y in Hafter.
  rewrite Hafter. unfold crop_and_paste_bottom.
  cbn [set_pos with_xy pic_xy pic_bottom_pic pic_width pic_height pic_canvas_height
       pic_row_space pic_auto_size_margin pic_drawn snd].
  fold lower.
  destruct (Z.ltb_spec lower 0) as [Hneg | Hpos]; cbn [orb]; [by left|].
  destruct (Z.ltb_spec (pic_width p) 0) as [Hw | Hw]; [by right|].
  cbn [pic_xy pic_bottom_pic pic_width pic_height pic_canvas_height]. done.
Qed.

End Footer.

(** ** The picture of the live list *)

Section LiveListImage.
Import LiveList.
Context `{PyEnv}.
Variable b : Backend.
Hypothesis run_width_app :
  forall font x y,
    _text_length b font (x ++ y) = _text_length b font x + _text_length b font y.
Hypothesis run_width_nonneg : forall font x, 0 <= _text_length b font x.

Lemma draw_text_cell (p : PicGenerator) (x y : Z) (txt : pystr) (colors : colors_arg) :
  exists q ops,
    draw_text b (set_pos p (Some x) (Some y)) (AText txt) colors None = Some q
    /\ drawn_after p q ops (x, y + 30 + pic_row_space p)
    /\ text_row b x y ops
    /\ ops_width b ops = _measure_with_fallback b txt.
Proof using Type.
  destruct (draw_text_spec b (set_pos p (Some x) (Some y)) (AText txt) colors None)
    as (q & ops & Hdraw & Hafter & Hrow & _ & Hwidth & _).
  exists q, ops. split; [done|]. split; [by apply drawn_after_set_pos in Hafter|].
  split; [done|]. rewrite Hwidth. unfold texts_width. simpl. lia.
Qed.

Lemma limited_title_fits (title : pystr) :
  _measure_with_fallback b (u "...") <= 580 ->
  exists out,
    _limit_text_by_px (Some (_measure_with_fallback b)) (PStr title) (600 - 20) = Some out
    /\ _measure_with_fallback b out <= 580.
Proof using run_width_app run_width_nonneg.
  intros Hdots.
  destruct (limit_text_generic (_measure_with_fallback b)
              (fun a => measure_suffix b run_width_app a (u "...") dots_plain)
              (measure_nonneg b run_width_nonneg) title (600 - 20))
    as (out & Hout & _ & _ & Hfit).
  exists out. split; [done|]. by apply Hfit.
Qed.

Lemma draw_live_rows_spec (elapsed : nat -> pystr -> option Z) (live_list : list pydict) :
  _measure_with_fallback b (u "...") <= 580 ->
  forall idx cur_y p,
    match draw_live_rows b elapsed live_list idx cur_y p with
    | Some q =>
        exists ops xy,
          drawn_after p q ops xy
          /\ live_rows_stacked b (length live_list) idx cur_y ops
    | None => exists d, d ∈ live_list /\ live_row_raises d
    end.
Proof using run_width_app run_width_nonneg.
  intros Hdots. induction live_list as [|d rest IH]; intros idx cur_y p.
  - exists [], (pic_xy p). split; [apply drawn_after_refl | done].
  - cbn [draw_live_rows length].
    destruct (_safe_str (dict_get_or d "live_time" _)) as [live_time_val|] eqn:Htime;
      [|exists d; split; [by left | by left]].
    cbn [mbind option_bind].
    destruct (_safe_str (dict_get_or d "anchor_name" _)) as [anchor_name|] eqn:Hname;
      [|exists d; split; [by left | by right; left]].
    cbn [mbind option_bind].
    destruct (_safe_str (dict_get_or d "title" _)) as [live_title|] eqn:Htitle;
      [|exists d; split; [by left | by right; right]].
    cbn [mbind option_bind].
    destruct (limited_title_fits live_title Hdots) as (shown & Hshown & Hfit).
    rewrite Hshown. cbn [mbind option_bind].
    set (p0 := draw_rounded_rectangle p _ _ _ _ _ _).
    destruct (draw_text_cell p0 (20 + 10) (cur_y + 18) live_time_val (ManyColors [AColor BLACK]))
      as (q1 & ops1 & Hd1 & Ha1 & Hr1 & _).
    rewrite Hd1. cbn [mbind option_bind].
    destruct (draw_text_cell q1 (20 + 10 + 350) (cur_y + 18) anchor_name
                (ManyColors [AColor BLACK]))
      as (q2 & ops2 & Hd2 & Ha2 & Hr2 & _).
    rewrite Hd2. cbn [mbind option_bind].
    destruct (draw_text_cell q2 (20 + 10 + 350 + 300) (cur_y + 18)
                (_calc_live_duration_hms (elapsed idx live_time_val)) (ManyColors [AColor BLACK]))
      as (q3 & ops3 & Hd3 & Ha3 & Hr3 & _).
    rewrite Hd3. cbn [mbind option_bind].
    destruct (draw_text_cell q3 (20 + 10 + 350 + 300 + 200) (cur_y + 18) shown
                (ManyColors [AColor BLACK]))
      as (q4 & ops4 & Hd4 & Ha4 & Hr4 & Hw4).
    rewrite Hd4. cbn [mbind option_bind].
    specialize (IH (S idx) (cur_y + 60) q4).
    destruct (draw_live_rows b elapsed rest (S idx) (cur_y + 60) q4) as [q|].
    + destruct IH as (ops & xy & Hafter & Hstack).
      exists (DrawRoundedRectangle 20 cur_y 1470 (cur_y + 60) 0
                (Color_value (if (idx mod 2 =? 0)%nat then LIGHTGRAY else WHITE))
              :: ops1 ++ ops2 ++ ops3 ++ ops4 ++ ops), xy.
      split.
      * pose proof (drawn_after_trans _ _ _ _ _ _ _ Ha4 Hafter) as H4.
        pose proof (drawn_after_trans _ _ _ _ _ _ _ Ha3 H4) as H3.
        pose proof (drawn_after_trans _ _ _ _ _ _ _ Ha2 H3) as H2.
        pose proof (drawn_after_trans _ _ _ _ _ _ _ Ha1 H2) as H1.
        apply drawn_after_rect in H1. exact H1.
      * exists ops1, ops2, ops3, ops4, ops.
        split; [done|]. split; [done|]. split; [done|]. split; [done|].
        split; [done|]. split; [lia | done].
    + destruct IH as (d' & Hin & Hraise). exists d'. split; [by right | done].
Qed.

Lemma bind_eq_Some {A B} (m : option A) (f : A -> option B) (x : A) :
  m = Some x -> m ≫= f = f x.
Proof using Type. by intros ->. Qed.

Lemma bind_eq_None {A B} (m : option A) (f : A -> option B) :
  m = None -> m ≫= f = None.
Proof using Type. by intros ->. Qed.

Lemma render_live_list_spec (elapsed : nat -> pystr -> option Z) (title now_str : pystr)
      (live_list : list pydict) :
  _measure_with_fallback b (u "...") <= 580 ->
  let canvas_height := 60 * (Z.of_nat (length live_list) + 1) + 40 + 140 in
  match _render_live_list_image b elapsed title now_str live_list with
  | Some pic =>
      pic_width pic = 1490
      /\ pic_height pic = canvas_height
      /\ pic_canvas_height pic = canvas_height + 15
      /\ exists head rows foot,
          pic_drawn pic = head ++ rows ++ foot
          /\ live_rows_stacked b (length live_list) 0 200 rows
  | None => exists d, d ∈ live_list /\ live_row_raises d
  end.
Proof using run_width_app run_width_nonneg.
  intros Hdots canvas_height. unfold _render_live_list_image. cbv zeta.
  set (W0 := foldr Z.add 0 live_col_widths + 40).
  assert (W0 = 1490) as HW0 by reflexivity.
  set (H0 := 60 * (Z.of_nat (length live_list) + 1) + 40 + 140).
  assert (240 <= H0) as Hbig by (unfold H0; lia).
  set (p0 := new_pic W0 H0).
  set (p1 := draw_rounded_rectangle (set_pos p0 (Some 0) (Some 0)) 0 0 W0 H0 35 (AColor WHITE)).
  assert (drawn_after p0 p1 [DrawRoundedRectangle 0 0 W0 H0 35 (Color_value WHITE)] (0, 0))
    as Ha1 by reflexivity.
  destruct (draw_text_cell p1 20 30 title (ManyColors [AColor BLACK]))
    as (q2 & ops2 & Hd2 & Ha2 & _).
  rewrite (bind_eq_Some _ _ _ Hd2). cbv beta.
  destruct (draw_text_cell q2 20 90 now_str (ManyColors [AColor GRAY]))
    as (q3 & ops3 & Hd3 & Ha3 & _).
  rewrite (bind_eq_Some _ _ _ Hd3). cbv beta.
  destruct (draw_text_cell q3 (20 + 300) 90 (u "仅列出当前正在直播的房间")
              (ManyColors [AColor GRAY]))
    as (q4 & ops4 & Hd4 & Ha4 & _).
  rewrite (bind_eq_Some _ _ _ Hd4). cbv beta.
  set (r4 := draw_rounded_rectangle q4 20 140 (W0 - 40) 60 12 (AColor DEEPSKYBLUE)).
  destruct (draw_cells_spec b (zip live_col_widths live_headers) (140 + 18) WHITE (20 + 10) r4)
    as (q5 & ops5 & xy5 & Hd5 & Ha5 & _).
  rewrite (bind_eq_Some _ _ _ Hd5). cbv beta iota.
  apply drawn_after_rect in Ha5.
  pose proof (draw_live_rows_spec elapsed live_list Hdots 0%nat (140 + 60) q5) as Hrows.
  destruct (draw_live_rows b elapsed live_list 0 (140 + 60) q5) as [q6|] eqn:Hd6.
  2:{ rewrite (bind_eq_None None _ eq_refl). exact Hrows. }
  rewrite (bind_eq_Some (Some q6) _ q6 eq_refl). cbv beta.
  destruct Hrows as (ops6 & xy6 & Ha6 & Hstack).
  destruct (draw_text_right_spec b (set_pos q6 (Some (W0 - 220)) (Some (H0 - 40))) 0
              (AText (u "Designed by QianQiuZy")) (OneColor (AColor GRAY)) (0, 0))
    as (q7 & ops7 & Hd7 & Ha7 & _).
  rewrite (bind_eq_Some _ _ _ Hd7). cbv beta.
  apply drawn_after_set_pos in Ha7.
  pose proof (drawn_after_trans _ _ _ _ _ _ _ Ha1 Ha2) as Hc2.
  pose proof (drawn_after_trans _ _ _ _ _ _ _ Hc2 Ha3) as Hc3.
  pose proof (drawn_after_trans _ _ _ _ _ _ _ Hc3 Ha4) as Hc4.
  pose proof (drawn_after_trans _ _ _ _ _ _ _ Hc4 Ha5) as Hc5.
  pose proof (drawn_after_trans _ _ _ _ _ _ _ Hc5 Ha6) as Hc6.
  assert (pic_auto_size_margin q6 = 10 /\ pic_row_space q6 = 25) as [Hmargin Hspace].
  { by rewrite Hc6. }
  cbn [set_pos with_xy pic_xy pic_auto_size_margin pic_row_space fst snd default] in Ha7.
  unfold id in Ha7. rewrite Hmargin, Hspace in Ha7.
  rewrite (Z.max_l (H0 - 40) (0 + 10)) in Ha7 by lia.
  pose proof (drawn_after_trans _ _ _ _ _ _ _ Hc6 Ha7) as Hc7.
  rewrite Hc7. unfold crop_and_paste_bottom.
  cbn [pic_xy pic_bottom_pic pic_width pic_height pic_canvas_height pic_drawn new_pic p0
       snd default].
  rewrite HW0.
  destruct (Z.ltb_spec (H0 - 40 + 30 + 25 + 0) 0) as [|_]; [lia|].
  cbn [orb Z.ltb Z.compare]. cbn [pic_width pic_height pic_canvas_height pic_drawn].
  split; [done|]. split; [done|]. split; [unfold canvas_height; fold H0; lia|].
  assert (forall X a c : list draw_op, (X ++ a) ++ c = X ++ a ++ c) as Hsplit.
  { intros. by rewrite app_assoc. }
  eexists _, ops6, ops7. split; [apply Hsplit | exact Hstack].
Qed.

(** X26. [_render_live_list_image], for text widths that add up over
    concatenation and are never negative, and a suffix "..." at most
    580 wide. When it returns, the picture is 1490 wide, its canvas
    [60 * (rooms + 1) + 180] high and the cropped image 15 higher; the
    calls it made contain, in one block, the rows of the rooms stacked
    60 apart from the height 200 on, each with its striped rectangle
    and its four cells from the columns 30, 380, 680 and 880 on, the
    title cell at most 580 wide. It raises only when [_safe_str] raises
    on a field of one of the rooms. *)
Theorem live_list_image_layout (elapsed : nat -> pystr -> option Z) (title now_str : pystr)
        (live_list : list pydict) :
  _measure_with_fallback b (u "...") <= 580 ->
  let canvas_height := 60 * (Z.of_nat (length live_list) + 1) + 40 + 140 in
  match _render_live_list_image b elapsed title now_str live_list with
  | Some pic =>
      pic_width pic = 1490
      /\ pic_height pic = canvas_height
      /\ pic_canvas_height pic = canvas_height + 15
      /\ exists head rows foot,
          pic_drawn pic = head ++ rows ++ foot
          /\ live_rows_stacked b (length live_list) 0 200 rows
  | None => exists d, d ∈ live_list /\ live_row_raises d
  end.
Proof using run_width_app run_width_nonneg. apply render_live_list_spec. Qed.

End LiveListImage.

Section LiveListImageConcrete.
Import LiveList.
#[local] Existing Instance ascii_env.

Lemma live_list_image_layout_witness :
  (forall font x y,
      _text_length no_metrics font (x ++ y)
      = _text_length no_metrics font x + _text_length no_metrics font y)
  /\ (forall font x, 0 <= _text_length no_metrics font x)
  /\ _measure_with_fallback no_metrics (u "...") <= 580
  /\ let canvas_height := 60 * (Z.of_nat (length [sample_room]) + 1) + 40 + 140 in
     match _render_live_list_image no_metrics (fun _ _ => Some 7325) (u "live")
                                   (u "2024-06-01 12:02:05") [sample_room] with
     | Some pic =>
         pic_width pic = 1490
         /\ pic_height pic = canvas_height
         /\ pic_canvas_height pic = canvas_height + 15
         /\ exists head rows foot,
             pic_drawn pic = head ++ rows ++ foot
             /\ live_rows_stacked no_metrics (length [sample_room]) 0 200 rows
     | None => exists d, d ∈ [sample_room] /\ live_row_raises d
     end.
Proof.
  assert (Happ : forall font x y,
             _text_length no_metrics font (x ++ y)
             = _text_length no_metrics font x + _text_length no_metrics font y).
  { intros font x y. unfold _text_length. simpl. rewrite length_app. lia. }
  assert (Hnonneg : forall font x, 0 <= _text_length no_metrics font x).
  { intros font x. unfold _text_length. simpl. lia. }
  assert (Hdots : _measure_with_fallback no_metrics (u "...") <= 580).
  { rewrite measure_no_metrics. vm_compute. discriminate. }
  split; [exact Happ|]. split; [exact Hnonneg|]. split; [exact Hdots|].
  exact (live_list_image_layout no_metrics Happ Hnonneg (fun _ _ => Some 7325) (u "live")
           (u "2024-06-01 12:02:05") [sample_room] Hdots).
Defined.

End LiveListImageConcrete.
